(** * Managed code-index synchronisation engine

    A shallow embedding of [src/services/code-index/managed]: the manifest
    cache ([operations/manifest.ts]), the workspace-folder registry
    ([operations/workspace.ts]), the git-event state machine
    ([operations/git-events.ts]), the Jotai atoms ([state/atoms.ts]) and the
    orchestrator ([ManagedIndexerRefactored.ts]).

    Asynchronous functions are embedded in a state-and-exception monad over
    a [World] holding the Jotai store, the orchestrator's private fields and
    a log of the calls made to external collaborators.  What the
    collaborators answer is read from an [Env] record.  Calls to [logger]
    and [console] are not modelled. *)

From Stdlib Require Import ZArith List Bool Ascii String Lia.
From stdpp Require Import base option list strings gmap fin_maps.

Open Scope string_scope.
Open Scope Z_scope.

(** ** Values of the host language *)

(** What a [catch (error)] clause can receive: an [Error] instance, with its
    message and stack, or any other value, kept as [String(error)]. *)
Inductive Thrown : Type :=
  | JsError (message : string) (stack : option string)
  | JsValue (text : string).

(** The outcome of running a function body, or of awaiting a promise. *)
Inductive Completion (A : Type) : Type :=
  | Normal (a : A)
  | Throw (e : Thrown).
Arguments Normal {A} a.
Arguments Throw {A} e.

(** Truthiness of a [string | null]: [null] and the empty string are falsy. *)
Definition truthy (s : option string) : bool :=
  match s with
  | Some EmptyString => false
  | Some _ => true
  | None => false
  end.

(** [a || b] on [string | null] operands. *)
Definition orElse (a b : option string) : option string :=
  if truthy a then a else b.

(** Object identities: watchers, subscriptions and interval timers are
    compared by reference. *)
Definition GitWatcher := nat.
Definition Disposable := nat.
Definition Timer := nat.

(** ** state/types.ts and types.ts *)

Record ManifestFileEntry : Type := {
  mf_filePath : string;
  mf_fileHash : string
}.

Record ServerManifest : Type := {
  files : list ManifestFileEntry
}.

Record ConfigState : Type := {
  token : option string;
  organizationId : option string;
  testerWarningsDisabledUntil : option Z
}.

Inductive ErrorType : Type :=
  | setup | scan | file_upsert | git | manifest_error | config_error.

Record ErrorContext : Type := {
  ctx_filePath : option string;
  ctx_branch : option string;
  ctx_operation : option string
}.

Record ManagedIndexerError : Type := {
  type : ErrorType;
  message : string;
  timestamp : Z;
  context : option ErrorContext;
  details : option string
}.

Record WorkspaceFolder : Type := {
  fsPath : string;
  name : string;
  index : nat
}.

Record WorkspaceFolderState : Type := {
  folder : WorkspaceFolder;
  gitBranch : option string;
  projectId : option string;
  repositoryUrl : option string;
  isIndexing : bool;
  watcher : option GitWatcher;
  lastError : option ManagedIndexerError
}.

(** [Partial<WorkspaceFolderState>]: [None] is an absent key.  No caller
    passes [folder], [repositoryUrl] or [watcher] in an update. *)
Record FolderUpdates : Type := {
  u_gitBranch : option (option string);
  u_projectId : option (option string);
  u_isIndexing : option bool;
  u_lastError : option (option ManagedIndexerError)
}.

Record ManifestFetchParams : Type := {
  p_organizationId : string;
  p_projectId : string;
  p_branch : string;
  p_token : string
}.

(** The promise returned by a call to the manifest API: the rank of the call
    among all such calls names the object, the request is what it was made
    for. *)
Record Promise : Type := {
  rank : nat;
  request : ManifestFetchParams
}.

Record ManifestCacheEntry : Type := {
  manifest : option ServerManifest;
  fetchedAt : Z;
  fetchPromise : option Promise
}.

Record FileUpsertTask : Type := {
  t_filePath : string;
  t_fileHash : string;
  t_branch : string;
  t_isBaseBranch : bool;
  t_projectId : string;
  t_workspacePath : string
}.

Record GitInfo : Type := {
  gi_branch : string;
  gi_repositoryUrl : string
}.

(** Modelled from the spec: [shared/GitWatcher.ts] is not among the sources.
    Section 6 gives the events as [{type, branch, isBaseBranch,
    watcher-handle, ...type-specific fields}] for the five types below.  The
    declared type of [watcher] is a non-null [GitWatcher]; the comparison in
    [findWorkspaceFolderByWatcher] is [===], which also accepts [null] at run
    time, so the field is an option here. *)
Inductive GitWatcherEventType : Type :=
  | scan_start
  | scan_end
  | file_changed (filePath fileHash : string)
  | file_deleted (filePath : string)
  | branch_changed (previousBranch newBranch : string).

Record GitWatcherEvent : Type := {
  ev_type : GitWatcherEventType;
  ev_branch : string;
  ev_isBaseBranch : bool;
  ev_watcher : option GitWatcher
}.

(** ** Insertion-ordered maps

    A JavaScript [Map] iterates in insertion order, and
    [findWorkspaceFolderByWatcher] returns the first match of that
    iteration, so the folder registry is an association list: [set] on a
    present key replaces the value in place, on an absent key appends. *)
Module JsMap.

Definition t (V : Type) : Type := list (string * V).

Definition empty {V : Type} : t V := [].

Fixpoint get {V : Type} (k : string) (m : t V) : option V :=
  match m with
  | [] => None
  | (k', v) :: rest => if String.eqb k' k then Some v else get k rest
  end.

Fixpoint set {V : Type} (k : string) (v : V) (m : t V) : t V :=
  match m with
  | [] => [(k, v)]
  | (k', v') :: rest =>
      if String.eqb k' k then (k', v) :: rest else (k', v') :: set k v rest
  end.

Definition values {V : Type} (m : t V) : list V := map snd m.

Definition keys {V : Type} (m : t V) : list string := map fst m.

End JsMap.

(** ** The world: Jotai store, orchestrator fields, external calls *)

(** Calls on external objects that leave a trace outside the store. *)
Inductive Effect : Type :=
  | WatcherCreated (w : GitWatcher) (cwd : string)
  | WatcherScan (w : GitWatcher)
  | WatcherStart (w : GitWatcher)
  | WatcherDisposed (w : GitWatcher)
  | SubscriptionDisposed (d : Disposable)
  | IntervalCleared (t : Timer).

Record World : Type := {
  (* state/atoms.ts *)
  configTokenAtom : option string;
  configOrganizationIdAtom : option string;
  configTesterWarningsDisabledUntilAtom : option Z;
  workspaceFoldersAtom : JsMap.t WorkspaceFolderState;
  manifestCacheAtom : gmap string ManifestCacheEntry;
  fileUpsertQueueAtom : list FileUpsertTask;
  errorsAtom : list ManagedIndexerError;
  isActiveAtom : bool;
  (* private fields of ManagedIndexer *)
  disposables : list (option Disposable);   (* a listener may hand back nothing *)
  fileUpsertInterval : option Timer;
  (* outside the process *)
  clockReads : nat;                       (* readings of Date.now() so far *)
  fetchCalls : list ManifestFetchParams;  (* calls to getServerManifest *)
  watcherCount : nat;                     (* GitWatcher objects built *)
  effects : list Effect
}.

Definition set_config (t o : option string) (d : option Z) (w : World) : World :=
  {| configTokenAtom := t; configOrganizationIdAtom := o;
     configTesterWarningsDisabledUntilAtom := d;
     workspaceFoldersAtom := workspaceFoldersAtom w;
     manifestCacheAtom := manifestCacheAtom w;
     fileUpsertQueueAtom := fileUpsertQueueAtom w;
     errorsAtom := errorsAtom w; isActiveAtom := isActiveAtom w;
     disposables := disposables w; fileUpsertInterval := fileUpsertInterval w;
     clockReads := clockReads w; fetchCalls := fetchCalls w;
     watcherCount := watcherCount w; effects := effects w |}.

Definition set_workspaceFolders (m : JsMap.t WorkspaceFolderState) (w : World) : World :=
  {| configTokenAtom := configTokenAtom w;
     configOrganizationIdAtom := configOrganizationIdAtom w;
     configTesterWarningsDisabledUntilAtom := configTesterWarningsDisabledUntilAtom w;
     workspaceFoldersAtom := m;
     manifestCacheAtom := manifestCacheAtom w;
     fileUpsertQueueAtom := fileUpsertQueueAtom w;
     errorsAtom := errorsAtom w; isActiveAtom := isActiveAtom w;
     disposables := disposables w; fileUpsertInterval := fileUpsertInterval w;
     clockReads := clockReads w; fetchCalls := fetchCalls w;
     watcherCount := watcherCount w; effects := effects w |}.

Definition set_manifestCache (c : gmap string ManifestCacheEntry) (w : World) : World :=
  {| configTokenAtom := configTokenAtom w;
     configOrganizationIdAtom := configOrganizationIdAtom w;
     configTesterWarningsDisabledUntilAtom := configTesterWarningsDisabledUntilAtom w;
     workspaceFoldersAtom := workspaceFoldersAtom w;
     manifestCacheAtom := c;
     fileUpsertQueueAtom := fileUpsertQueueAtom w;
     errorsAtom := errorsAtom w; isActiveAtom := isActiveAtom w;
     disposables := disposables w; fileUpsertInterval := fileUpsertInterval w;
     clockReads := clockReads w; fetchCalls := fetchCalls w;
     watcherCount := watcherCount w; effects := effects w |}.

Definition set_fileUpsertQueue (q : list FileUpsertTask) (w : World) : World :=
  {| configTokenAtom := configTokenAtom w;
     configOrganizationIdAtom := configOrganizationIdAtom w;
     configTesterWarningsDisabledUntilAtom := configTesterWarningsDisabledUntilAtom w;
     workspaceFoldersAtom := workspaceFoldersAtom w;
     manifestCacheAtom := manifestCacheAtom w;
     fileUpsertQueueAtom := q;
     errorsAtom := errorsAtom w; isActiveAtom := isActiveAtom w;
     disposables := disposables w; fileUpsertInterval := fileUpsertInterval w;
     clockReads := clockReads w; fetchCalls := fetchCalls w;
     watcherCount := watcherCount w; effects := effects w |}.

Definition set_errors (es : list ManagedIndexerError) (w : World) : World :=
  {| configTokenAtom := configTokenAtom w;
     configOrganizationIdAtom := configOrganizationIdAtom w;
     configTesterWarningsDisabledUntilAtom := configTesterWarningsDisabledUntilAtom w;
     workspaceFoldersAtom := workspaceFoldersAtom w;
     manifestCacheAtom := manifestCacheAtom w;
     fileUpsertQueueAtom := fileUpsertQueueAtom w;
     errorsAtom := es; isActiveAtom := isActiveAtom w;
     disposables := disposables w; fileUpsertInterval := fileUpsertInterval w;
     clockReads := clockReads w; fetchCalls := fetchCalls w;
     watcherCount := watcherCount w; effects := effects w |}.

Definition set_isActive (b : bool) (w : World) : World :=
  {| configTokenAtom := configTokenAtom w;
     configOrganizationIdAtom := configOrganizationIdAtom w;
     configTesterWarningsDisabledUntilAtom := configTesterWarningsDisabledUntilAtom w;
     workspaceFoldersAtom := workspaceFoldersAtom w;
     manifestCacheAtom := manifestCacheAtom w;
     fileUpsertQueueAtom := fileUpsertQueueAtom w;
     errorsAtom := errorsAtom w; isActiveAtom := b;
     disposables := disposables w; fileUpsertInterval := fileUpsertInterval w;
     clockReads := clockReads w; fetchCalls := fetchCalls w;
     watcherCount := watcherCount w; effects := effects w |}.

Definition set_disposables (ds : list (option Disposable)) (w : World) : World :=
  {| configTokenAtom := configTokenAtom w;
     configOrganizationIdAtom := configOrganizationIdAtom w;
     configTesterWarningsDisabledUntilAtom := configTesterWarningsDisabledUntilAtom w;
     workspaceFoldersAtom := workspaceFoldersAtom w;
     manifestCacheAtom := manifestCacheAtom w;
     fileUpsertQueueAtom := fileUpsertQueueAtom w;
     errorsAtom := errorsAtom w; isActiveAtom := isActiveAtom w;
     disposables := ds; fileUpsertInterval := fileUpsertInterval w;
     clockReads := clockReads w; fetchCalls := fetchCalls w;
     watcherCount := watcherCount w; effects := effects w |}.

Definition set_fileUpsertInterval (t : option Timer) (w : World) : World :=
  {| configTokenAtom := configTokenAtom w;
     configOrganizationIdAtom := configOrganizationIdAtom w;
     configTesterWarningsDisabledUntilAtom := configTesterWarningsDisabledUntilAtom w;
     workspaceFoldersAtom := workspaceFoldersAtom w;
     manifestCacheAtom := manifestCacheAtom w;
     fileUpsertQueueAtom := fileUpsertQueueAtom w;
     errorsAtom := errorsAtom w; isActiveAtom := isActiveAtom w;
     disposables := disposables w; fileUpsertInterval := t;
     clockReads := clockReads w; fetchCalls := fetchCalls w;
     watcherCount := watcherCount w; effects := effects w |}.

Definition set_clockReads (n : nat) (w : World) : World :=
  {| configTokenAtom := configTokenAtom w;
     configOrganizationIdAtom := configOrganizationIdAtom w;
     configTesterWarningsDisabledUntilAtom := configTesterWarningsDisabledUntilAtom w;
     workspaceFoldersAtom := workspaceFoldersAtom w;
     manifestCacheAtom := manifestCacheAtom w;
     fileUpsertQueueAtom := fileUpsertQueueAtom w;
     errorsAtom := errorsAtom w; isActiveAtom := isActiveAtom w;
     disposables := disposables w; fileUpsertInterval := fileUpsertInterval w;
     clockReads := n; fetchCalls := fetchCalls w;
     watcherCount := watcherCount w; effects := effects w |}.

Definition set_fetchCalls (l : list ManifestFetchParams) (w : World) : World :=
  {| configTokenAtom := configTokenAtom w;
     configOrganizationIdAtom := configOrganizationIdAtom w;
     configTesterWarningsDisabledUntilAtom := configTesterWarningsDisabledUntilAtom w;
     workspaceFoldersAtom := workspaceFoldersAtom w;
     manifestCacheAtom := manifestCacheAtom w;
     fileUpsertQueueAtom := fileUpsertQueueAtom w;
     errorsAtom := errorsAtom w; isActiveAtom := isActiveAtom w;
     disposables := disposables w; fileUpsertInterval := fileUpsertInterval w;
     clockReads := clockReads w; fetchCalls := l;
     watcherCount := watcherCount w; effects := effects w |}.

Definition set_watcherCount (n : nat) (w : World) : World :=
  {| configTokenAtom := configTokenAtom w;
     configOrganizationIdAtom := configOrganizationIdAtom w;
     configTesterWarningsDisabledUntilAtom := configTesterWarningsDisabledUntilAtom w;
     workspaceFoldersAtom := workspaceFoldersAtom w;
     manifestCacheAtom := manifestCacheAtom w;
     fileUpsertQueueAtom := fileUpsertQueueAtom w;
     errorsAtom := errorsAtom w; isActiveAtom := isActiveAtom w;
     disposables := disposables w; fileUpsertInterval := fileUpsertInterval w;
     clockReads := clockReads w; fetchCalls := fetchCalls w;
     watcherCount := n; effects := effects w |}.

Definition set_effects (l : list Effect) (w : World) : World :=
  {| configTokenAtom := configTokenAtom w;
     configOrganizationIdAtom := configOrganizationIdAtom w;
     configTesterWarningsDisabledUntilAtom := configTesterWarningsDisabledUntilAtom w;
     workspaceFoldersAtom := workspaceFoldersAtom w;
     manifestCacheAtom := manifestCacheAtom w;
     fileUpsertQueueAtom := fileUpsertQueueAtom w;
     errorsAtom := errorsAtom w; isActiveAtom := isActiveAtom w;
     disposables := disposables w; fileUpsertInterval := fileUpsertInterval w;
     clockReads := clockReads w; fetchCalls := fetchCalls w;
     watcherCount := watcherCount w; effects := l |}.

(** [new ManagedIndexer(...)] before [setupSubscriptions]: every atom at its
    initial value. *)
Definition initialWorld : World :=
  {| configTokenAtom := None; configOrganizationIdAtom := None;
     configTesterWarningsDisabledUntilAtom := None;
     workspaceFoldersAtom := JsMap.empty;
     manifestCacheAtom := ∅;
     fileUpsertQueueAtom := []; errorsAtom := []; isActiveAtom := false;
     disposables := []; fileUpsertInterval := None;
     clockReads := 0%nat; fetchCalls := []; watcherCount := 0%nat; effects := [] |}.

(** ** Stateful, throwing computations *)

Definition M (A : Type) : Type := World -> Completion A * World.

Definition ret {A : Type} (a : A) : M A := fun w => (Normal a, w).

Definition throw {A : Type} (e : Thrown) : M A := fun w => (Throw e, w).

Definition bind {A B : Type} (m : M A) (k : A -> M B) : M B :=
  fun w =>
    match m w with
    | (Normal a, w') => k a w'
    | (Throw e, w') => (Throw e, w')
    end.

(** [try { body } catch (error) { handler }] *)
Definition tryCatch {A : Type} (body : M A) (handler : Thrown -> M A) : M A :=
  fun w =>
    match body w with
    | (Normal a, w') => (Normal a, w')
    | (Throw e, w') => handler e w'
    end.

(** Awaiting an external call whose outcome the environment fixes. *)
Definition await {A : Type} (c : Completion A) : M A := fun w => (c, w).

Definition gets {A : Type} (f : World -> A) : M A := fun w => (Normal (f w), w).

Definition modify (f : World -> World) : M unit := fun w => (Normal tt, f w).

Declare Scope js_scope.
Delimit Scope js_scope with js.
Notation "x <- m ;; k" := (bind m (fun x => k))
  (at level 100, m at next level, right associativity) : js_scope.
Notation "m ;;; k" := (bind m (fun _ => k))
  (at level 100, right associativity) : js_scope.
Open Scope js_scope.

Definition emit (e : Effect) : M unit :=
  modify (fun w => set_effects (effects w ++ [e]) w).

(** [for (const x of xs) { await f(x) }] and [xs.forEach(f)] *)
Fixpoint forEach {A : Type} (f : A -> M unit) (xs : list A) : M unit :=
  match xs with
  | [] => ret tt
  | x :: rest => f x ;;; forEach f rest
  end.

(** [await Promise.all(xs.map(f))], the calls taken in order. *)
Fixpoint mapM {A B : Type} (f : A -> M B) (xs : list A) : M (list B) :=
  match xs with
  | [] => ret []
  | x :: rest => y <- f x ;; ys <- mapM f rest ;; ret (y :: ys)
  end.

(** ** What the collaborators answer

    The engine's section 6 collaborators, and the platform functions and the
    table the sources import from files that are not part of this
    development ([path.extname], [String.prototype.toLowerCase],
    [scannerExtensions] of [shared/supported-extensions]). *)
Record Env : Type := {
  (* platform *)
  extname : string -> string;
  toLowerCase : string -> string;
  scannerExtensions : list string;
  clock : nat -> Z;                        (* the n-th reading of Date.now() *)
  (* api-client: how the promise of a getServerManifest call settles *)
  settle : Promise -> Completion ServerManifest;
  (* git-utils, utils/git, utils/kilo-config-file *)
  isGitRepository : string -> Completion bool;
  getGitRepositoryInfo : string -> Completion (option string);
  getCurrentBranch : string -> Completion string;
  getKilocodeConfig : string -> option string -> Completion (option string);
  (* ContextProxy *)
  kilocodeToken : option string;
  kilocodeOrganizationId : option string;
  kilocodeTesterWarningsDisabledUntil : option Z;
  onManagedIndexerConfigChange : option Disposable;
  (* vscode.workspace *)
  workspaceFolders : option (list WorkspaceFolder);
  onDidChangeWorkspaceFolders : option Disposable;
  (* OrganizationService: fetchOrganization followed by isCodeIndexingEnabled *)
  codeIndexingEnabled : option (string * string * option Z) -> Completion bool;
  (* GitWatcher objects *)
  gitWatcherThrows : string -> bool;
  watcherScan : GitWatcher -> Completion unit;
  watcherStart : GitWatcher -> Completion unit;
  watcherDispose : GitWatcher -> Completion unit;
  subscriptionDispose : Disposable -> Completion unit;
  (* timers *)
  setInterval : Timer
}.

(** The value of a [string | null] after a truthiness guard. *)
Definition str (s : option string) : string := default "" s.

(** [manifest.files.some((f) => f.filePath === filePath && f.fileHash === fileHash)] *)
Definition isFileIndexed (manifest : ServerManifest) (filePath fileHash : string) : bool :=
  existsb (fun f => String.eqb (mf_filePath f) filePath && String.eqb (mf_fileHash f) fileHash)
          (files manifest).

(** The default of [getCachedManifest]'s [maxAgeMs] parameter. *)
Definition defaultMaxAgeMs : Z := 5 * 60 * 1000.

(** What a call of [getOrFetchManifest] has in hand when it first returns
    control to the scheduler. *)
Inductive FetchHandle : Type :=
  | Cached (m : ServerManifest)   (* [return cached]                *)
  | Joined (p : Promise)          (* [return existing.fetchPromise] *)
  | Issued (p : Promise).         (* suspended at [await promise]   *)

Definition configAtom (w : World) : ConfigState :=
  {| token := configTokenAtom w;
     organizationId := configOrganizationIdAtom w;
     testerWarningsDisabledUntil := configTesterWarningsDisabledUntilAtom w |}.

(** [{ ...existing, ...updates }] *)
Definition applyUpdates (existing : WorkspaceFolderState) (updates : FolderUpdates)
  : WorkspaceFolderState :=
  {| folder := folder existing;
     gitBranch := default (gitBranch existing) (u_gitBranch updates);
     projectId := default (projectId existing) (u_projectId updates);
     repositoryUrl := repositoryUrl existing;
     isIndexing := default (isIndexing existing) (u_isIndexing updates);
     watcher := watcher existing;
     lastError := default (lastError existing) (u_lastError updates) |}.

(** operations/workspace.ts, [updateWorkspaceFolder] *)
Definition updateWorkspaceFolder (folders : JsMap.t WorkspaceFolderState)
    (folderId : string) (updates : FolderUpdates) : JsMap.t WorkspaceFolderState :=
  match JsMap.get folderId folders with
  | Some existing => JsMap.set folderId (applyUpdates existing updates) folders
  | None => folders
  end.

(** operations/workspace.ts, [findWorkspaceFolderByWatcher]: the first state,
    in iteration order, with [state.watcher === watcher]. *)
Definition findWorkspaceFolderByWatcher (folders : JsMap.t WorkspaceFolderState)
    (w : option GitWatcher) : option WorkspaceFolderState :=
  List.find (fun state => bool_decide (watcher state = w)) (JsMap.values folders).

(** state/atoms.ts, the write-only helper atoms *)
Definition updateWorkspaceFolderAtom (path : string) (updates : FolderUpdates) : M unit :=
  folders <- gets workspaceFoldersAtom ;;
  match JsMap.get path folders with
  | Some existing =>
      modify (set_workspaceFolders (JsMap.set path (applyUpdates existing updates) folders))
  | None => ret tt
  end.

Definition addErrorAtom (error : ManagedIndexerError) : M unit :=
  errors <- gets errorsAtom ;;
  modify (set_errors (errors ++ [error])).

Definition clearErrorsAtom : M unit := modify (set_errors []).

Definition enqueueFileUpsertAtom (task : FileUpsertTask) : M unit :=
  queue <- gets fileUpsertQueueAtom ;;
  modify (set_fileUpsertQueue (queue ++ [task])).

Definition dequeueFileUpsertAtom : M (option FileUpsertTask) :=
  queue <- gets fileUpsertQueueAtom ;;
  match queue with
  | [] => ret None
  | task :: remaining => modify (set_fileUpsertQueue remaining) ;;; ret (Some task)
  end.

(** operations/file-upsert.ts, [createFileUpsertTask] *)
Definition createFileUpsertTask (filePath fileHash branch : string) (isBaseBranch : bool)
    (projectId workspacePath : string) : FileUpsertTask :=
  {| t_filePath := filePath; t_fileHash := fileHash; t_branch := branch;
     t_isBaseBranch := isBaseBranch; t_projectId := projectId;
     t_workspacePath := workspacePath |}.

(** The key [`${params.projectId}:${params.branch}`] of a request. *)
Definition cacheKey (params : ManifestFetchParams) : string :=
  p_projectId params ++ ":" ++ p_branch params.

Section Engine.

Context (env : Env).

(** [Date.now()], also [new Date()]: one more reading of the clock. *)
Definition dateNow : M Z :=
  fun w => (Normal (clock env (clockReads w)), set_clockReads (S (clockReads w)) w).

(** operations/error.ts, [createError] *)
Definition createError (ty : ErrorType) (error : Thrown) (ctx : option ErrorContext)
  : M ManagedIndexerError :=
  now <- dateNow ;;
  ret {| type := ty;
         message := match error with JsError msg _ => msg | JsValue text => text end;
         timestamp := now;
         context := ctx;
         details := match error with JsError _ stack => stack | JsValue _ => None end |}.

(** operations/file-upsert.ts, [shouldProcessFile] *)
Definition shouldProcessFile (filePath : string) : bool :=
  let ext := toLowerCase env (extname env filePath) in
  existsb (String.eqb ext) (scannerExtensions env).

(** *** operations/manifest.ts *)

(** [fetchManifest]: the call to [getServerManifest] is made at once and
    its promise returned. *)
Definition fetchManifest (params : ManifestFetchParams) : M Promise :=
  fun w => (Normal {| rank := length (fetchCalls w); request := params |},
            set_fetchCalls (fetchCalls w ++ [params]) w).

Definition awaitPromise (p : Promise) : M ServerManifest := await (settle env p).

Definition getCachedManifest (cache : gmap string ManifestCacheEntry) (key : string)
    (maxAgeMs : Z) : M (option ServerManifest) :=
  match cache !! key with
  | None => ret None
  | Some entry =>
      match manifest entry with
      | None => ret None
      | Some m =>
          now <- dateNow ;;
          let isExpired := now - fetchedAt entry >? maxAgeMs in
          ret (if isExpired then None else Some m)
      end
  end.

(** [getOrFetchManifest] up to its first return or [await]. *)
Definition getOrFetchManifest_begin (params : ManifestFetchParams) : M FetchHandle :=
  cache <- gets manifestCacheAtom ;;
  let key := p_projectId params ++ ":" ++ p_branch params in
  let existing := cache !! key in
  match existing ≫= fetchPromise with
  | Some p => ret (Joined p)
  | None =>
      cached <- getCachedManifest cache key defaultMaxAgeMs ;;
      match cached with
      | Some m => ret (Cached m)
      | None =>
          promise <- fetchManifest params ;;
          now <- dateNow ;;
          let newCache :=
            <[key := {| manifest := None; fetchedAt := now; fetchPromise := Some promise |}]>
              cache in
          modify (set_manifestCache newCache) ;;;
          ret (Issued promise)
      end
  end.

(** [getOrFetchManifest] from [await promise] on: the [try] block and its
    [catch].  Whatever ran in between is seen through the cache read
    again from the store. *)
Definition getOrFetchManifest_resume (key : string) (promise : Promise) : M ServerManifest :=
  tryCatch
    (m <- awaitPromise promise ;;
     current <- gets manifestCacheAtom ;;
     now <- dateNow ;;
     let finalCache :=
       <[key := {| manifest := Some m; fetchedAt := now; fetchPromise := None |}]> current in
     modify (set_manifestCache finalCache) ;;;
     ret m)
    (fun error =>
       current <- gets manifestCacheAtom ;;
       modify (set_manifestCache (delete key current)) ;;;
       throw error).

(** [getOrFetchManifest] run to completion, nothing else scheduled while it
    is suspended. *)
Definition getOrFetchManifest (params : ManifestFetchParams) : M ServerManifest :=
  h <- getOrFetchManifest_begin params ;;
  match h with
  | Cached m => ret m
  | Joined p => awaitPromise p
  | Issued p => getOrFetchManifest_resume (p_projectId params ++ ":" ++ p_branch params) p
  end.

(** [getOrFetchManifest] from its first return or [await] on, for a caller
    that holds [h]: the second half of the function above, run on its own
    when the caller is resumed.  What it returns or throws is what the
    caller's promise settles to. *)
Definition getOrFetchManifest_finish (params : ManifestFetchParams) (h : FetchHandle)
  : M ServerManifest :=
  match h with
  | Cached m => ret m
  | Joined p => awaitPromise p
  | Issued p => getOrFetchManifest_resume (p_projectId params ++ ":" ++ p_branch params) p
  end.

(** *** operations/workspace.ts *)

(** [fetchGitInfo].  The two inspections run under [Promise.all]; when both
    fail, the error kept here is the repository one. *)
Definition fetchGitInfo (cwd : string) : M GitInfo :=
  url <- await (getGitRepositoryInfo env cwd) ;;
  branch <- await (getCurrentBranch env cwd) ;;
  ret {| gi_repositoryUrl := str (orElse url (Some "")); gi_branch := branch |}.

Definition initializeWorkspaceFolder (folder : WorkspaceFolder) (config : ConfigState)
  : M (option WorkspaceFolderState) :=
  let cwd := fsPath folder in
  tryCatch
    (isGit <- await (isGitRepository env cwd) ;;
     if negb isGit then ret None
     else
       gitInfo <- fetchGitInfo cwd ;;
       projectConfig <- await (getKilocodeConfig env cwd (Some (gi_repositoryUrl gitInfo))) ;;
       if negb (truthy projectConfig) then ret None
       else
         ret (Some {| folder := folder;
                      gitBranch := Some (gi_branch gitInfo);
                      projectId := projectConfig;
                      repositoryUrl := Some (gi_repositoryUrl gitInfo);
                      isIndexing := false;
                      watcher := None;
                      lastError := None |}))
    (fun error =>
       err <- createError setup error
                (Some {| ctx_filePath := None; ctx_branch := None;
                         ctx_operation := Some "initialize-workspace" |}) ;;
       ret (Some {| folder := folder;
                    gitBranch := None;
                    projectId := None;
                    repositoryUrl := None;
                    isIndexing := false;
                    watcher := None;
                    lastError := Some err |})).

(** [createWatcher]: [null] when building the watcher or subscribing to
    it throws. *)
Definition createWatcher (state : WorkspaceFolderState) : M (option GitWatcher) :=
  let cwd := fsPath (folder state) in
  if gitWatcherThrows env cwd then ret None
  else
    id <- gets watcherCount ;;
    modify (set_watcherCount (S id)) ;;;
    emit (WatcherCreated id cwd) ;;;
    ret (Some id).

Definition disposeAllWatchers (folders : JsMap.t WorkspaceFolderState) : M unit :=
  forEach
    (fun state =>
       match watcher state with
       | Some w => emit (WatcherDisposed w) ;;; await (watcherDispose env w)
       | None => ret tt
       end)
    (JsMap.values folders).

Definition updateWorkspaceFolderBranch (state : WorkspaceFolderState) (newBranch : string)
  : M FolderUpdates :=
  tryCatch
    (config <- await (getKilocodeConfig env (fsPath (folder state))
                        (if truthy (repositoryUrl state) then repositoryUrl state else None)) ;;
     let projectId := orElse config (projectId state) in
     ret {| u_gitBranch := Some (Some newBranch);
            u_projectId := Some projectId;
            u_isIndexing := None;
            u_lastError := Some None |})
    (fun error =>
       err <- createError config_error error
                (Some {| ctx_filePath := None; ctx_branch := Some newBranch;
                         ctx_operation := Some "update-branch" |}) ;;
       ret {| u_gitBranch := Some (Some newBranch);
              u_projectId := None;
              u_isIndexing := None;
              u_lastError := Some (Some err) |}).

(** *** operations/git-events.ts *)

Definition handleScanStart (folder0 : WorkspaceFolderState) (event : GitWatcherEvent) : M unit :=
  updateWorkspaceFolderAtom (fsPath (folder folder0))
    {| u_gitBranch := None; u_projectId := None;
       u_isIndexing := Some true; u_lastError := Some None |}.

Definition handleScanEnd (folder0 : WorkspaceFolderState) (event : GitWatcherEvent) : M unit :=
  updateWorkspaceFolderAtom (fsPath (folder folder0))
    {| u_gitBranch := None; u_projectId := None;
       u_isIndexing := Some false; u_lastError := None |}.

Definition handleFileChanged (folder0 : WorkspaceFolderState) (event : GitWatcherEvent)
    (filePath fileHash : string) : M unit :=
  if negb (shouldProcessFile filePath) then ret tt
  else
    config <- gets configAtom ;;
    if negb (truthy (token config)) || negb (truthy (organizationId config))
       || negb (truthy (projectId folder0))
    then ret tt
    else
      tryCatch
        (m <- getOrFetchManifest
                {| p_organizationId := str (organizationId config);
                   p_projectId := str (projectId folder0);
                   p_branch := ev_branch event;
                   p_token := str (token config) |} ;;
         if isFileIndexed m filePath fileHash then ret tt
         else
           let task :=
             createFileUpsertTask filePath fileHash (ev_branch event) (ev_isBaseBranch event)
               (str (projectId folder0)) (fsPath (folder folder0)) in
           enqueueFileUpsertAtom task)
        (fun error =>
           errorObj <- createError file_upsert error
                         (Some {| ctx_filePath := Some filePath;
                                  ctx_branch := Some (ev_branch event);
                                  ctx_operation := Some "queue-file-upsert" |}) ;;
           addErrorAtom errorObj).

Definition handleFileDeleted (folder0 : WorkspaceFolderState) (event : GitWatcherEvent)
    (filePath : string) : M unit :=
  ret tt.

(** The [try] block of [handleBranchChanged]. *)
Definition handleBranchChanged_try (folder0 : WorkspaceFolderState) (newBranch : string)
  : M unit :=
  updates <- updateWorkspaceFolderBranch folder0 newBranch ;;
  updateWorkspaceFolderAtom (fsPath (folder folder0)) updates ;;;
  config <- gets configAtom ;;
  if truthy (token config) && truthy (organizationId config) && truthy (projectId folder0)
  then
    getOrFetchManifest
      {| p_organizationId := str (organizationId config);
         p_projectId := str (orElse (default None (u_projectId updates)) (projectId folder0));
         p_branch := newBranch;
         p_token := str (token config) |} ;;;
    ret tt
  else ret tt.

Definition handleBranchChanged (folder0 : WorkspaceFolderState) (event : GitWatcherEvent)
    (previousBranch newBranch : string) : M unit :=
  tryCatch
    (handleBranchChanged_try folder0 newBranch)
    (fun error =>
       errorObj <- createError manifest_error error
                     (Some {| ctx_filePath := None; ctx_branch := Some newBranch;
                              ctx_operation := Some "branch-change" |}) ;;
       updateWorkspaceFolderAtom (fsPath (folder folder0))
         {| u_gitBranch := None; u_projectId := None;
            u_isIndexing := None; u_lastError := Some (Some errorObj) |}).

Definition processGitEvent (event : GitWatcherEvent) : M unit :=
  folders <- gets workspaceFoldersAtom ;;
  match findWorkspaceFolderByWatcher folders (ev_watcher event) with
  | None => ret tt
  | Some folder0 =>
      if negb (truthy (projectId folder0)) || negb (truthy (gitBranch folder0)) then ret tt
      else
        match ev_type event with
        | scan_start => handleScanStart folder0 event
        | scan_end => handleScanEnd folder0 event
        | file_changed filePath fileHash => handleFileChanged folder0 event filePath fileHash
        | file_deleted filePath => handleFileDeleted folder0 event filePath
        | branch_changed previousBranch newBranch =>
            handleBranchChanged folder0 event previousBranch newBranch
        end
  end.

Definition shouldSkipEvent (folder0 : WorkspaceFolderState) (event : GitWatcherEvent) : bool :=
  if negb (truthy (projectId folder0)) || negb (truthy (gitBranch folder0)) then true
  else false.

(** *** operations/config.ts and the derived atoms *)

Definition loadConfiguration : M unit :=
  modify (set_config (kilocodeToken env) (kilocodeOrganizationId env)
            (kilocodeTesterWarningsDisabledUntil env)).

(** [isIndexingEnabledAtom] over [organizationAtom]: no organization is
    fetched when the token or the organization id is missing. *)
Definition isIndexingEnabledAtom : M bool :=
  config <- gets configAtom ;;
  if negb (truthy (token config)) || negb (truthy (organizationId config))
  then await (codeIndexingEnabled env None)
  else await (codeIndexingEnabled env
                (Some (str (token config), str (organizationId config),
                       testerWarningsDisabledUntil config))).

(** *** ManagedIndexerRefactored.ts *)

Definition setupSubscriptions : M unit :=
  modify (fun w => set_disposables (disposables w ++ [onManagedIndexerConfigChange env]) w) ;;;
  modify (fun w => set_disposables (disposables w ++ [onDidChangeWorkspaceFolders env]) w) ;;;
  modify (set_fileUpsertInterval (Some (setInterval env))).

(** The [try] block of [setupWorkspaceFolder].  [state.gitBranch!] is
    read as the text a template literal gives [null]; no state reaches
    this point with a project id and without a branch. *)
Definition setupWorkspaceFolder_try (state : WorkspaceFolderState) (config : ConfigState)
  : M (option WorkspaceFolderState) :=
  getOrFetchManifest
    {| p_organizationId := str (organizationId config);
       p_projectId := str (projectId state);
       p_branch := default "null" (gitBranch state);
       p_token := str (token config) |} ;;;
  w <- createWatcher state ;;
  match w with
  | None => throw (JsError "Failed to create watcher" (Some "Error: Failed to create watcher"))
  | Some id =>
      ret (Some {| folder := folder state; gitBranch := gitBranch state;
                   projectId := projectId state; repositoryUrl := repositoryUrl state;
                   isIndexing := isIndexing state; watcher := Some id;
                   lastError := lastError state |})
  end.

Definition setupWorkspaceFolder (state : WorkspaceFolderState)
  : M (option WorkspaceFolderState) :=
  config <- gets configAtom ;;
  if negb (truthy (token config)) || negb (truthy (organizationId config))
     || negb (truthy (projectId state))
  then ret None
  else
    tryCatch
      (setupWorkspaceFolder_try state config)
      (fun error =>
         errorObj <- createError manifest_error error
                       (Some {| ctx_filePath := None;
                                ctx_branch := orElse (gitBranch state) None;
                                ctx_operation := Some "setup-workspace" |}) ;;
         ret (Some {| folder := folder state; gitBranch := gitBranch state;
                      projectId := projectId state; repositoryUrl := repositoryUrl state;
                      isIndexing := isIndexing state; watcher := watcher state;
                      lastError := Some errorObj |})).

(** The loop of [start] that fills [folderMap]. *)
Fixpoint setupFolders (folders : list WorkspaceFolderState)
    (folderMap : JsMap.t WorkspaceFolderState) : M (JsMap.t WorkspaceFolderState) :=
  match folders with
  | [] => ret folderMap
  | folder0 :: rest =>
      state <- setupWorkspaceFolder folder0 ;;
      match state with
      | Some s => setupFolders rest (JsMap.set (fsPath (folder folder0)) s folderMap)
      | None => setupFolders rest folderMap
      end
  end.

(** [startWatchers].  The callbacks mapped under [Promise.all] each run
    to their first [await], so [scan] is called on every watcher before
    any of them goes on; they are then resumed, here in the order of the
    folders, as their scans settle.  The events a watcher emits while it
    scans come in through [onEvent] and are steps of their own. *)
Definition startWatchers : M unit :=
  folders <- gets workspaceFoldersAtom ;;
  forEach
    (fun state =>
       match watcher state with
       | Some w => emit (WatcherScan w)
       | None => ret tt
       end)
    (JsMap.values folders) ;;;
  forEach
    (fun state =>
       match watcher state with
       | Some w =>
           tryCatch
             (await (watcherScan env w) ;;;
              emit (WatcherStart w) ;;; await (watcherStart env w))
             (fun _ => ret tt)
       | None => ret tt
       end)
    (JsMap.values folders).

Definition start : M unit :=
  loadConfiguration ;;;
  match workspaceFolders env with
  | None | Some [] => ret tt
  | Some wfs =>
      isEnabled <- isIndexingEnabledAtom ;;
      if negb isEnabled then ret tt
      else
        config <- gets configAtom ;;
        if negb (truthy (token config)) || negb (truthy (organizationId config)) then ret tt
        else
          modify (set_isActive true) ;;;
          tryCatch
            (folders <- mapM (fun folder0 => initializeWorkspaceFolder folder0 config) wfs ;;
             folderMap <- setupFolders (omap id folders) JsMap.empty ;;
             modify (set_workspaceFolders folderMap) ;;;
             startWatchers)
            (fun error => modify (set_isActive false) ;;; throw error)
  end.

Definition handleGitEvent (event : GitWatcherEvent) : M unit :=
  active <- gets isActiveAtom ;;
  if negb active then ret tt
  else tryCatch (processGitEvent event) (fun _ => ret tt).

Definition onEvent (event : GitWatcherEvent) : M unit := handleGitEvent event.

Definition dispose : M unit :=
  interval <- gets fileUpsertInterval ;;
  match interval with
  | Some t => emit (IntervalCleared t) ;;; modify (set_fileUpsertInterval None)
  | None => ret tt
  end ;;;
  folders <- gets workspaceFoldersAtom ;;
  disposeAllWatchers folders ;;;
  modify (set_workspaceFolders JsMap.empty) ;;;
  modify (set_isActive false) ;;;
  modify (set_fileUpsertQueue []) ;;;
  clearErrorsAtom ;;;
  ds <- gets disposables ;;
  forEach
    (fun d =>
       match d with
       | Some d' => emit (SubscriptionDisposed d') ;;; await (subscriptionDispose env d')
       | None => ret tt
       end)
    ds ;;;
  modify (set_disposables []).

Definition restart : M unit := dispose ;;; start.

(** *** Callers of the manifest cache under cooperative scheduling

    Between two suspension points the store is touched by one task only.
    For the cache the tasks' steps are: a caller enters
    [getOrFetchManifest] and runs to its first return or [await], or a
    suspended caller is resumed because its promise has settled. *)
Inductive Action : Type :=
  | Enter (params : ManifestFetchParams)
  | Resume (key : string) (p : Promise).

(** Runs a schedule; hands back, for each caller that entered, what it
    holds. *)
Fixpoint run (schedule : list Action) (w : World)
  : list (ManifestFetchParams * FetchHandle) * World :=
  match schedule with
  | [] => ([], w)
  | Enter params :: rest =>
      match getOrFetchManifest_begin params w with
      | (Normal h, w') => let '(hs, w'') := run rest w' in ((params, h) :: hs, w'')
      | (Throw _, w') => run rest w'
      end
  | Resume key p :: rest => run rest (snd (getOrFetchManifest_resume key p w))
  end.

End Engine.

(** Every registered state sits under the path of its own folder, once. *)
Definition registry_wf (folders : JsMap.t WorkspaceFolderState) : Prop :=
  NoDup (JsMap.keys folders) /\
  Forall (fun kv => fst kv = fsPath (folder (snd kv))) folders.

(** A computation keeps an observation of the world: whatever it returns or
    throws, the observation reads the same afterwards. *)
Definition keeps {X A : Type} (obs : World -> X) (m : M A) : Prop :=
  forall w, obs (snd (m w)) = obs w.

(** A property of the world is an invariant of a computation: when it holds
    before, it holds afterwards, whether the computation returns or throws. *)
Definition invariant {A : Type} (P : World -> Prop) (m : M A) : Prop :=
  forall w, P w -> P (snd (m w)).

(** ** Sample collaborators and worlds, used to exercise the statements *)
Module Sample.

(** The text after the last dot of a path without directories; it agrees
    with [path.extname] on the paths used below. *)
Fixpoint afterLastDot (s : string) (acc : option string) : option string :=
  match s with
  | EmptyString => acc
  | String c rest =>
      if Ascii.eqb c "."%char then afterLastDot rest (Some (String c rest))
      else afterLastDot rest acc
  end.

Definition sampleExtname (s : string) : string := default "" (afterLastDot s None).

Definition emptyManifest : ServerManifest := {| files := [] |}.

Definition oneFile : ServerManifest :=
  {| files := [ {| mf_filePath := "a.ts"; mf_fileHash := "h1" |} ] |}.

Definition twoHashes : ServerManifest :=
  {| files := [ {| mf_filePath := "a.ts"; mf_fileHash := "h1" |};
                {| mf_filePath := "a.ts"; mf_fileHash := "h2" |} ] |}.

Definition folderA : WorkspaceFolder :=
  {| fsPath := "/test/workspace"; name := "test-workspace"; index := 0 |}.

Definition folderB : WorkspaceFolder :=
  {| fsPath := "/test/plain"; name := "plain"; index := 1 |}.

(** A host with two workspace folders: [folderA] is a repository with
    project [p1] on [main], [folderB] is not a repository.  The manifest
    API answers an empty manifest when [apiUp], and rejects otherwise. *)
Definition host (apiUp : bool) (now : Z) : Env :=
  {| extname := sampleExtname;
     toLowerCase := fun s => s;
     scannerExtensions := [".ts"; ".js"; ".py"];
     clock := fun n => now + Z.of_nat n;
     settle := fun _ => if apiUp then Normal emptyManifest
                        else Throw (JsError "API error" None);
     isGitRepository := fun cwd => Normal (String.eqb cwd "/test/workspace");
     getGitRepositoryInfo := fun _ => Normal (Some "https://github.com/test/repo");
     getCurrentBranch := fun _ => Normal "main";
     getKilocodeConfig := fun _ _ => Normal (Some "p1");
     kilocodeToken := Some "test-token";
     kilocodeOrganizationId := Some "test-org-id";
     kilocodeTesterWarningsDisabledUntil := None;
     onManagedIndexerConfigChange := Some 0%nat;
     workspaceFolders := Some [folderA; folderB];
     onDidChangeWorkspaceFolders := None;
     codeIndexingEnabled :=
     fun org => Normal (match org with Some _ => true | None => false end);
     gitWatcherThrows := fun _ => false;
     watcherScan := fun _ => Normal tt;
     watcherStart := fun _ => Normal tt;
     watcherDispose := fun _ => Normal tt;
     subscriptionDispose := fun _ => Normal tt;
     setInterval := 7%nat |}.

Definition paramsMain : ManifestFetchParams :=
  {| p_organizationId := "test-org-id"; p_projectId := "p1";
     p_branch := "main"; p_token := "test-token" |}.

Definition pendingMain : Promise := {| rank := 0; request := paramsMain |}.

(** A store whose cache holds, for [p1:main], a manifest fetched at
    [fetched]. *)
Definition cachedAt (fetched : Z) : World :=
  set_manifestCache
    {[ "p1:main" := {| manifest := Some oneFile; fetchedAt := fetched;
                       fetchPromise := None |} ]}
    initialWorld.

(** A store whose cache holds, for [p1:main], a fetch in flight. *)
Definition inFlight : World :=
  set_fetchCalls [paramsMain]
    (set_manifestCache
       {[ "p1:main" := {| manifest := None; fetchedAt := 0;
                          fetchPromise := Some pendingMain |} ]}
       initialWorld).

Definition stateA (w : option GitWatcher) (err : option ManagedIndexerError)
  : WorkspaceFolderState :=
  {| folder := folderA; gitBranch := Some "main"; projectId := Some "p1";
     repositoryUrl := Some "https://github.com/test/repo";
     isIndexing := false; watcher := w; lastError := err |}.

(** The store after a [start] that found [folderA] and built watcher 0. *)
Definition running : World :=
  set_isActive true
    (set_workspaceFolders [("/test/workspace", stateA (Some 0%nat) None)]
       (set_config (Some "test-token") (Some "test-org-id") None initialWorld)).

(** The same with the watcher missing, as after a failed manifest fetch. *)
Definition degraded : World :=
  set_isActive true
    (set_workspaceFolders
       [("/test/workspace",
         stateA None (Some {| type := manifest_error; message := "API error";
                              timestamp := 0; context := None; details := None |}))]
       (set_config (Some "test-token") (Some "test-org-id") None initialWorld)).

(** A store in which watcher 0 belongs to a folder without a project id. *)
Definition uninitialised : World :=
  set_isActive true
    (set_workspaceFolders
       [("/test/workspace",
         {| folder := folderA; gitBranch := Some "main"; projectId := None;
            repositoryUrl := None; isIndexing := false; watcher := Some 0%nat;
            lastError := None |})]
       (set_config (Some "test-token") (Some "test-org-id") None initialWorld)).

Definition event (ty : GitWatcherEventType) (branch : string) (w : option GitWatcher)
  : GitWatcherEvent :=
  {| ev_type := ty; ev_branch := branch; ev_isBaseBranch := true; ev_watcher := w |}.

End Sample.

(** * Further operations of the engine

    The rest of the cited files: cache maintenance, registry queries, the
    upload side of [operations/file-upsert.ts] with the queue worker of the
    orchestrator, the helpers of [operations/git-events.ts] and
    [operations/error.ts]. *)

(** ** operations/manifest.ts: maintenance of the cache *)

(** [clearManifestCache]: every key that starts with [`${projectId}:`] is
    deleted. *)
Definition clearManifestCache (cache : gmap string ManifestCacheEntry) (projectId : string)
  : gmap string ManifestCacheEntry :=
  filter (fun kv => String.prefix (projectId ++ ":") (fst kv) = false) cache.

Definition getManifestCacheKey (projectId branch : string) : string :=
  projectId ++ ":" ++ branch.

(** [invalidateManifestForBranch]; [newBranch] is not used by the body. *)
Definition invalidateManifestForBranch (cache : gmap string ManifestCacheEntry)
    (projectId oldBranch newBranch : string) : gmap string ManifestCacheEntry :=
  delete (getManifestCacheKey projectId oldBranch) cache.

(** The result of [getManifestCacheStats]; a [Date] is kept as its time value. *)
Record ManifestCacheStats : Type := {
  totalEntries : nat;
  fetchingCount : nat;
  cachedCount : nat;
  oldestEntry : option Z;
  newestEntry : option Z
}.

(** One turn of the loop of [getManifestCacheStats]. *)
Definition statsStep (acc : ManifestCacheStats) (entry : ManifestCacheEntry)
  : ManifestCacheStats :=
  {| totalEntries := totalEntries acc;
     fetchingCount :=
       match fetchPromise entry with
       | Some _ => S (fetchingCount acc)
       | None => fetchingCount acc
       end;
     cachedCount :=
       match fetchPromise entry, manifest entry with
       | None, Some _ => S (cachedCount acc)
       | _, _ => cachedCount acc
       end;
     oldestEntry :=
       match oldestEntry acc with
       | None => Some (fetchedAt entry)
       | Some oldest =>
           if fetchedAt entry <? oldest then Some (fetchedAt entry) else Some oldest
       end;
     newestEntry :=
       match newestEntry acc with
       | None => Some (fetchedAt entry)
       | Some newest =>
           if fetchedAt entry >? newest then Some (fetchedAt entry) else Some newest
       end |}.

(** The loop over [cache.values()], for the values in the order the map
    gives them, and [cache.size]. *)
Definition statsOfValues (values : list ManifestCacheEntry) : ManifestCacheStats :=
  fold_left statsStep values
    {| totalEntries := length values; fetchingCount := 0%nat; cachedCount := 0%nat;
       oldestEntry := None; newestEntry := None |}.

Definition getManifestCacheStats (cache : gmap string ManifestCacheEntry) : ManifestCacheStats :=
  statsOfValues (snd <$> map_to_list cache).

(** The default of [pruneManifestCache]'s [maxAgeMs] parameter. *)
Definition defaultPruneAgeMs : Z := 30 * 60 * 1000.

(** ** operations/workspace.ts: queries on the registry *)

Definition getActiveWorkspaceFolders (folders : JsMap.t WorkspaceFolderState)
  : list WorkspaceFolderState :=
  List.filter (fun f => negb (bool_decide (watcher f = None))) (JsMap.values folders).

Definition getIndexingWorkspaceFolders (folders : JsMap.t WorkspaceFolderState)
  : list WorkspaceFolderState :=
  List.filter (fun f => isIndexing f) (JsMap.values folders).

Definition hasWorkspaceFolderErrors (folders : JsMap.t WorkspaceFolderState) : bool :=
  existsb (fun f => negb (bool_decide (lastError f = None))) (JsMap.values folders).

Definition getWorkspaceFolderErrors (folders : JsMap.t WorkspaceFolderState)
  : list (string * ManagedIndexerError) :=
  omap (fun kv => match lastError (snd kv) with
                  | Some error => Some (fst kv, error)
                  | None => None
                  end) folders.

Definition clearWorkspaceFolderError (folders : JsMap.t WorkspaceFolderState)
    (folderId : string) : JsMap.t WorkspaceFolderState :=
  updateWorkspaceFolder folders folderId
    {| u_gitBranch := None; u_projectId := None; u_isIndexing := None;
       u_lastError := Some None |}.

(** [updateWorkspaceFolder] as exported, for any update object.  The
    engine's handlers pass the four keys of [FolderUpdates] only. *)
Module Partial.

(** [Partial<WorkspaceFolderState>] in full: each of the seven keys is
    absent ([None]) or present with a value of the field's type. *)
Record t : Type := {
  upd_folder : option WorkspaceFolder;
  upd_gitBranch : option (option string);
  upd_projectId : option (option string);
  upd_repositoryUrl : option (option string);
  upd_isIndexing : option bool;
  upd_watcher : option (option GitWatcher);
  upd_lastError : option (option ManagedIndexerError)
}.

(** [{ ...existing, ...updates }] *)
Definition spread (existing : WorkspaceFolderState) (updates : t) : WorkspaceFolderState :=
  {| folder := default (folder existing) (upd_folder updates);
     gitBranch := default (gitBranch existing) (upd_gitBranch updates);
     projectId := default (projectId existing) (upd_projectId updates);
     repositoryUrl := default (repositoryUrl existing) (upd_repositoryUrl updates);
     isIndexing := default (isIndexing existing) (upd_isIndexing updates);
     watcher := default (watcher existing) (upd_watcher updates);
     lastError := default (lastError existing) (upd_lastError updates) |}.

(** operations/workspace.ts, [updateWorkspaceFolder] *)
Definition updateWorkspaceFolder (folders : JsMap.t WorkspaceFolderState)
    (folderId : string) (updates : t) : JsMap.t WorkspaceFolderState :=
  match JsMap.get folderId folders with
  | Some existing => JsMap.set folderId (spread existing updates) folders
  | None => folders
  end.

(** The update objects of the handlers: the other three keys are absent. *)
Definition ofUpdates (u : FolderUpdates) : t :=
  {| upd_folder := None;
     upd_gitBranch := u_gitBranch u;
     upd_projectId := u_projectId u;
     upd_repositoryUrl := None;
     upd_isIndexing := u_isIndexing u;
     upd_watcher := None;
     upd_lastError := u_lastError u |}.

End Partial.

(** ** operations/config.ts *)

Definition isConfigValid (config : ConfigState) : bool :=
  truthy (token config) && truthy (organizationId config).

(** ** state/atoms.ts: derived atoms *)

Definition totalErrorCountAtom (w : World) : nat :=
  let folderErrors :=
    length (List.filter (fun f => negb (bool_decide (lastError f = None)))
              (JsMap.values (workspaceFoldersAtom w))) in
  (length (errorsAtom w) + folderErrors)%nat.

(** ** operations/error.ts *)

#[global] Instance ErrorType_eq_dec : EqDecision ErrorType.
Proof. solve_decision. Defined.

(** The string a value of the [type] union is. *)
Definition typeName (ty : ErrorType) : string :=
  match ty with
  | setup => "setup"
  | scan => "scan"
  | file_upsert => "file-upsert"
  | git => "git"
  | manifest_error => "manifest"
  | config_error => "config"
  end.

(** [groupErrorsByType]: the object [grouped], with its keys in creation
    order. *)
Definition groupErrorsByType (errors : list ManagedIndexerError)
  : JsMap.t (list ManagedIndexerError) :=
  fold_left
    (fun grouped error =>
       let key := typeName (type error) in
       JsMap.set key (default [] (JsMap.get key grouped) ++ [error])%list grouped)
    errors JsMap.empty.

(** [getMostRecentError]: a later error replaces the one held only when its
    date is strictly greater.  Timestamps are those [createError] writes. *)
Definition getMostRecentError (errors : list ManagedIndexerError) (ty : option ErrorType)
  : option ManagedIndexerError :=
  let filtered :=
    match ty with
    | Some t => List.filter (fun e => bool_decide (type e = t)) errors
    | None => errors
    end in
  match filtered with
  | [] => None
  | first :: rest =>
      Some (fold_left
              (fun latest current =>
                 if timestamp current >? timestamp latest then current else latest)
              rest first)
  end.

(** ** operations/file-upsert.ts: tasks *)

(** The key of [deduplicateFileUpsertTasks]. *)
Definition dedupKey (task : FileUpsertTask) : string :=
  t_projectId task ++ ":" ++ t_branch task ++ ":" ++ t_filePath task ++ ":" ++ t_fileHash task.

(** The loop of [deduplicateFileUpsertTasks], [seen] being the set so far. *)
Fixpoint deduplicateFrom (seen : gset string) (tasks : list FileUpsertTask)
  : list FileUpsertTask :=
  match tasks with
  | [] => []
  | task :: rest =>
      let key := dedupKey task in
      if decide (key ∈ seen) then deduplicateFrom seen rest
      else task :: deduplicateFrom ({[key]} ∪ seen) rest
  end.

Definition deduplicateFileUpsertTasks (tasks : list FileUpsertTask) : list FileUpsertTask :=
  deduplicateFrom ∅ tasks.

(** The key of [groupFileUpsertTasks]. *)
Definition groupKey (task : FileUpsertTask) : string :=
  t_projectId task ++ ":" ++ t_branch task.

Definition groupFileUpsertTasks (tasks : list FileUpsertTask)
  : JsMap.t (list FileUpsertTask) :=
  fold_left
    (fun grouped task =>
       let key := groupKey task in
       let group := default [] (JsMap.get key grouped) in
       JsMap.set key (group ++ [task])%list grouped)
    tasks JsMap.empty.

(** Truthiness of a [string]. *)
Definition nonEmpty (s : string) : bool :=
  match s with EmptyString => false | _ => true end.

(** Modelled from the spec: [GitWatcherFileChangedEvent] of
    [shared/GitWatcher.ts], which is not among the sources; the
    [file-changed] case of the events of section 6, with its [filePath] and
    [fileHash]. *)
Record GitWatcherFileChangedEvent : Type := {
  fc_filePath : string;
  fc_fileHash : string;
  fc_branch : string;
  fc_isBaseBranch : bool;
  fc_watcher : option GitWatcher
}.

(** The argument of the upload call of [api-client]. *)
Record UpsertFileParams : Type := {
  up_fileBuffer : list Byte.byte;
  up_fileHash : string;
  up_filePath : string;
  up_gitBranch : string;
  up_isBaseBranch : bool;
  up_organizationId : string;
  up_projectId : string;
  up_kilocodeToken : string
}.

(** What the upload side calls outside the process: [path], [fs] and the
    upload of [api-client]. *)
Record UploadEnv : Type := {
  pathIsAbsolute : string -> bool;
  pathJoin : string -> string -> string;
  pathRelative : string -> string -> string;
  readFile : string -> Completion (list Byte.byte);
  upsertFile : UpsertFileParams -> Completion unit
}.

(** The result of [batchProcessFileUpserts]. *)
Record BatchResult : Type := {
  successful : nat;
  failed : list (FileUpsertTask * Thrown)
}.

(** [error instanceof Error ? error : new Error(String(error))] *)
Definition asError (error : Thrown) : Thrown :=
  match error with
  | JsError msg stack => JsError msg stack
  | JsValue text => JsError text (Some ("Error: " ++ text))
  end.

(** The projection [getWorkspaceFolderStateSnapshot] gives of an error and of
    a folder. *)
Record ErrorSnapshot : Type := {
  es_type : ErrorType;
  es_message : string;
  es_timestamp : Z;
  es_context : option ErrorContext
}.

Record FolderSnapshot : Type := {
  workspaceFolderPath : string;
  workspaceFolderName : string;
  fs_gitBranch : option string;
  fs_projectId : option string;
  fs_isIndexing : bool;
  hasManifest : bool;
  manifestFileCount : nat;
  hasWatcher : bool;
  fs_error : option ErrorSnapshot
}.

Section MoreEngine.

Context (env : Env) (uenv : UploadEnv).

(** [Number.isSafeInteger] on an integer: sums and differences of such
    numbers that are again such numbers are exact in the code's double
    arithmetic. *)
Definition isSafeInteger (z : Z) : Prop := Z.abs z <= 2 ^ 53 - 1.

(** operations/manifest.ts, [pruneManifestCache]: entries still fetching or
    fetched after the cutoff are kept.  The cutoff is the code's as long
    as the clock reading, the horizon and their difference are safe
    integers; beyond, the code's difference is rounded and this one is
    not. *)
Definition pruneManifestCache (cache : gmap string ManifestCacheEntry) (maxAgeMs : Z)
  : M (gmap string ManifestCacheEntry) :=
  now <- dateNow env ;;
  let cutoff := now - maxAgeMs in
  ret (filter (fun kv => fetchPromise (snd kv) <> None \/ fetchedAt (snd kv) > cutoff) cache).

(** operations/error.ts, [clearOldErrors] *)
Definition clearOldErrors (errors : list ManagedIndexerError) (maxAgeMinutes : Z)
  : M (list ManagedIndexerError) :=
  now <- dateNow env ;;
  let cutoff := now - maxAgeMinutes * 60 * 1000 in
  ret (List.filter (fun error => timestamp error >? cutoff) errors).

(** operations/file-upsert.ts, [validateFileUpsertTask] *)
Definition validateFileUpsertTask (task : FileUpsertTask) : list string :=
  ((if nonEmpty (t_filePath task) then [] else ["Missing file path"]) ++
   (if nonEmpty (t_fileHash task) then [] else ["Missing file hash"]) ++
   (if nonEmpty (t_branch task) then [] else ["Missing branch"]) ++
   (if nonEmpty (t_projectId task) then [] else ["Missing project ID"]) ++
   (if nonEmpty (t_workspacePath task) then [] else ["Missing workspace path"]) ++
   (if shouldProcessFile env (t_filePath task) then []
    else [("Unsupported file extension: " ++ extname env (t_filePath task))%string]))%list.

(** operations/git-events.ts, [createBatchFromFileEvents] *)
Definition createBatchFromFileEvents (events : list GitWatcherFileChangedEvent)
    (projectId workspacePath : string) : list FileUpsertTask :=
  map (fun event =>
         createFileUpsertTask (fc_filePath event) (fc_fileHash event) (fc_branch event)
           (fc_isBaseBranch event) projectId workspacePath)
      (List.filter (fun event => shouldProcessFile env (fc_filePath event)) events).

(** operations/file-upsert.ts, [processFileUpsert].  What its [catch] throws
    is the plain object [createError] returns, not an [Error]: whoever
    catches it reads [String(error)], the text "[object Object]". *)
Definition processFileUpsert (task : FileUpsertTask) (config : ConfigState) : M unit :=
  if negb (truthy (token config)) || negb (truthy (organizationId config)) then ret tt
  else
    let absoluteFilePath :=
      if pathIsAbsolute uenv (t_filePath task) then t_filePath task
      else pathJoin uenv (t_workspacePath task) (t_filePath task) in
    let relativeFilePath := pathRelative uenv (t_workspacePath task) absoluteFilePath in
    tryCatch
      (fileBuffer <- await (readFile uenv absoluteFilePath) ;;
       let params :=
         {| up_fileBuffer := fileBuffer;
            up_fileHash := t_fileHash task;
            up_filePath := relativeFilePath;
            up_gitBranch := t_branch task;
            up_isBaseBranch := t_isBaseBranch task;
            up_organizationId := str (organizationId config);
            up_projectId := t_projectId task;
            up_kilocodeToken := str (token config) |} in
       await (upsertFile uenv params))
      (fun error =>
         createError env file_upsert error
           (Some {| ctx_filePath := Some relativeFilePath;
                    ctx_branch := Some (t_branch task);
                    ctx_operation := Some "upsert-file" |}) ;;;
         throw (JsValue "[object Object]")).

(** The loop of [batchProcessFileUpserts], [i] tasks done out of [total]. *)
Fixpoint batchProcessFrom (tasks : list FileUpsertTask) (config : ConfigState)
    (onProgress : option (nat -> nat -> M unit)) (i total : nat) (results : BatchResult)
  : M BatchResult :=
  match tasks with
  | [] => ret results
  | task :: rest =>
      results' <-
        tryCatch
          (processFileUpsert task config ;;;
           ret {| successful := S (successful results); failed := failed results |})
          (fun error =>
             ret {| successful := successful results;
                    failed := (failed results ++ [(task, asError error)])%list |}) ;;
      match onProgress with
      | Some callback => callback (S i) total
      | None => ret tt
      end ;;;
      batchProcessFrom rest config onProgress (S i) total results'
  end.

Definition batchProcessFileUpserts (tasks : list FileUpsertTask) (config : ConfigState)
    (onProgress : option (nat -> nat -> M unit)) : M BatchResult :=
  batchProcessFrom tasks config onProgress 0 (length tasks)
    {| successful := 0%nat; failed := [] |}.

(** ManagedIndexerRefactored.ts, [processFileUpsertQueue]: one tick of the
    interval, the admission through [pLimit] taken as granted at once. *)
Definition processFileUpsertQueue : M unit :=
  task <- dequeueFileUpsertAtom ;;
  match task with
  | None => ret tt
  | Some task =>
      config <- gets configAtom ;;
      if negb (truthy (token config)) || negb (truthy (organizationId config)) then ret tt
      else
        tryCatch
          (processFileUpsert task config)
          (fun error =>
             errorObj <- createError env file_upsert error
                           (Some {| ctx_filePath := Some (t_filePath task);
                                    ctx_branch := Some (t_branch task);
                                    ctx_operation := None |}) ;;
             errors <- gets errorsAtom ;;
             modify (set_errors (errors ++ [errorObj])))
  end.

End MoreEngine.

(** ManagedIndexerRefactored.ts, [getWorkspaceFolderStateSnapshot] *)
Definition getWorkspaceFolderStateSnapshot (w : World) : list FolderSnapshot :=
  map (fun state =>
         {| workspaceFolderPath := fsPath (folder state);
            workspaceFolderName := name (folder state);
            fs_gitBranch := gitBranch state;
            fs_projectId := projectId state;
            fs_isIndexing := isIndexing state;
            hasManifest := true;
            manifestFileCount := 0;
            hasWatcher := negb (bool_decide (watcher state = None));
            fs_error :=
              match lastError state with
              | Some error =>
                  Some {| es_type := type error; es_message := message error;
                          es_timestamp := timestamp error; es_context := context error |}
              | None => None
              end |})
      (JsMap.values (workspaceFoldersAtom w)).

(** ** Further samples *)
Module MoreSample.

Definition task (path hash : string) : FileUpsertTask :=
  createFileUpsertTask path hash "main" true "p1" "/test/workspace".

(** A host for the upload side: paths are kept as they are, every file
    reads as empty, the upload succeeds when [apiUp]. *)
Definition uploads (apiUp : bool) : UploadEnv :=
  {| pathIsAbsolute := fun _ => false;
     pathJoin := fun a b => a ++ "/" ++ b;
     pathRelative := fun _ b => b;
     readFile := fun _ => Normal [];
     upsertFile := fun _ => if apiUp then Normal tt else Throw (JsError "503" None) |}.

(** The running store with two tasks queued. *)
Definition queued : World :=
  set_fileUpsertQueue [task "a.ts" "h1"; task "b.ts" "h2"] Sample.running.

(** The running store with the manifest of [p1:main] cached at 1000. *)
Definition indexed : World :=
  set_manifestCache (manifestCacheAtom (Sample.cachedAt 1000)) Sample.running.

(** [Sample.host] with other answers of the repository check and of the
    watchers' [dispose]. *)
Definition hostWith (isGit : string -> Completion bool)
    (disposed : GitWatcher -> Completion unit) : Env :=
  let h := Sample.host true 0 in
  {| extname := extname h; toLowerCase := toLowerCase h;
     scannerExtensions := scannerExtensions h; clock := clock h; settle := settle h;
     isGitRepository := isGit;
     getGitRepositoryInfo := getGitRepositoryInfo h;
     getCurrentBranch := getCurrentBranch h;
     getKilocodeConfig := getKilocodeConfig h;
     kilocodeToken := kilocodeToken h;
     kilocodeOrganizationId := kilocodeOrganizationId h;
     kilocodeTesterWarningsDisabledUntil := kilocodeTesterWarningsDisabledUntil h;
     onManagedIndexerConfigChange := onManagedIndexerConfigChange h;
     workspaceFolders := workspaceFolders h;
     onDidChangeWorkspaceFolders := onDidChangeWorkspaceFolders h;
     codeIndexingEnabled := codeIndexingEnabled h;
     gitWatcherThrows := gitWatcherThrows h;
     watcherScan := watcherScan h; watcherStart := watcherStart h;
     watcherDispose := disposed;
     subscriptionDispose := subscriptionDispose h;
     setInterval := setInterval h |}.

(** A host on which the second folder cannot be inspected. *)
Definition unreadable : Env :=
  hostWith (fun cwd => if String.eqb cwd "/test/plain"
                       then Throw (JsError "EACCES" None)
                       else Normal true)
           (fun _ => Normal tt).

(** A host whose watchers throw on [dispose]. *)
Definition stuck : Env :=
  hostWith (isGitRepository (Sample.host true 0)) (fun _ => Throw (JsError "busy" None)).

Definition errorAt (ty : ErrorType) (t : Z) : ManagedIndexerError :=
  {| type := ty; message := "failed"; timestamp := t; context := None; details := None |}.

End MoreSample.

(** * Properties *)

(** ** Unfolding the monad *)

Ltac unfold_m :=
  unfold bind, ret, throw, gets, modify, tryCatch, await, emit in *.

Lemma bind_normal {A B : Type} (m : M A) (k : A -> M B) w a w' :
  m w = (Normal a, w') -> bind m k w = k a w'.
Proof. intros H. unfold bind. now rewrite H. Qed.

Lemma bind_throw {A B : Type} (m : M A) (k : A -> M B) w e w' :
  m w = (Throw e, w') -> bind m k w = (Throw e, w').
Proof. intros H. unfold bind. now rewrite H. Qed.

(** ** [isFileIndexed] *)

Lemma isFileIndexed_true_iff (m : ServerManifest) (path hash : string) :
  isFileIndexed m path hash = true <->
  exists f, f ∈ files m /\ mf_filePath f = path /\ mf_fileHash f = hash.
Proof.
  unfold isFileIndexed. rewrite existsb_exists. split.
  - intros (f & Hin & Heq). apply andb_true_iff in Heq as [Hp Hh].
    exists f. rewrite list_elem_of_In.
    apply String.eqb_eq in Hp. apply String.eqb_eq in Hh. auto.
  - intros (f & Hin & Hp & Hh). exists f. rewrite <- list_elem_of_In.
    split; [assumption|]. apply andb_true_iff.
    split; apply String.eqb_eq; assumption.
Qed.

(** C6, amended.  [isFileIndexed] answers true exactly when the manifest
    lists an entry with that very path and that very hash; and when every
    entry the manifest lists for the path carries the hash [hash], asking
    with any other hash answers false. *)
Theorem C6_isFileIndexed_exact_match (m : ServerManifest) (path hash : string) :
  (isFileIndexed m path hash = true <->
   exists f, f ∈ files m /\ mf_filePath f = path /\ mf_fileHash f = hash) /\
  ((forall f, f ∈ files m -> mf_filePath f = path -> mf_fileHash f = hash) ->
   forall hash', hash' <> hash -> isFileIndexed m path hash' = false).
Proof.
  split; [apply isFileIndexed_true_iff|].
  intros Honly hash' Hne.
  destruct (isFileIndexed m path hash') eqn:E; [|reflexivity].
  apply isFileIndexed_true_iff in E as (f & Hin & Hp & Hh).
  specialize (Honly f Hin Hp). congruence.
Qed.

Lemma C6_isFileIndexed_exact_match_witness :
  isFileIndexed Sample.oneFile "a.ts" "h1" = true /\
  isFileIndexed Sample.oneFile "a.ts" "h2" = false.
Proof.
  split; [reflexivity|].
  apply (proj2 (C6_isFileIndexed_exact_match Sample.oneFile "a.ts" "h1")).
  - intros f Hin _. apply list_elem_of_singleton in Hin. subst f. reflexivity.
  - discriminate.
Defined.

(** C6 as stated fails: a manifest may list a path twice, under two hashes,
    and then changing the hash argument from one to the other keeps the
    answer true. *)
Lemma C6_counterexample :
  ~ (forall (m : ServerManifest) (path hash hash' : string),
       isFileIndexed m path hash = true -> hash' <> hash ->
       isFileIndexed m path hash' = false).
Proof.
  intros H.
  specialize (H Sample.twoHashes "a.ts" "h1" "h2" eq_refl).
  assert (Hne : "h2" <> "h1") by discriminate.
  specialize (H Hne). vm_compute in H. discriminate.
Qed.

(** ** The manifest cache *)

Section ManifestCache.

Context (env : Env).

(** What a caller entering [getOrFetchManifest] does, by cases on the
    cache entry of its key. *)
Lemma begin_joined params w e p :
  manifestCacheAtom w !! cacheKey params = Some e ->
  fetchPromise e = Some p ->
  getOrFetchManifest_begin env params w = (Normal (Joined p), w).
Proof.
  intros He Hp. unfold getOrFetchManifest_begin, cacheKey in *. unfold_m.
  rewrite He. simpl. rewrite Hp. reflexivity.
Qed.

Lemma begin_fresh params w e m :
  manifestCacheAtom w !! cacheKey params = Some e ->
  manifest e = Some m ->
  fetchPromise e = None ->
  clock env (clockReads w) <= fetchedAt e + defaultMaxAgeMs ->
  getOrFetchManifest_begin env params w
  = (Normal (Cached m), set_clockReads (S (clockReads w)) w).
Proof.
  intros He Hm Hp Hage.
  unfold getOrFetchManifest_begin, getCachedManifest, dateNow, cacheKey in *. unfold_m.
  rewrite He. simpl. rewrite Hp, Hm.
  destruct (Z.gtb_spec (clock env (clockReads w) - fetchedAt e) defaultMaxAgeMs);
    [lia | reflexivity].
Qed.

Lemma begin_expired params w e m :
  manifestCacheAtom w !! cacheKey params = Some e ->
  manifest e = Some m ->
  fetchPromise e = None ->
  clock env (clockReads w) > fetchedAt e + defaultMaxAgeMs ->
  let p := {| rank := length (fetchCalls w); request := params |} in
  getOrFetchManifest_begin env params w
  = (Normal (Issued p),
     set_manifestCache
       (<[cacheKey params :=
            {| manifest := None; fetchedAt := clock env (S (clockReads w));
               fetchPromise := Some p |}]> (manifestCacheAtom w))
       (set_clockReads (S (S (clockReads w)))
          (set_fetchCalls (fetchCalls w ++ [params])
             (set_clockReads (S (clockReads w)) w)))).
Proof.
  intros He Hm Hp Hage.
  unfold getOrFetchManifest_begin, getCachedManifest, fetchManifest, dateNow, cacheKey in *.
  unfold_m. rewrite He. simpl. rewrite Hp, Hm.
  destruct (Z.gtb_spec (clock env (clockReads w) - fetchedAt e) defaultMaxAgeMs);
    [reflexivity | lia].
Qed.

(** A caller entering never throws; it leaves everything but the cache,
    the clock and the list of API calls alone, and touches the cache at
    its own key only, to publish the promise of the call it has made. *)
Lemma begin_cases params w :
  exists h w',
    getOrFetchManifest_begin env params w = (Normal h, w') /\
    workspaceFoldersAtom w' = workspaceFoldersAtom w /\
    configAtom w' = configAtom w /\
    fileUpsertQueueAtom w' = fileUpsertQueueAtom w /\
    errorsAtom w' = errorsAtom w /\
    isActiveAtom w' = isActiveAtom w /\
    watcherCount w' = watcherCount w /\
    effects w' = effects w /\
    ((exists p, h = Joined p /\ w' = w /\
                manifestCacheAtom w !! cacheKey params ≫= fetchPromise = Some p) \/
     (exists m, h = Cached m /\
                manifestCacheAtom w' = manifestCacheAtom w /\
                fetchCalls w' = fetchCalls w /\
                manifestCacheAtom w !! cacheKey params ≫= manifest = Some m) \/
     (exists p t, h = Issued p /\ request p = params /\
                  rank p = length (fetchCalls w) /\
                  fetchCalls w' = (fetchCalls w ++ [params])%list /\
                  manifestCacheAtom w !! cacheKey params ≫= fetchPromise = None /\
                  manifestCacheAtom w'
                  = <[cacheKey params :=
                        {| manifest := None; fetchedAt := t; fetchPromise := Some p |}]>
                      (manifestCacheAtom w))).
Proof.
  unfold getOrFetchManifest_begin, getCachedManifest, fetchManifest, dateNow, cacheKey.
  unfold_m.
  destruct (manifestCacheAtom w !! (p_projectId params ++ ":" ++ p_branch params))
    as [e|] eqn:He; simpl.
  - destruct (fetchPromise e) as [p|] eqn:Hp.
    + eexists _, _. split; [reflexivity|]. repeat split. left. eauto.
    + destruct (manifest e) as [m|] eqn:Hm; simpl.
      * destruct (_ >? _); simpl.
        -- eexists _, _. split; [reflexivity|]. repeat split.
           right; right. eexists _, _. repeat split.
        -- eexists _, _. split; [reflexivity|]. repeat split.
           right; left. eauto.
      * eexists _, _. split; [reflexivity|]. repeat split.
        right; right. eexists _, _. repeat split.
  - eexists _, _. split; [reflexivity|]. repeat split.
    right; right. eexists _, _. repeat split.
Qed.

(** Resuming a caller whose promise was rejected. *)
Lemma resume_rejected key p e w :
  settle env p = Throw e ->
  getOrFetchManifest_resume env key p w
  = (Throw e, set_manifestCache (delete key (manifestCacheAtom w)) w).
Proof.
  intros Hs. unfold getOrFetchManifest_resume, awaitPromise. unfold_m.
  rewrite Hs. reflexivity.
Qed.

(** Resuming a caller whose promise was fulfilled. *)
Lemma resume_fulfilled key p m w :
  settle env p = Normal m ->
  getOrFetchManifest_resume env key p w
  = (Normal m,
     set_manifestCache
       (<[key := {| manifest := Some m; fetchedAt := clock env (clockReads w);
                    fetchPromise := None |}]> (manifestCacheAtom w))
       (set_clockReads (S (clockReads w)) w)).
Proof.
  intros Hs. unfold getOrFetchManifest_resume, awaitPromise, dateNow. unfold_m.
  rewrite Hs. reflexivity.
Qed.

(** A resumed caller touches the cache at its own key only, and makes no
    API call. *)
Lemma resume_frame key p w :
  let w' := snd (getOrFetchManifest_resume env key p w) in
  fetchCalls w' = fetchCalls w /\
  workspaceFoldersAtom w' = workspaceFoldersAtom w /\
  configAtom w' = configAtom w /\
  fileUpsertQueueAtom w' = fileUpsertQueueAtom w /\
  errorsAtom w' = errorsAtom w /\
  isActiveAtom w' = isActiveAtom w /\
  watcherCount w' = watcherCount w /\
  effects w' = effects w /\
  forall k, k <> key -> manifestCacheAtom w' !! k = manifestCacheAtom w !! k.
Proof.
  destruct (settle env p) as [m|e] eqn:Hs.
  - rewrite (resume_fulfilled _ _ _ _ Hs). simpl. repeat split.
    intros k Hk. now rewrite lookup_insert_ne.
  - rewrite (resume_rejected _ _ _ _ Hs). simpl. repeat split.
    intros k Hk. now rewrite lookup_delete_ne.
Qed.

(** [getOrFetchManifest] is its first half followed by its second:
    [getOrFetchManifest_finish] is the code a caller runs once it is
    resumed. *)
Lemma getOrFetchManifest_halves params :
  getOrFetchManifest env params
  = (h <- getOrFetchManifest_begin env params ;; getOrFetchManifest_finish env params h).
Proof. reflexivity. Qed.

End ManifestCache.

Section CacheSchedules.

Context (env : Env).

(** While the entry of [k] holds the pending promise [p] and no caller
    waiting on [k] is resumed, whatever else is scheduled keeps that
    entry pending, joins to [p] every caller that enters for [k], and
    makes no API call for [k]. *)
Lemma run_in_flight (k : string) (p : Promise) (schedule : list Action) :
  forall w handles w',
    (exists e, manifestCacheAtom w !! k = Some e /\ fetchPromise e = Some p) ->
    (forall k' q, Resume k' q ∈ schedule -> k' <> k) ->
    run env schedule w = (handles, w') ->
    (exists e, manifestCacheAtom w' !! k = Some e /\ fetchPromise e = Some p) /\
    (forall params h, (params, h) ∈ handles -> cacheKey params = k -> h = Joined p) /\
    filter (fun q => cacheKey q = k) (fetchCalls w')
    = filter (fun q => cacheKey q = k) (fetchCalls w) /\
    handles.*1
    = omap (fun a => match a with Enter q => Some q | Resume _ _ => None end) schedule.
Proof.
  induction schedule as [|a rest IH]; intros w handles w' Hinv Hres Hrun; simpl in Hrun.
  - inversion Hrun; subst. repeat split; try assumption.
    intros params h Hin. inversion Hin.
  - assert (Hres' : forall k' q, Resume k' q ∈ rest -> k' <> k).
    { intros k' q Hin. apply (Hres k' q). now right. }
    destruct a as [params | k' q].
    + destruct (begin_cases env params w)
        as (h & w1 & Hb & _ & _ & _ & _ & _ & _ & _ & Hcase).
      rewrite Hb in Hrun.
      destruct (run env rest w1) as [hs w2] eqn:Hrest.
      inversion Hrun; subst handles w'; clear Hrun.
      destruct (decide (cacheKey params = k)) as [Hk | Hk].
      * destruct Hinv as (e & He & Hp).
        rewrite <- Hk in He.
        rewrite (begin_joined env params w e p He Hp) in Hb.
        inversion Hb; subst h w1; clear Hb.
        rewrite Hk in He.
        destruct (IH w hs w2 (ex_intro _ e (conj He Hp)) Hres' Hrest)
          as (Hinv' & Hjoin & Hcalls & Hfst).
        repeat split; try assumption.
        -- intros params' h' Hin Hk'. apply elem_of_cons in Hin as [Heq | Hin].
           ++ now inversion Heq.
           ++ eauto.
        -- rewrite fmap_cons. simpl. f_equal. exact Hfst.
      * assert (Hinv1 : exists e, manifestCacheAtom w1 !! k = Some e /\ fetchPromise e = Some p).
        { destruct Hcase as [(p' & _ & -> & _) | [(m & _ & -> & _) | (p' & t & _ & _ & _ & _ & _ & ->)]];
            try assumption.
          rewrite lookup_insert_ne by assumption. assumption. }
        assert (Hcalls1 : filter (fun q => cacheKey q = k) (fetchCalls w1)
                          = filter (fun q => cacheKey q = k) (fetchCalls w)).
        { destruct Hcase as [(p' & _ & -> & _) | [(m & _ & _ & -> & _) | (p' & t & _ & _ & _ & -> & _)]];
            try reflexivity.
          rewrite filter_app, filter_cons_False by assumption.
          rewrite filter_nil. apply app_nil_r. }
        destruct (IH w1 hs w2 Hinv1 Hres' Hrest) as (Hinv' & Hjoin & Hcalls & Hfst).
        repeat split; try assumption.
        -- intros params' h' Hin Hk'. apply elem_of_cons in Hin as [Heq | Hin].
           ++ inversion Heq; subst. contradiction.
           ++ eauto.
        -- congruence.
        -- rewrite fmap_cons. simpl. f_equal. exact Hfst.
    + assert (Hne : k' <> k) by (apply (Hres k' q); now left).
      destruct (resume_frame env k' q w) as (Hcalls1 & _ & _ & _ & _ & _ & _ & _ & Hcache1).
      assert (Hinv1 : exists e,
                 manifestCacheAtom (snd (getOrFetchManifest_resume env k' q w)) !! k = Some e
                 /\ fetchPromise e = Some p).
      { rewrite Hcache1 by congruence. assumption. }
      destruct (IH _ handles w' Hinv1 Hres' Hrun) as (Hinv' & Hjoin & Hcalls & Hfst).
      repeat split; try assumption.
      rewrite Hcalls. now rewrite Hcalls1.
Qed.

(** C1.  A caller whose key has a cache entry with a pending promise gets
    that promise and nothing else happens: no API call, no change to the
    store.  Hence, from the moment a caller has issued the fetch for a key
    until a caller waiting on that key is resumed, and whatever else is
    scheduled meanwhile, every caller entering for that key holds that one
    promise and the API has been called exactly once for the key.  Each of
    these callers, the issuing one included, gets from the rest of
    [getOrFetchManifest], in whatever state of the store it is resumed,
    the outcome of that one promise: the manifest it was fulfilled with,
    or the error it was rejected with. *)
Theorem C1_in_flight_fetch_is_joined :
  (forall w params e p,
      manifestCacheAtom w !! cacheKey params = Some e ->
      fetchPromise e = Some p ->
      getOrFetchManifest_begin env params w = (Normal (Joined p), w)) /\
  (forall w0 first p w schedule handles w',
      getOrFetchManifest_begin env first w0 = (Normal (Issued p), w) ->
      (forall k q, Resume k q ∈ schedule -> k <> cacheKey first) ->
      run env schedule w = (handles, w') ->
      handles.*1
      = omap (fun a => match a with Enter q => Some q | Resume _ _ => None end) schedule /\
      (forall params h, (params, h) ∈ handles ->
                        cacheKey params = cacheKey first -> h = Joined p) /\
      filter (fun q => cacheKey q = cacheKey first) (fetchCalls w')
      = (filter (fun q => cacheKey q = cacheKey first) (fetchCalls w0) ++ [first])%list /\
      (forall params h, (params, h) ∈ (first, Issued p) :: handles ->
                        cacheKey params = cacheKey first ->
                        forall resumedIn : World,
                          fst (getOrFetchManifest_finish env params h resumedIn)
                          = settle env p)).
Proof.
  split; [intros; eapply begin_joined; eassumption|].
  intros w0 first p w schedule handles w' Hb Hres Hrun.
  destruct (begin_cases env first w0)
    as (h & w1 & Hb' & _ & _ & _ & _ & _ & _ & _ & Hcase).
  rewrite Hb in Hb'. inversion Hb'; subst h w1; clear Hb'.
  destruct Hcase as [(p' & Hh & _) | [(m & Hh & _) | (p' & t & Hh & _ & _ & Hcalls0 & _ & Hcache)]];
    try discriminate Hh.
  inversion Hh; subst p'; clear Hh.
  assert (Hinv : exists e, manifestCacheAtom w !! cacheKey first = Some e
                           /\ fetchPromise e = Some p).
  { eexists. rewrite Hcache, lookup_insert_eq. split; reflexivity. }
  destruct (run_in_flight (cacheKey first) p schedule w handles w' Hinv Hres Hrun)
    as (_ & Hjoin & Hcalls & Hfst).
  repeat split; try assumption.
  - rewrite Hcalls, Hcalls0, filter_app, filter_cons_True by reflexivity.
    now rewrite filter_nil.
  - intros params h Hin Hk resumedIn. apply elem_of_cons in Hin as [Heq | Hin].
    + inversion Heq; subst params h. simpl.
      destruct (settle env p) as [m|e] eqn:Hs.
      * now rewrite (resume_fulfilled env _ p m resumedIn Hs).
      * now rewrite (resume_rejected env _ p e resumedIn Hs).
    + rewrite (Hjoin params h Hin Hk). reflexivity.
Qed.

End CacheSchedules.

Lemma C1_in_flight_fetch_is_joined_witness :
  getOrFetchManifest_begin (Sample.host true 0) Sample.paramsMain Sample.inFlight
  = (Normal (Joined Sample.pendingMain), Sample.inFlight) /\
  (let other := {| p_organizationId := "test-org-id"; p_projectId := "p1";
                   p_branch := "feature"; p_token := "test-token" |} in
   let schedule :=
     [Enter Sample.paramsMain; Enter other;
      Resume "p1:feature" {| rank := 1; request := other |};
      Enter Sample.paramsMain] in
   let w := snd (getOrFetchManifest_begin (Sample.host true 0) Sample.paramsMain initialWorld) in
   let w' := snd (run (Sample.host true 0) schedule w) in
   filter (fun q => cacheKey q = "p1:main") (fetchCalls w') = [Sample.paramsMain] /\
   fst (getOrFetchManifest_finish (Sample.host true 0) Sample.paramsMain
          (Issued Sample.pendingMain) w')
   = Normal Sample.emptyManifest /\
   fst (getOrFetchManifest_finish (Sample.host false 0) Sample.paramsMain
          (Issued Sample.pendingMain) w')
   = Throw (JsError "API error" None)).
Proof.
  split.
  - eapply (proj1 (C1_in_flight_fetch_is_joined (Sample.host true 0))).
    + vm_compute. reflexivity.
    + reflexivity.
  - intros other schedule w w'.
    assert (Hres : forall k q, Resume k q ∈ schedule -> k <> cacheKey Sample.paramsMain).
    { intros k q Hin.
      repeat (apply elem_of_cons in Hin as [Heq | Hin];
              [try discriminate Heq; inversion Heq; subst; discriminate |]).
      inversion Hin. }
    split; [|split].
    + destruct (proj2 (C1_in_flight_fetch_is_joined (Sample.host true 0))
                  initialWorld Sample.paramsMain Sample.pendingMain w schedule
                  (fst (run (Sample.host true 0) schedule w)) w')
        as (_ & _ & Hcalls & _).
      * vm_compute. reflexivity.
      * exact Hres.
      * apply surjective_pairing.
      * exact Hcalls.
    + destruct (proj2 (C1_in_flight_fetch_is_joined (Sample.host true 0))
                  initialWorld Sample.paramsMain Sample.pendingMain w schedule
                  (fst (run (Sample.host true 0) schedule w)) w')
        as (_ & _ & _ & Hsame).
      * vm_compute. reflexivity.
      * exact Hres.
      * apply surjective_pairing.
      * exact (Hsame Sample.paramsMain (Issued Sample.pendingMain)
                     (list_elem_of_here _ _) eq_refl w').
    + destruct (proj2 (C1_in_flight_fetch_is_joined (Sample.host false 0))
                  initialWorld Sample.paramsMain Sample.pendingMain w
                  [] [] w)
        as (_ & _ & _ & Hsame).
      * vm_compute. reflexivity.
      * intros k q Hin. inversion Hin.
      * reflexivity.
      * exact (Hsame Sample.paramsMain (Issued Sample.pendingMain)
                     (list_elem_of_here _ _) eq_refl w').
Defined.

(** C2, amended.  A request for a key whose entry holds a manifest fetched
    at [T] and no pending promise is answered from the cache, with no API
    call and the cache as it was, when the clock reads [T' <= T + TTL]
    (five minutes); when it reads [T' > T + TTL] a new API call is made and
    its promise published under the key. *)
Theorem C2_cached_manifest_until_ttl (env : Env) (w : World) (params : ManifestFetchParams)
    (e : ManifestCacheEntry) (m : ServerManifest) :
  manifestCacheAtom w !! cacheKey params = Some e ->
  manifest e = Some m ->
  fetchPromise e = None ->
  defaultMaxAgeMs = 300000 /\
  (clock env (clockReads w) <= fetchedAt e + defaultMaxAgeMs ->
   exists w',
     getOrFetchManifest env params w = (Normal m, w') /\
     fetchCalls w' = fetchCalls w /\
     manifestCacheAtom w' = manifestCacheAtom w) /\
  (clock env (clockReads w) > fetchedAt e + defaultMaxAgeMs ->
   exists p w',
     getOrFetchManifest_begin env params w = (Normal (Issued p), w') /\
     request p = params /\
     fetchCalls w' = (fetchCalls w ++ [params])%list /\
     manifestCacheAtom w' !! cacheKey params ≫= fetchPromise = Some p).
Proof.
  intros He Hm Hp. split; [reflexivity|]. split; intros Hage.
  - eexists. unfold getOrFetchManifest.
    rewrite (bind_normal _ _ _ _ _ (begin_fresh env params w e m He Hm Hp Hage)).
    split; [reflexivity|]. split; reflexivity.
  - pose proof (begin_expired env params w e m He Hm Hp Hage) as Hb. simpl in Hb.
    eexists _, _. split; [exact Hb|]. simpl.
    rewrite lookup_insert_eq. repeat split.
Qed.

Lemma C2_cached_manifest_until_ttl_witness :
  (exists w',
      getOrFetchManifest (Sample.host true 301000) Sample.paramsMain (Sample.cachedAt 1000)
      = (Normal Sample.oneFile, w') /\
      fetchCalls w' = [] /\
      manifestCacheAtom w' = manifestCacheAtom (Sample.cachedAt 1000)) /\
  (exists p w',
      getOrFetchManifest_begin (Sample.host true 301001) Sample.paramsMain (Sample.cachedAt 1000)
      = (Normal (Issued p), w') /\
      request p = Sample.paramsMain /\
      fetchCalls w' = [Sample.paramsMain] /\
      manifestCacheAtom w' !! "p1:main" ≫= fetchPromise = Some p).
Proof.
  split.
  - eapply (proj1 (proj2 (C2_cached_manifest_until_ttl (Sample.host true 301000)
                            (Sample.cachedAt 1000) Sample.paramsMain _ Sample.oneFile
                            eq_refl eq_refl eq_refl))).
    vm_compute. discriminate.
  - eapply (proj2 (proj2 (C2_cached_manifest_until_ttl (Sample.host true 301001)
                            (Sample.cachedAt 1000) Sample.paramsMain _ Sample.oneFile
                            eq_refl eq_refl eq_refl))).
    vm_compute. reflexivity.
Defined.

(** C2 as stated fails at [T' = T + TTL]: the entry is not yet expired
    there, and the request is answered from the cache. *)
Lemma C2_counterexample :
  ~ (forall (env : Env) (w : World) (params : ManifestFetchParams)
            (e : ManifestCacheEntry) (m : ServerManifest),
        manifestCacheAtom w !! cacheKey params = Some e ->
        manifest e = Some m ->
        fetchPromise e = None ->
        clock env (clockReads w) >= fetchedAt e + defaultMaxAgeMs ->
        exists p w', getOrFetchManifest_begin env params w = (Normal (Issued p), w')).
Proof.
  intros H.
  destruct (H (Sample.host true 301000) (Sample.cachedAt 1000) Sample.paramsMain
              _ Sample.oneFile eq_refl eq_refl eq_refl) as (p & w' & Hb).
  - vm_compute. discriminate.
  - rewrite (begin_fresh (Sample.host true 301000) Sample.paramsMain (Sample.cachedAt 1000)
               _ Sample.oneFile eq_refl eq_refl eq_refl) in Hb.
    + discriminate Hb.
    + vm_compute. discriminate.
Qed.

(** C7.  When the promise of a fetch is rejected, the caller that issued it
    is resumed into the [catch]: it deletes the entry of its key from the
    cache as it then stands, whatever ran meanwhile, and throws the error
    on.  Run without interruption, a call that issues a fetch which fails
    throws that error and leaves no entry under its key. *)
Theorem C7_failed_fetch_evicts_entry (env : Env) (params : ManifestFetchParams)
    (p : Promise) (e : Thrown) :
  settle env p = Throw e ->
  (forall w,
      exists w',
        getOrFetchManifest_resume env (cacheKey params) p w = (Throw e, w') /\
        manifestCacheAtom w' = delete (cacheKey params) (manifestCacheAtom w) /\
        manifestCacheAtom w' !! cacheKey params = None) /\
  (forall w w1,
      getOrFetchManifest_begin env params w = (Normal (Issued p), w1) ->
      exists w',
        getOrFetchManifest env params w = (Throw e, w') /\
        manifestCacheAtom w' !! cacheKey params = None).
Proof.
  intros Hs.
  assert (Hres : forall w,
             exists w',
               getOrFetchManifest_resume env (cacheKey params) p w = (Throw e, w') /\
               manifestCacheAtom w' = delete (cacheKey params) (manifestCacheAtom w) /\
               manifestCacheAtom w' !! cacheKey params = None).
  { intros w. eexists. rewrite (resume_rejected env _ p e w Hs).
    split; [reflexivity|]. simpl. split; [reflexivity|]. apply lookup_delete_eq. }
  split; [exact Hres|].
  intros w w1 Hb. destruct (Hres w1) as (w' & Hr & _ & Hnone).
  exists w'. split; [|exact Hnone].
  unfold getOrFetchManifest. rewrite (bind_normal _ _ _ _ _ Hb). exact Hr.
Qed.

Lemma C7_failed_fetch_evicts_entry_witness :
  exists w',
    getOrFetchManifest (Sample.host false 0) Sample.paramsMain initialWorld
    = (Throw (JsError "API error" None), w') /\
    manifestCacheAtom w' !! "p1:main" = None.
Proof.
  eapply (proj2 (C7_failed_fetch_evicts_entry (Sample.host false 0) Sample.paramsMain
                   Sample.pendingMain (JsError "API error" None) eq_refl)
            initialWorld).
  vm_compute. reflexivity.
Defined.

(** ** Frame rules *)

Section Keeps.

Context {X : Type} (obs : World -> X).

Lemma keeps_ret {A : Type} (a : A) : keeps obs (ret a).
Proof. intros w. reflexivity. Qed.

Lemma keeps_throw {A : Type} (e : Thrown) : keeps obs (@throw A e).
Proof. intros w. reflexivity. Qed.

Lemma keeps_await {A : Type} (c : Completion A) : keeps obs (await c).
Proof. intros w. reflexivity. Qed.

Lemma keeps_gets {A : Type} (f : World -> A) : keeps obs (gets f).
Proof. intros w. reflexivity. Qed.

Lemma keeps_modify (f : World -> World) :
  (forall w, obs (f w) = obs w) -> keeps obs (modify f).
Proof. intros H w. apply H. Qed.

Lemma keeps_bind {A B : Type} (m : M A) (k : A -> M B) :
  keeps obs m -> (forall a, keeps obs (k a)) -> keeps obs (bind m k).
Proof.
  intros Hm Hk w. unfold bind. specialize (Hm w).
  destruct (m w) as [[a|e] w1]; simpl in *.
  - rewrite (Hk a w1). exact Hm.
  - exact Hm.
Qed.

Lemma keeps_tryCatch {A : Type} (body : M A) (handler : Thrown -> M A) :
  keeps obs body -> (forall e, keeps obs (handler e)) -> keeps obs (tryCatch body handler).
Proof.
  intros Hb Hh w. unfold tryCatch. specialize (Hb w).
  destruct (body w) as [[a|e] w1]; simpl in *.
  - exact Hb.
  - rewrite (Hh e w1). exact Hb.
Qed.

Lemma keeps_forEach {A : Type} (f : A -> M unit) (xs : list A) :
  (forall x, keeps obs (f x)) -> keeps obs (forEach f xs).
Proof.
  intros Hf. induction xs as [|x rest IH]; simpl.
  - apply keeps_ret.
  - apply keeps_bind; [apply Hf | intros _; exact IH].
Qed.

Lemma keeps_mapM {A B : Type} (f : A -> M B) (xs : list A) :
  (forall x, keeps obs (f x)) -> keeps obs (mapM f xs).
Proof.
  intros Hf. induction xs as [|x rest IH]; simpl.
  - apply keeps_ret.
  - apply keeps_bind; [apply Hf | intros y].
    apply keeps_bind; [exact IH | intros ys; apply keeps_ret].
Qed.

End Keeps.

Lemma dateNow_keeps {X : Type} (obs : World -> X) (env : Env) :
  (forall n w, obs (set_clockReads n w) = obs w) -> keeps obs (dateNow env).
Proof. intros H w. apply H. Qed.

Lemma fetchManifest_keeps {X : Type} (obs : World -> X) params :
  (forall l w, obs (set_fetchCalls l w) = obs w) -> keeps obs (fetchManifest params).
Proof. intros H w. apply H. Qed.

(** Breaks a computation down along its binds, handlers and branches; what
    is left are the writes, to be checked against the observation. *)
Ltac keeps_step :=
  match goal with
  | |- keeps _ (ret _) => apply keeps_ret
  | |- keeps _ (throw _) => apply keeps_throw
  | |- keeps _ (await _) => apply keeps_await
  | |- keeps _ (gets _) => apply keeps_gets
  | |- keeps _ (bind _ _) => apply keeps_bind
  | |- keeps _ (tryCatch _ _) => apply keeps_tryCatch
  | |- keeps _ (forEach _ _) => apply keeps_forEach
  | |- keeps _ (mapM _ _) => apply keeps_mapM
  | |- keeps _ (modify _) => apply keeps_modify; intros; reflexivity
  | |- keeps _ (dateNow _) => apply dateNow_keeps; intros; reflexivity
  | |- keeps _ (fetchManifest _) => apply fetchManifest_keeps; intros; reflexivity
  | |- keeps _ (match ?x with _ => _ end) => destruct x
  | |- keeps _ (if ?b then _ else _) => destruct b
  | |- keeps _ (let _ := _ in _) => cbv zeta
  | |- forall _, _ => intros
  end.

Ltac keeps_auto := repeat keeps_step.

Ltac keeps_with tac := repeat first [tac | keeps_step].

Ltac unfold_engine :=
  unfold handleGitEvent, onEvent, processGitEvent, handleScanStart, handleScanEnd,
    handleFileChanged, handleFileDeleted, handleBranchChanged, handleBranchChanged_try,
    updateWorkspaceFolderBranch, setupWorkspaceFolder, setupWorkspaceFolder_try,
    createWatcher, initializeWorkspaceFolder, fetchGitInfo,
    getOrFetchManifest, getOrFetchManifest_begin, getOrFetchManifest_resume,
    getCachedManifest, awaitPromise, createError, addErrorAtom, enqueueFileUpsertAtom,
    clearErrorsAtom, emit.

Section Frames.

Context (env : Env).

(** The manifest cache never writes to the folder registry. *)
Lemma getOrFetchManifest_keeps_registry params :
  keeps workspaceFoldersAtom (getOrFetchManifest env params).
Proof. unfold_engine. keeps_auto. Qed.

End Frames.

(** ** Insertion-ordered maps and the folder registry *)

Section JsMapFacts.

Context {V : Type}.
Implicit Types (m : JsMap.t V) (k : string) (v : V).

Lemma JsMap_get_set_eq k v m : JsMap.get k (JsMap.set k v m) = Some v.
Proof.
  induction m as [|[k0 v0] rest IH]; simpl.
  - now rewrite String.eqb_refl.
  - destruct (String.eqb k0 k) eqn:E; simpl; rewrite E; [reflexivity | exact IH].
Qed.

Lemma JsMap_get_set_ne k k' v m : k <> k' -> JsMap.get k' (JsMap.set k v m) = JsMap.get k' m.
Proof.
  intros Hne. induction m as [|[k0 v0] rest IH]; simpl.
  - destruct (String.eqb_spec k k'); [contradiction | reflexivity].
  - destruct (String.eqb_spec k0 k) as [-> | Hk]; simpl.
    + destruct (String.eqb_spec k k'); [contradiction | reflexivity].
    + destruct (String.eqb k0 k'); [reflexivity | exact IH].
Qed.

Lemma JsMap_get_None k m : JsMap.get k m = None <-> k ∉ JsMap.keys m.
Proof.
  induction m as [|[k0 v0] rest IH]; simpl.
  - split; [intros _; apply not_elem_of_nil | reflexivity].
  - rewrite not_elem_of_cons. destruct (String.eqb_spec k0 k) as [-> | Hk].
    + split; [discriminate | intros [Hne _]; contradiction].
    + rewrite IH. split; [intros H; split; [congruence | exact H] | intros [_ H]; exact H].
Qed.

Lemma JsMap_get_elem k v m : JsMap.get k m = Some v -> (k, v) ∈ m.
Proof.
  induction m as [|[k0 v0] rest IH]; simpl; [discriminate|].
  destruct (String.eqb_spec k0 k) as [-> | Hk].
  - intros [= ->]. left.
  - intros H. right. auto.
Qed.

Lemma JsMap_keys_set_present k v m :
  is_Some (JsMap.get k m) -> JsMap.keys (JsMap.set k v m) = JsMap.keys m.
Proof.
  induction m as [|[k0 v0] rest IH]; simpl.
  - intros [x Hx]. discriminate.
  - destruct (String.eqb_spec k0 k) as [-> | Hk]; simpl; [reflexivity|].
    intros H. f_equal. exact (IH H).
Qed.

Lemma JsMap_keys_set_absent k v m :
  JsMap.get k m = None -> JsMap.keys (JsMap.set k v m) = (JsMap.keys m ++ [k])%list.
Proof.
  induction m as [|[k0 v0] rest IH]; simpl; [reflexivity|].
  destruct (String.eqb_spec k0 k) as [-> | Hk]; simpl; [discriminate|].
  intros H. f_equal. exact (IH H).
Qed.

End JsMapFacts.

Section RegistryFacts.

Implicit Types (m : JsMap.t WorkspaceFolderState) (s : WorkspaceFolderState).

Lemma registry_wf_nil : registry_wf [].
Proof. split; constructor. Qed.

Lemma registry_wf_cons k s m :
  registry_wf ((k, s) :: m) <->
  (k ∉ JsMap.keys m) /\ k = fsPath (folder s) /\ registry_wf m.
Proof.
  unfold registry_wf. simpl. rewrite NoDup_cons, Forall_cons. simpl. tauto.
Qed.

(** A registered state is found under the path of its folder. *)
Lemma registry_wf_get m s :
  registry_wf m -> s ∈ JsMap.values m -> JsMap.get (fsPath (folder s)) m = Some s.
Proof.
  induction m as [|[k0 s0] rest IH]; intros Hwf Hin.
  - inversion Hin.
  - apply registry_wf_cons in Hwf as (Hfresh & Hk0 & Hwf).
    simpl in *. apply elem_of_cons in Hin as [-> | Hin].
    + subst k0. now rewrite String.eqb_refl.
    + specialize (IH Hwf Hin).
      destruct (String.eqb_spec k0 (fsPath (folder s))) as [Heq | Hne]; [|exact IH].
      exfalso. apply Hfresh. rewrite Heq.
      destruct (JsMap.get (fsPath (folder s)) rest) eqn:E; [|discriminate].
      apply JsMap_get_elem in E. unfold JsMap.keys.
      apply list_elem_of_In, in_map_iff. eexists. split; [|apply list_elem_of_In; exact E].
      reflexivity.
Qed.

Lemma registry_wf_set m k s :
  registry_wf m -> k = fsPath (folder s) -> registry_wf (JsMap.set k s m).
Proof.
  intros Hwf ->. induction m as [|[k0 s0] rest IH]; simpl.
  - apply registry_wf_cons. split; [|split]; [apply not_elem_of_nil | reflexivity |].
    apply registry_wf_nil.
  - apply registry_wf_cons in Hwf as (Hfresh & Hk0 & Hwf).
    destruct (String.eqb_spec k0 (fsPath (folder s))) as [Heq | Hne].
    + apply registry_wf_cons. split; [|split]; assumption.
    + apply registry_wf_cons. split; [|split]; [|assumption|exact (IH Hwf)].
      destruct (JsMap.get (fsPath (folder s)) rest) eqn:E.
      * rewrite JsMap_keys_set_present by eauto. exact Hfresh.
      * rewrite JsMap_keys_set_absent by assumption.
        rewrite elem_of_app, list_elem_of_singleton. tauto.
Qed.

(** What the lookup by watcher returns is registered and has that watcher. *)
Lemma findWorkspaceFolderByWatcher_Some m w s :
  findWorkspaceFolderByWatcher m w = Some s -> s ∈ JsMap.values m /\ watcher s = w.
Proof.
  unfold findWorkspaceFolderByWatcher. intros H. apply find_some in H as [Hin Hw].
  split; [now apply list_elem_of_In | now apply bool_decide_eq_true in Hw].
Qed.

(** When no two registered folders hold the same watcher, a registered
    folder holding the event's watcher is the one the lookup returns. *)
Lemma findWorkspaceFolderByWatcher_matches m handle s :
  (forall s1 s2, s1 ∈ JsMap.values m -> s2 ∈ JsMap.values m ->
                 watcher s1 = Some handle -> watcher s2 = Some handle -> s1 = s2) ->
  s ∈ JsMap.values m ->
  watcher s = Some handle ->
  findWorkspaceFolderByWatcher m (Some handle) = Some s.
Proof.
  intros Huniq Hin Hw.
  destruct (findWorkspaceFolderByWatcher m (Some handle)) as [s'|] eqn:Hfind.
  - apply findWorkspaceFolderByWatcher_Some in Hfind as [Hin' Hw'].
    f_equal. now apply Huniq.
  - unfold findWorkspaceFolderByWatcher in Hfind.
    apply list_elem_of_In in Hin. apply (find_none _ _ Hfind) in Hin.
    apply bool_decide_eq_false in Hin. contradiction.
Qed.

Lemma updateWorkspaceFolder_wf m path u :
  registry_wf m -> registry_wf (updateWorkspaceFolder m path u).
Proof.
  intros Hwf. unfold updateWorkspaceFolder.
  destruct (JsMap.get path m) as [existing|] eqn:E; [|exact Hwf].
  apply registry_wf_set; [exact Hwf|].
  apply JsMap_get_elem in E. destruct Hwf as [_ Hall].
  rewrite Forall_forall in Hall. exact (Hall _ E).
Qed.

Lemma updateWorkspaceFolder_get_other m path path' u :
  path <> path' ->
  JsMap.get path' (updateWorkspaceFolder m path u) = JsMap.get path' m.
Proof.
  intros Hne. unfold updateWorkspaceFolder.
  destruct (JsMap.get path m); [now apply JsMap_get_set_ne | reflexivity].
Qed.

Lemma updateWorkspaceFolder_get m path u existing :
  JsMap.get path m = Some existing ->
  JsMap.get path (updateWorkspaceFolder m path u) = Some (applyUpdates existing u).
Proof.
  intros E. unfold updateWorkspaceFolder. rewrite E. apply JsMap_get_set_eq.
Qed.

(** The write-only atom does what [updateWorkspaceFolder] does, to the
    registry and to nothing else. *)
Lemma updateWorkspaceFolderAtom_registry path u w :
  fst (updateWorkspaceFolderAtom path u w) = Normal tt /\
  workspaceFoldersAtom (snd (updateWorkspaceFolderAtom path u w))
  = updateWorkspaceFolder (workspaceFoldersAtom w) path u.
Proof.
  unfold updateWorkspaceFolderAtom, updateWorkspaceFolder. unfold_m.
  destruct (JsMap.get path (workspaceFoldersAtom w)); split; reflexivity.
Qed.

Lemma updateWorkspaceFolderAtom_keeps_other path path' u :
  path <> path' ->
  keeps (fun w => JsMap.get path' (workspaceFoldersAtom w)) (updateWorkspaceFolderAtom path u).
Proof.
  intros Hne w.
  rewrite (proj2 (updateWorkspaceFolderAtom_registry path u w)).
  now apply updateWorkspaceFolder_get_other.
Qed.

End RegistryFacts.

(** ** The event state machine *)

Section Events.

Context (env : Env).

Lemma bind_normal_inv {A B : Type} (m : M A) (k : A -> M B) w b w' :
  bind m k w = (Normal b, w') ->
  exists a w1, m w = (Normal a, w1) /\ k a w1 = (Normal b, w').
Proof.
  unfold bind. destruct (m w) as [[a|e] w1]; intros H; [eauto | discriminate].
Qed.

(** An event whose folder has a falsy project id or branch is dropped. *)
Lemma processGitEvent_not_initialised event w folder0 :
  findWorkspaceFolderByWatcher (workspaceFoldersAtom w) (ev_watcher event) = Some folder0 ->
  truthy (projectId folder0) = false \/ truthy (gitBranch folder0) = false ->
  processGitEvent env event w = (Normal tt, w).
Proof.
  intros Hfind Hfalsy. unfold processGitEvent. unfold_m. rewrite Hfind.
  destruct Hfalsy as [-> | ->]; simpl; [reflexivity|].
  now rewrite orb_true_r.
Qed.

(** An event from a watcher no folder holds is dropped. *)
Lemma processGitEvent_unknown_watcher event w :
  findWorkspaceFolderByWatcher (workspaceFoldersAtom w) (ev_watcher event) = None ->
  processGitEvent env event w = (Normal tt, w).
Proof. intros Hfind. unfold processGitEvent. unfold_m. now rewrite Hfind. Qed.

(** While the orchestrator is inactive, [onEvent] does nothing. *)
Lemma handleGitEvent_inactive event w :
  isActiveAtom w = false -> handleGitEvent env event w = (Normal tt, w).
Proof. intros H. unfold handleGitEvent. unfold_m. now rewrite H. Qed.

(** C10.  When the folder the event's watcher matches has a null project
    id or a null branch, [processGitEvent] returns normally and the world
    is what it was: registry, manifest cache, upload queue and error list
    included, whatever the type of the event. *)
Theorem C10_uninitialised_folder_drops_event (event : GitWatcherEvent) (w : World)
    (folder0 : WorkspaceFolderState) :
  findWorkspaceFolderByWatcher (workspaceFoldersAtom w) (ev_watcher event) = Some folder0 ->
  projectId folder0 = None \/ gitBranch folder0 = None ->
  processGitEvent env event w = (Normal tt, w).
Proof.
  intros Hfind Hnull. apply (processGitEvent_not_initialised _ _ _ Hfind).
  destruct Hnull as [-> | ->]; [left | right]; reflexivity.
Qed.

(** C8.  A file-changed event for a path whose extension is not in the
    supported list leaves the world as it was, through [processGitEvent]
    and through [onEvent]: nothing is enqueued, the registry and the cache
    are not written, whatever they and the configuration hold. *)
Theorem C8_unsupported_extension_is_ignored (event : GitWatcherEvent) (w : World)
    (filePath fileHash : string) :
  ev_type event = file_changed filePath fileHash ->
  shouldProcessFile env filePath = false ->
  processGitEvent env event w = (Normal tt, w) /\
  onEvent env event w = (Normal tt, w).
Proof.
  intros Hty Hext.
  assert (Hp : processGitEvent env event w = (Normal tt, w)).
  { unfold processGitEvent. unfold_m.
    destruct (findWorkspaceFolderByWatcher _ _) as [folder0|]; [|reflexivity].
    destruct (negb (truthy (projectId folder0)) || negb (truthy (gitBranch folder0)));
      [reflexivity|].
    rewrite Hty. unfold handleFileChanged. now rewrite Hext. }
  split; [exact Hp|].
  unfold onEvent, handleGitEvent. unfold_m.
  destruct (isActiveAtom w); simpl; [|reflexivity].
  now rewrite Hp.
Qed.

(** Once the registry is empty and the orchestrator inactive, no sequence
    of events changes anything. *)
Lemma events_after_shutdown events w :
  workspaceFoldersAtom w = [] ->
  isActiveAtom w = false ->
  forEach (onEvent env) events w = (Normal tt, w) /\
  forEach (processGitEvent env) events w = (Normal tt, w).
Proof.
  intros Hreg Hact. induction events as [|event rest [IH1 IH2]]; simpl.
  - split; reflexivity.
  - split.
    + rewrite (bind_normal _ _ _ _ _ (handleGitEvent_inactive event w Hact)). exact IH1.
    + rewrite (bind_normal _ _ w tt w); [exact IH2|].
      apply processGitEvent_unknown_watcher. now rewrite Hreg.
Qed.

(** C5.  When [dispose] has completed, the registry is empty, the
    orchestrator is inactive and the upload queue is empty; and from then
    on any sequence of events, of any content, delivered to [onEvent] or
    straight to [processGitEvent], completes normally and leaves the world
    exactly as [dispose] left it. *)
Theorem C5_dispose_then_events_are_noops (w w' : World) :
  dispose env w = (Normal tt, w') ->
  workspaceFoldersAtom w' = [] /\
  isActiveAtom w' = false /\
  fileUpsertQueueAtom w' = [] /\
  (forall events, forEach (onEvent env) events w' = (Normal tt, w')) /\
  (forall events, forEach (processGitEvent env) events w' = (Normal tt, w')).
Proof.
  intros Hd.
  assert (Hstate : workspaceFoldersAtom w' = [] /\ isActiveAtom w' = false
                   /\ fileUpsertQueueAtom w' = []).
  { unfold dispose in Hd.
    apply bind_normal_inv in Hd as (interval & w1 & _ & Hd).
    apply bind_normal_inv in Hd as (? & w2 & _ & Hd).
    apply bind_normal_inv in Hd as (folders & w3 & _ & Hd).
    apply bind_normal_inv in Hd as (? & w4 & _ & Hd).
    apply bind_normal_inv in Hd as (? & w5 & H5 & Hd).
    apply bind_normal_inv in Hd as (? & w6 & H6 & Hd).
    apply bind_normal_inv in Hd as (? & w7 & H7 & Hd).
    apply bind_normal_inv in Hd as (? & w8 & H8 & Hd).
    apply bind_normal_inv in Hd as (ds & w9 & H9 & Hd).
    apply bind_normal_inv in Hd as (? & w10 & H10 & Hd).
    unfold clearErrorsAtom in *. unfold_m.
    inversion H5; subst w5; clear H5. inversion H6; subst w6; clear H6.
    inversion H7; subst w7; clear H7. inversion H8; subst w8; clear H8.
    inversion H9; subst w9; clear H9. inversion Hd; subst w'; clear Hd.
    set (wc := set_errors [] _) in *.
    set (f := fun d : option Disposable => _) in H10.
    assert (Hk : forall X (obs : World -> X),
               (forall l w0, obs (set_effects l w0) = obs w0) -> obs w10 = obs wc).
    { intros X obs Hobs.
      assert (K : keeps obs (forEach f ds)).
      { apply keeps_forEach. intros [d|] w0; subst f; unfold modify; simpl;
          [apply Hobs | reflexivity]. }
      specialize (K wc). now rewrite H10 in K. }
    simpl. repeat split.
    - exact (Hk _ workspaceFoldersAtom (fun _ _ => eq_refl)).
    - exact (Hk _ isActiveAtom (fun _ _ => eq_refl)).
    - exact (Hk _ fileUpsertQueueAtom (fun _ _ => eq_refl)). }
  destruct Hstate as (Hreg & Hact & Hq).
  repeat split; try assumption; intros events.
  - exact (proj1 (events_after_shutdown events w' Hreg Hact)).
  - exact (proj2 (events_after_shutdown events w' Hreg Hact)).
Qed.

End Events.

Lemma C10_uninitialised_folder_drops_event_witness :
  processGitEvent (Sample.host true 0) (Sample.event scan_start "main" (Some 0%nat))
    Sample.uninitialised
  = (Normal tt, Sample.uninitialised).
Proof.
  eapply (C10_uninitialised_folder_drops_event (Sample.host true 0)).
  - reflexivity.
  - left. reflexivity.
Defined.

Lemma C8_unsupported_extension_is_ignored_witness :
  let event := Sample.event (file_changed "test.unsupported" "abc123") "main" (Some 0%nat) in
  processGitEvent (Sample.host true 0) event Sample.running = (Normal tt, Sample.running) /\
  onEvent (Sample.host true 0) event Sample.running = (Normal tt, Sample.running).
Proof.
  apply (C8_unsupported_extension_is_ignored (Sample.host true 0) _ Sample.running
           "test.unsupported" "abc123").
  - reflexivity.
  - vm_compute. reflexivity.
Defined.

Lemma C5_dispose_then_events_are_noops_witness :
  let w' := snd (dispose (Sample.host true 0) Sample.running) in
  workspaceFoldersAtom w' = [] /\
  isActiveAtom w' = false /\
  fileUpsertQueueAtom w' = [] /\
  (forall events, forEach (onEvent (Sample.host true 0)) events w' = (Normal tt, w')) /\
  (forall events, forEach (processGitEvent (Sample.host true 0)) events w' = (Normal tt, w')).
Proof.
  apply (C5_dispose_then_events_are_noops (Sample.host true 0) Sample.running).
  vm_compute. reflexivity.
Defined.

Section EventTargets.

Context (env : Env).

Ltac keeps_registry_auto :=
  keeps_with ltac:(apply updateWorkspaceFolderAtom_keeps_other; congruence).

(** Handling an event writes to the registry under the path of the
    folder found for it, and nowhere else. *)
Lemma processGitEvent_registry_elsewhere event w folder0 path :
  findWorkspaceFolderByWatcher (workspaceFoldersAtom w) (ev_watcher event) = Some folder0 ->
  path <> fsPath (folder folder0) ->
  JsMap.get path (workspaceFoldersAtom (snd (processGitEvent env event w)))
  = JsMap.get path (workspaceFoldersAtom w).
Proof.
  intros Hfind Hne. unfold processGitEvent. unfold_m. rewrite Hfind.
  destruct (negb (truthy (projectId folder0)) || negb (truthy (gitBranch folder0)));
    [reflexivity|].
  assert (K : keeps (fun w0 => JsMap.get path (workspaceFoldersAtom w0))
                (match ev_type event with
                 | scan_start => handleScanStart folder0 event
                 | scan_end => handleScanEnd folder0 event
                 | file_changed filePath fileHash =>
                     handleFileChanged env folder0 event filePath fileHash
                 | file_deleted filePath => handleFileDeleted folder0 event filePath
                 | branch_changed previousBranch newBranch =>
                     handleBranchChanged env folder0 event previousBranch newBranch
                 end)).
  { unfold_engine. keeps_registry_auto. }
  exact (K w).
Qed.

Lemma handleGitEvent_world event w :
  snd (handleGitEvent env event w) = w \/
  snd (handleGitEvent env event w) = snd (processGitEvent env event w).
Proof.
  unfold handleGitEvent. unfold_m. destruct (isActiveAtom w); simpl; [|now left].
  right. destruct (processGitEvent env event w) as [[[]|e] w1]; reflexivity.
Qed.

(** C9, amended.  In a well-formed registry, for an event that carries a
    watcher handle, as its type requires, the folder selected for it holds
    that watcher, so a registered folder whose watcher is null is never the
    one selected, and its registered state is the same after the event as
    before, through [processGitEvent] and through [onEvent]. *)
Theorem C9_null_watcher_folder_is_no_target (event : GitWatcherEvent) (w : World)
    (handle : GitWatcher) :
  ev_watcher event = Some handle ->
  registry_wf (workspaceFoldersAtom w) ->
  (forall selected,
      findWorkspaceFolderByWatcher (workspaceFoldersAtom w) (ev_watcher event) = Some selected ->
      watcher selected = Some handle) /\
  (forall path s,
      JsMap.get path (workspaceFoldersAtom w) = Some s ->
      watcher s = None ->
      findWorkspaceFolderByWatcher (workspaceFoldersAtom w) (ev_watcher event) <> Some s /\
      JsMap.get path (workspaceFoldersAtom (snd (processGitEvent env event w))) = Some s /\
      JsMap.get path (workspaceFoldersAtom (snd (onEvent env event w))) = Some s).
Proof.
  intros Hev Hwf.
  assert (Hsel : forall selected,
             findWorkspaceFolderByWatcher (workspaceFoldersAtom w) (ev_watcher event)
             = Some selected -> watcher selected = Some handle).
  { intros selected Hfind.
    apply findWorkspaceFolderByWatcher_Some in Hfind as [_ Hw]. congruence. }
  split; [exact Hsel|].
  intros path s Hget Hnull.
  assert (Hnot : findWorkspaceFolderByWatcher (workspaceFoldersAtom w) (ev_watcher event)
                 <> Some s).
  { intros Hfind. specialize (Hsel s Hfind). congruence. }
  assert (Hproc : JsMap.get path (workspaceFoldersAtom (snd (processGitEvent env event w)))
                  = Some s).
  { destruct (findWorkspaceFolderByWatcher (workspaceFoldersAtom w) (ev_watcher event))
      as [folder0|] eqn:Hfind.
    - rewrite (processGitEvent_registry_elsewhere event w folder0 path Hfind); [exact Hget|].
      intros ->.
      pose proof (Hsel folder0 eq_refl) as Hw.
      apply findWorkspaceFolderByWatcher_Some in Hfind as [Hin _].
      rewrite (registry_wf_get _ _ Hwf Hin) in Hget. congruence.
    - now rewrite (processGitEvent_unknown_watcher env event w Hfind). }
  split; [exact Hnot|]. split; [exact Hproc|].
  unfold onEvent. destruct (handleGitEvent_world event w) as [-> | ->]; assumption.
Qed.

End EventTargets.

Lemma C9_null_watcher_folder_is_no_target_witness :
  let event := Sample.event scan_start "main" (Some 0%nat) in
  let s := Sample.stateA None (Some {| type := manifest_error; message := "API error";
                                       timestamp := 0; context := None; details := None |}) in
  findWorkspaceFolderByWatcher (workspaceFoldersAtom Sample.degraded) (ev_watcher event)
  <> Some s /\
  JsMap.get "/test/workspace"
    (workspaceFoldersAtom (snd (processGitEvent (Sample.host true 0) event Sample.degraded)))
  = Some s /\
  JsMap.get "/test/workspace"
    (workspaceFoldersAtom (snd (onEvent (Sample.host true 0) event Sample.degraded)))
  = Some s.
Proof.
  intros event s.
  assert (Hwf : registry_wf (workspaceFoldersAtom Sample.degraded)).
  { split; [apply NoDup_singleton | repeat constructor]. }
  apply (proj2 (C9_null_watcher_folder_is_no_target (Sample.host true 0) event Sample.degraded
                  0%nat eq_refl Hwf) "/test/workspace" s).
  - reflexivity.
  - reflexivity.
Defined.

(** C9 as stated fails for an event whose watcher handle is null: the
    comparison [state.watcher === watcher] then holds for a folder without a
    watcher, which is selected and, on [scan-start], marked as indexing with
    its error cleared. *)
Lemma C9_counterexample :
  ~ (forall (env : Env) (event : GitWatcherEvent) (w : World) (path : string)
            (s : WorkspaceFolderState),
        registry_wf (workspaceFoldersAtom w) ->
        JsMap.get path (workspaceFoldersAtom w) = Some s ->
        watcher s = None ->
        findWorkspaceFolderByWatcher (workspaceFoldersAtom w) (ev_watcher event) <> Some s /\
        JsMap.get path (workspaceFoldersAtom (snd (processGitEvent env event w))) = Some s).
Proof.
  intros H.
  assert (Hwf : registry_wf (workspaceFoldersAtom Sample.degraded)).
  { split; [apply NoDup_singleton | repeat constructor]. }
  destruct (H (Sample.host true 0) (Sample.event scan_start "main" None) Sample.degraded
              "/test/workspace" _ Hwf eq_refl eq_refl) as [Hnot Hsame].
  vm_compute in Hsame. discriminate Hsame.
Qed.

Section BranchChange.

Context (env : Env).

(** Re-resolving the project never throws, and always carries the new
    branch. *)
Lemma updateWorkspaceFolderBranch_spec state newBranch w :
  exists updates w1,
    updateWorkspaceFolderBranch env state newBranch w = (Normal updates, w1) /\
    u_gitBranch updates = Some (Some newBranch) /\
    u_isIndexing updates = None /\
    workspaceFoldersAtom w1 = workspaceFoldersAtom w.
Proof.
  unfold updateWorkspaceFolderBranch, createError, dateNow. unfold_m.
  destruct (getKilocodeConfig env _ _) as [config|e]; simpl;
    eexists _, _; repeat split.
Qed.


(** The [try] block throws only what the manifest fetch for the new branch
    has thrown. *)
Lemma handleBranchChanged_try_throws folder0 newBranch w e w1 :
  handleBranchChanged_try env folder0 newBranch w = (Throw e, w1) ->
  exists params wm,
    p_branch params = newBranch /\
    getOrFetchManifest env params wm = (Throw e, w1).
Proof.
  intros Htry. unfold handleBranchChanged_try in Htry.
  destruct (updateWorkspaceFolderBranch_spec folder0 newBranch w)
    as (updates & wa & Hu & _).
  rewrite (bind_normal _ _ _ _ _ Hu) in Htry.
  destruct (updateWorkspaceFolderAtom_registry (fsPath (folder folder0)) updates wa)
    as [Hfst _].
  destruct (updateWorkspaceFolderAtom (fsPath (folder folder0)) updates wa)
    as [rb wb] eqn:Hb.
  simpl in Hfst. subst rb.
  rewrite (bind_normal _ _ _ _ _ Hb) in Htry.
  unfold bind at 1 in Htry. unfold gets in Htry.
  destruct (truthy (token (configAtom wb)) && truthy (organizationId (configAtom wb))
            && truthy (projectId folder0)); [|discriminate Htry].
  unfold bind in Htry.
  match type of Htry with
  | context [getOrFetchManifest env ?p ?w0] =>
      destruct (getOrFetchManifest env p w0) as [[m|e'] wm] eqn:Hm;
      [discriminate Htry | exists p, w0]
  end.
  inversion Htry; subst. split; [reflexivity | exact Hm].
Qed.



End BranchChange.


(** ** Invariants *)

Section Invariants.

Context (P : World -> Prop).

Lemma invariant_ret {A : Type} (a : A) : invariant P (ret a).
Proof. intros w H. exact H. Qed.

Lemma invariant_bind {A B : Type} (m : M A) (k : A -> M B) :
  invariant P m -> (forall a, invariant P (k a)) -> invariant P (bind m k).
Proof.
  intros Hm Hk w Hw. unfold bind. specialize (Hm w Hw).
  destruct (m w) as [[a|e] w1]; simpl in *; [now apply Hk | exact Hm].
Qed.

Lemma invariant_tryCatch {A : Type} (body : M A) (handler : Thrown -> M A) :
  invariant P body -> (forall e, invariant P (handler e)) -> invariant P (tryCatch body handler).
Proof.
  intros Hb Hh w Hw. unfold tryCatch. specialize (Hb w Hw).
  destruct (body w) as [[a|e] w1]; simpl in *; [exact Hb | now apply Hh].
Qed.

Lemma invariant_keeps {X A : Type} (obs : World -> X) (Q : X -> Prop) (m : M A) :
  (forall w, P w <-> Q (obs w)) -> keeps obs m -> invariant P m.
Proof. intros HP Hk w Hw. apply HP. rewrite (Hk w). now apply HP. Qed.

End Invariants.

(** ** Start-up *)

Section FolderInitialisation.

Context (env : Env).

(** [initializeWorkspaceFolder] never throws, and what it returns is a state
    of the folder it was given. *)
Lemma initializeWorkspaceFolder_normal folder0 config w :
  exists r w1,
    initializeWorkspaceFolder env folder0 config w = (Normal r, w1) /\
    forall s, r = Some s -> folder s = folder0.
Proof.
  unfold initializeWorkspaceFolder, fetchGitInfo, createError, dateNow. unfold_m.
  destruct (isGitRepository env (fsPath folder0)) as [[|]|e]; simpl;
    try (eexists _, _; split; [reflexivity|]; intros s [= <-]; reflexivity);
    try (eexists _, _; split; [reflexivity|]; intros s [=]).
  destruct (getGitRepositoryInfo env (fsPath folder0)) as [url|e]; simpl;
    try (eexists _, _; split; [reflexivity|]; intros s [= <-]; reflexivity).
  destruct (getCurrentBranch env (fsPath folder0)) as [branch|e]; simpl;
    try (eexists _, _; split; [reflexivity|]; intros s [= <-]; reflexivity).
  destruct (getKilocodeConfig env (fsPath folder0) _) as [pc|e]; simpl;
    try (eexists _, _; split; [reflexivity|]; intros s [= <-]; reflexivity).
  destruct (truthy pc); simpl;
    try (eexists _, _; split; [reflexivity|]; intros s [= <-]; reflexivity);
    try (eexists _, _; split; [reflexivity|]; intros s [=]).
Qed.

(** A folder that is not a repository yields no state. *)
Lemma initializeWorkspaceFolder_not_git folder0 config w :
  isGitRepository env (fsPath folder0) = Normal false ->
  initializeWorkspaceFolder env folder0 config w = (Normal None, w).
Proof.
  intros H. unfold initializeWorkspaceFolder. unfold_m. now rewrite H.
Qed.

(** A repository for which no project id is found yields no state. *)
Lemma initializeWorkspaceFolder_no_project folder0 config w url branch pc :
  isGitRepository env (fsPath folder0) = Normal true ->
  getGitRepositoryInfo env (fsPath folder0) = Normal url ->
  getCurrentBranch env (fsPath folder0) = Normal branch ->
  getKilocodeConfig env (fsPath folder0) (Some (str (orElse url (Some "")))) = Normal pc ->
  truthy pc = false ->
  initializeWorkspaceFolder env folder0 config w = (Normal None, w).
Proof.
  intros Hgit Hurl Hbranch Hpc Hfalsy.
  unfold initializeWorkspaceFolder, fetchGitInfo. unfold_m.
  rewrite Hgit. simpl. rewrite Hurl, Hbranch. simpl. rewrite Hpc, Hfalsy. reflexivity.
Qed.

(** A repository with a project id yields its initial state. *)
Lemma initializeWorkspaceFolder_project folder0 config w url branch pid :
  isGitRepository env (fsPath folder0) = Normal true ->
  getGitRepositoryInfo env (fsPath folder0) = Normal url ->
  getCurrentBranch env (fsPath folder0) = Normal branch ->
  getKilocodeConfig env (fsPath folder0) (Some (str (orElse url (Some "")))) = Normal (Some pid) ->
  pid <> "" ->
  initializeWorkspaceFolder env folder0 config w
  = (Normal (Some {| folder := folder0; gitBranch := Some branch; projectId := Some pid;
                     repositoryUrl := Some (str (orElse url (Some "")));
                     isIndexing := false; watcher := None; lastError := None |}), w).
Proof.
  intros Hgit Hurl Hbranch Hpc Hne.
  unfold initializeWorkspaceFolder, fetchGitInfo. unfold_m.
  rewrite Hgit. simpl. rewrite Hurl, Hbranch. simpl. rewrite Hpc.
  destruct pid; [contradiction | reflexivity].
Qed.

(** The [Promise.all] of [start]: one result per folder, each what
    [initializeWorkspaceFolder] returns for that folder in some world. *)
Lemma mapM_initializeWorkspaceFolder config wfs :
  forall w,
    exists inits w1,
      mapM (fun folder0 => initializeWorkspaceFolder env folder0 config) wfs w
      = (Normal inits, w1) /\
      Forall2 (fun folder0 r =>
                 exists wa wb, initializeWorkspaceFolder env folder0 config wa = (Normal r, wb))
              wfs inits.
Proof.
  induction wfs as [|folder0 rest IH]; intros w; simpl.
  - eexists _, _. split; [reflexivity | constructor].
  - destruct (initializeWorkspaceFolder_normal folder0 config w) as (r & wa & Hr & _).
    destruct (IH wa) as (inits & wb & Hrest & Hall).
    exists (r :: inits), wb. split.
    + rewrite (bind_normal _ _ _ _ _ Hr), (bind_normal _ _ _ _ _ Hrest). reflexivity.
    + constructor; [eauto | exact Hall].
Qed.

End FolderInitialisation.

Section FolderSetup.

Context (env : Env).

(** The manifest API is failing for the key: every promise of a call made
    for it is rejected. *)
Variable key : string.
Hypothesis rejects : forall p, cacheKey (request p) = key -> exists e, settle env p = Throw e.

(** With nothing cached under the key, a request for it issues a fetch,
    which fails. *)
Lemma getOrFetchManifest_fails params w :
  cacheKey params = key ->
  manifestCacheAtom w !! key = None ->
  exists e w1, getOrFetchManifest env params w = (Throw e, w1).
Proof.
  intros Hk Hnone.
  destruct (begin_cases env params w) as (h & w1 & Hb & _ & _ & _ & _ & _ & _ & _ & Hcase).
  rewrite Hk, Hnone in Hcase. simpl in Hcase.
  destruct Hcase as [(p & _ & _ & [=]) | [(m & _ & _ & _ & [=]) | (p & t & -> & Hreq & _)]].
  destruct (rejects p) as [e He]; [now rewrite Hreq|].
  unfold getOrFetchManifest. rewrite (bind_normal _ _ _ _ _ Hb).
  eexists _, _. apply (resume_rejected env _ p e w1 He).
Qed.

(** And whatever is requested, nothing is cached under the key afterwards. *)
Lemma getOrFetchManifest_leaves_no_entry params w :
  manifestCacheAtom w !! key = None ->
  manifestCacheAtom (snd (getOrFetchManifest env params w)) !! key = None.
Proof.
  intros Hnone.
  destruct (begin_cases env params w) as (h & w1 & Hb & _ & _ & _ & _ & _ & _ & _ & Hcase).
  unfold getOrFetchManifest. rewrite (bind_normal _ _ _ _ _ Hb).
  destruct Hcase as [(p & -> & -> & _) | [(m & -> & Hc & _) | (p & t & -> & Hreq & _ & _ & _ & Hc)]].
  - exact Hnone.
  - simpl. now rewrite Hc.
  - change (p_projectId params ++ ":" ++ p_branch params) with (cacheKey params).
    destruct (decide (cacheKey params = key)) as [Hk | Hk].
    + destruct (rejects p) as [e He]; [now rewrite Hreq|].
      rewrite (resume_rejected env _ p e w1 He).
      cbn [snd manifestCacheAtom set_manifestCache]. rewrite Hk. apply lookup_delete_eq.
    + destruct (resume_frame env (cacheKey params) p w1) as (_ & _ & _ & _ & _ & _ & _ & _ & Hf).
      rewrite Hf by congruence.
      rewrite Hc. now rewrite lookup_insert_ne.
Qed.

Lemma setupWorkspaceFolder_leaves_no_entry state w :
  manifestCacheAtom w !! key = None ->
  manifestCacheAtom (snd (setupWorkspaceFolder env state w)) !! key = None.
Proof.
  intros Hnone. unfold setupWorkspaceFolder. unfold bind at 1. unfold gets.
  destruct (_ || _); [exact Hnone|].
  unfold tryCatch, setupWorkspaceFolder_try. unfold bind at 1.
  match goal with
  | |- context [getOrFetchManifest env ?p w] =>
      pose proof (getOrFetchManifest_leaves_no_entry p w Hnone) as Hm;
      destruct (getOrFetchManifest env p w) as [[m|e] wm]
  end; simpl in Hm.
  - unfold createWatcher, createError, dateNow. unfold_m.
    destruct (gitWatcherThrows env _); simpl; exact Hm.
  - unfold createError, dateNow. unfold_m. simpl. exact Hm.
Qed.

(** Setting up a folder never throws, returns a state of the same folder,
    and leaves the configuration and the active flag alone. *)
Lemma setupWorkspaceFolder_normal state w :
  exists r w1,
    setupWorkspaceFolder env state w = (Normal r, w1) /\
    (forall s, r = Some s -> folder s = folder state) /\
    configAtom w1 = configAtom w /\
    isActiveAtom w1 = isActiveAtom w.
Proof.
  unfold setupWorkspaceFolder. unfold bind at 1. unfold gets.
  destruct (_ || _).
  { eexists _, _. split; [reflexivity|]. repeat split. intros s [=]. }
  unfold tryCatch, setupWorkspaceFolder_try. unfold bind at 1.
  match goal with
  | |- context [getOrFetchManifest env ?p w] =>
      assert (Kc : keeps configAtom (getOrFetchManifest env p))
        by (unfold_engine; keeps_auto);
      assert (Ka : keeps isActiveAtom (getOrFetchManifest env p))
        by (unfold_engine; keeps_auto);
      specialize (Kc w); specialize (Ka w);
      destruct (getOrFetchManifest env p w) as [[m|e] wm]
  end; simpl in Kc, Ka.
  - unfold createWatcher, createError, dateNow. unfold_m.
    destruct (gitWatcherThrows env _); simpl;
      (eexists _, _; split; [reflexivity|]; repeat split; try assumption;
       intros s [= <-]; reflexivity).
  - unfold createError, dateNow. unfold_m. simpl.
    eexists _, _. split; [reflexivity|]. repeat split; try assumption.
    intros s [= <-]. reflexivity.
Qed.

(** A folder whose manifest fetch is for the failing key is kept, as it
    was initialised, with a manifest error. *)
Lemma setupWorkspaceFolder_fetch_fails state w :
  truthy (token (configAtom w)) = true ->
  truthy (organizationId (configAtom w)) = true ->
  truthy (projectId state) = true ->
  str (projectId state) ++ ":" ++ default "null" (gitBranch state) = key ->
  manifestCacheAtom w !! key = None ->
  exists err w1,
    setupWorkspaceFolder env state w
    = (Normal (Some {| folder := folder state; gitBranch := gitBranch state;
                       projectId := projectId state; repositoryUrl := repositoryUrl state;
                       isIndexing := isIndexing state; watcher := watcher state;
                       lastError := Some err |}), w1) /\
    type err = manifest_error.
Proof.
  intros Htok Horg Hpid Hk Hnone.
  unfold setupWorkspaceFolder. unfold bind at 1. unfold gets.
  rewrite Htok, Horg, Hpid. simpl.
  unfold tryCatch, setupWorkspaceFolder_try. unfold bind at 1.
  match goal with
  | |- context [getOrFetchManifest env ?p w] =>
      destruct (getOrFetchManifest_fails p w Hk Hnone) as (e & wm & ->)
  end.
  unfold createError, dateNow. unfold_m. simpl.
  eexists _, _. split; reflexivity.
Qed.

(** A folder that gets past the guard is handed back either with a watcher,
    or as it came with a manifest error. *)
Lemma setupWorkspaceFolder_cases state w :
  truthy (token (configAtom w)) = true ->
  truthy (organizationId (configAtom w)) = true ->
  truthy (projectId state) = true ->
  exists s w1,
    setupWorkspaceFolder env state w = (Normal (Some s), w1) /\
    folder s = folder state /\
    gitBranch s = gitBranch state /\
    projectId s = projectId state /\
    ((exists id, watcher s = Some id /\ lastError s = lastError state) \/
     (watcher s = watcher state /\
      exists err, lastError s = Some err /\ type err = manifest_error)).
Proof.
  intros Htok Horg Hpid. unfold setupWorkspaceFolder.
  rewrite (bind_normal (gets configAtom) _ w (configAtom w) w eq_refl).
  rewrite Htok, Horg, Hpid. cbn [negb orb].
  unfold tryCatch, setupWorkspaceFolder_try. unfold bind at 1.
  match goal with
  | |- context [getOrFetchManifest env ?p w] =>
      destruct (getOrFetchManifest env p w) as [[m|e] wm]
  end.
  - unfold createWatcher, createError, dateNow. unfold_m.
    destruct (gitWatcherThrows env _); simpl;
      (eexists _, _; split; [reflexivity|]; repeat split).
    + right. split; [reflexivity|]. eexists. split; reflexivity.
    + left. eexists. split; reflexivity.
  - unfold createError, dateNow. unfold_m. simpl.
    eexists _, _. split; [reflexivity|]. repeat split.
    right. split; [reflexivity|]. eexists. split; reflexivity.
Qed.

End FolderSetup.

Section StartLoop.

Context (env : Env).

Lemma forEach_normal {A : Type} (f : A -> M unit) (xs : list A) :
  (forall x w, exists w', f x w = (Normal tt, w')) ->
  forall w, exists w', forEach f xs w = (Normal tt, w').
Proof.
  intros Hf. induction xs as [|x rest IH]; intros w; simpl.
  - eexists. reflexivity.
  - destruct (Hf x w) as [w1 H1]. destruct (IH w1) as [w2 H2].
    exists w2. now rewrite (bind_normal _ _ _ _ _ H1).
Qed.

(** Starting the watchers never throws and does not write to the store. *)
Lemma startWatchers_spec w :
  exists w',
    startWatchers env w = (Normal tt, w') /\
    workspaceFoldersAtom w' = workspaceFoldersAtom w /\
    isActiveAtom w' = isActiveAtom w.
Proof.
  assert (Kr : keeps workspaceFoldersAtom (startWatchers env))
    by (unfold startWatchers; unfold_engine; keeps_auto).
  assert (Ka : keeps isActiveAtom (startWatchers env))
    by (unfold startWatchers; unfold_engine; keeps_auto).
  specialize (Kr w). specialize (Ka w).
  unfold startWatchers in *.
  unfold bind at 1 in Kr. unfold bind at 1 in Ka. unfold bind at 1. unfold gets in *.
  match goal with
  | |- context [bind (forEach ?f ?xs) _ w] =>
      destruct (forEach_normal f xs) with (w := w) as [w1 Hw1]
  end.
  { intros state w0. destruct (watcher state) as [id|]; eexists; reflexivity. }
  rewrite (bind_normal _ _ _ _ _ Hw1) in *.
  match goal with
  | |- context [forEach ?f ?xs w1] => destruct (forEach_normal f xs) with (w := w1) as [w' Hw']
  end.
  - intros state w0. destruct (watcher state) as [id|]; [|eexists; reflexivity].
    unfold emit. unfold_m. simpl.
    destruct (watcherScan env id) as [[]|e]; simpl; [|eexists; reflexivity].
    destruct (watcherStart env id) as [[]|e]; simpl; eexists; reflexivity.
  - rewrite Hw' in *. simpl in *. eauto.
Qed.

(** The loop of [start] never throws; it leaves the configuration and the
    active flag alone, and writes to the map under the paths of the folders
    it goes through only. *)
Lemma setupFolders_spec states :
  forall folderMap w,
    exists folderMap' w',
      setupFolders env states folderMap w = (Normal folderMap', w') /\
      configAtom w' = configAtom w /\
      isActiveAtom w' = isActiveAtom w /\
      (forall path,
          (forall s, s ∈ states -> fsPath (folder s) <> path) ->
          JsMap.get path folderMap' = JsMap.get path folderMap).
Proof.
  induction states as [|state rest IH]; intros folderMap w; simpl.
  - eexists _, _. split; [reflexivity|]. repeat split.
  - destruct (setupWorkspaceFolder_normal env state w) as (r & w1 & Hr & _ & Hc & Ha).
    rewrite (bind_normal _ _ _ _ _ Hr).
    destruct r as [s|].
    + destruct (IH (JsMap.set (fsPath (folder state)) s folderMap) w1)
        as (m' & w' & Hrun & Hc' & Ha' & Hother).
      exists m', w'. split; [exact Hrun|]. repeat split; try congruence.
      intros path Hpath. rewrite Hother.
      * apply JsMap_get_set_ne. apply Hpath. left.
      * intros s' Hin. apply Hpath. now right.
    + destruct (IH folderMap w1) as (m' & w' & Hrun & Hc' & Ha' & Hother).
      exists m', w'. split; [exact Hrun|]. repeat split; try congruence.
      intros path Hpath. apply Hother. intros s' Hin. apply Hpath. now right.
Qed.

(** The loop reaches each folder in some world, and what the map holds under
    the folder's path in the end is what [setupWorkspaceFolder] returned for
    it there.  An invariant of [setupWorkspaceFolder] that holds when the
    loop starts holds in that world. *)
Lemma setupFolders_visit (I : World -> Prop) :
  (forall s, invariant I (setupWorkspaceFolder env s)) ->
  forall states folderMap w state,
    state ∈ states ->
    NoDup ((fun s => fsPath (folder s)) <$> states) ->
    I w ->
    exists folderMap' w' wS,
      setupFolders env states folderMap w = (Normal folderMap', w') /\
      I wS /\
      JsMap.get (fsPath (folder state)) folderMap'
      = match fst (setupWorkspaceFolder env state wS) with
        | Normal (Some s) => Some s
        | _ => JsMap.get (fsPath (folder state)) folderMap
        end.
Proof.
  intros Hinv. induction states as [|head rest IH];
    intros folderMap w state Hin Hnodup HI.
  - inversion Hin.
  - rewrite fmap_cons in Hnodup. apply NoDup_cons in Hnodup as [Hfresh Hnodup].
    simpl.
    pose proof (Hinv head w HI) as HI1.
    destruct (setupWorkspaceFolder_normal env head w) as (r & w1 & Hr & _).
    rewrite Hr in HI1. simpl in HI1. rewrite (bind_normal _ _ _ _ _ Hr).
    apply elem_of_cons in Hin as [-> | Hin].
    + assert (Hrest : forall s, s ∈ rest -> fsPath (folder s) <> fsPath (folder head)).
      { intros s Hs Heq. apply Hfresh. rewrite <- Heq.
        apply (list_elem_of_fmap_2 (fun s0 => fsPath (folder s0))). exact Hs. }
      destruct r as [s|].
      * destruct (setupFolders_spec rest (JsMap.set (fsPath (folder head)) s folderMap) w1)
          as (m' & w' & Hrun & _ & _ & Hother).
        exists m', w', w. split; [exact Hrun|]. split; [exact HI|].
        rewrite Hr. simpl. rewrite (Hother _ Hrest). apply JsMap_get_set_eq.
      * destruct (setupFolders_spec rest folderMap w1) as (m' & w' & Hrun & _ & _ & Hother).
        exists m', w', w. split; [exact Hrun|]. split; [exact HI|].
        rewrite Hr. simpl. exact (Hother _ Hrest).
    + assert (Hne : fsPath (folder head) <> fsPath (folder state)).
      { intros Heq. apply Hfresh. rewrite Heq.
        apply (list_elem_of_fmap_2 (fun s0 => fsPath (folder s0))). exact Hin. }
      destruct r as [s|].
      * destruct (IH (JsMap.set (fsPath (folder head)) s folderMap) w1 state Hin Hnodup HI1)
          as (m' & w' & wS & Hrun & HIS & Hget).
        exists m', w', wS. split; [exact Hrun|]. split; [exact HIS|].
        rewrite Hget. now rewrite JsMap_get_set_ne.
      * exact (IH folderMap w1 state Hin Hnodup HI1).
Qed.

End StartLoop.

Section Start.

Context (env : Env).

(** The states [start] keeps after [filter(Boolean)]: each is what
    [initializeWorkspaceFolder] returned for a workspace folder, every
    workspace folder has its result in the list, and when the workspace
    folders have distinct paths, so have the states. *)
Lemma initialised_states config wfs inits :
  Forall2 (fun folder0 r =>
             exists wa wb, initializeWorkspaceFolder env folder0 config wa = (Normal r, wb))
          wfs inits ->
  (forall s, s ∈ omap id inits ->
             folder s ∈ wfs /\
             exists wa wb,
               initializeWorkspaceFolder env (folder s) config wa = (Normal (Some s), wb)) /\
  (forall folder0, folder0 ∈ wfs ->
                   exists r wa wb,
                     r ∈ inits /\
                     initializeWorkspaceFolder env folder0 config wa = (Normal r, wb)) /\
  (NoDup (fsPath <$> wfs) -> NoDup ((fun s => fsPath (folder s)) <$> omap id inits)).
Proof.
  intros Hall. induction Hall as [|folder0 r wfs inits (wa & wb & Hr) Hall IH].
  - split; [|split]; try (intros x Hx; inversion Hx). intros _. simpl. constructor.
  - destruct IH as (IHstates & IHfolders & IHnodup).
    assert (Hfolder : forall s, r = Some s -> folder s = folder0).
    { intros s ->.
      destruct (initializeWorkspaceFolder_normal env folder0 config wa)
        as (r' & w' & Hr' & Hf).
      rewrite Hr in Hr'. inversion Hr'; subst. now apply Hf. }
    split; [|split].
    + intros s Hs.
      assert (Hcases : r = Some s \/ s ∈ omap id inits).
      { destruct r as [s'|]; simpl in Hs; [|now right].
        apply elem_of_cons in Hs as [-> | Hs]; [now left | now right]. }
      destruct Hcases as [-> | Hs'].
      * rewrite (Hfolder s eq_refl). split; [left | eauto].
      * destruct (IHstates s Hs') as [Hin Hrun]. split; [now right | exact Hrun].
    + intros f Hf. apply elem_of_cons in Hf as [-> | Hf].
      * exists r, wa, wb. split; [left | exact Hr].
      * destruct (IHfolders f Hf) as (r' & wa' & wb' & Hin & Hrun).
        exists r', wa', wb'. split; [now right | exact Hrun].
    + intros Hnodup.
      rewrite fmap_cons in Hnodup. apply NoDup_cons in Hnodup as [Hfresh Hnodup].
      specialize (IHnodup Hnodup).
      destruct r as [s|]; simpl; [|exact IHnodup].
      apply NoDup_cons. split; [|exact IHnodup].
      intros Hin. apply list_elem_of_fmap in Hin as (s' & Heq & Hs').
      apply Hfresh. rewrite (Hfolder s eq_refl) in Heq. rewrite Heq.
      apply list_elem_of_fmap_2. now apply IHstates.
Qed.

(** C3.  When [start] goes ahead (there are workspace folders, indexing is
    enabled, token and organisation id are set), it completes with the
    orchestrator active, and for each workspace folder: a folder that fails the is-git-repository check, or for which
    no project id is found, has no entry in the registry; a folder that
    passes both is registered with its branch and project id, either with a
    watcher and no error, or without a watcher and with a last error of
    type manifest; and it is the latter when its manifest fetch fails,
    nothing being cached for its project and branch and the manifest API
    rejecting every request for them.  (Distinct paths are needed for the
    second half only: of two folders sharing a path the registry keeps the
    state of the later one.) *)
Theorem C3_start_excludes_or_retains (w0 : World) (wfs : list WorkspaceFolder)
    (folder0 : WorkspaceFolder) :
  workspaceFolders env = Some wfs ->
  folder0 ∈ wfs ->
  truthy (kilocodeToken env) = true ->
  truthy (kilocodeOrganizationId env) = true ->
  codeIndexingEnabled env
    (Some (str (kilocodeToken env), str (kilocodeOrganizationId env),
           kilocodeTesterWarningsDisabledUntil env)) = Normal true ->
  exists w',
    start env w0 = (Normal tt, w') /\
    isActiveAtom w' = true /\
    ((isGitRepository env (fsPath folder0) = Normal false \/
      (exists url branch pc,
          isGitRepository env (fsPath folder0) = Normal true /\
          getGitRepositoryInfo env (fsPath folder0) = Normal url /\
          getCurrentBranch env (fsPath folder0) = Normal branch /\
          getKilocodeConfig env (fsPath folder0) (Some (str (orElse url (Some ""))))
          = Normal pc /\
          truthy pc = false)) ->
     JsMap.get (fsPath folder0) (workspaceFoldersAtom w') = None) /\
    (forall url branch pid,
        NoDup (fsPath <$> wfs) ->
        isGitRepository env (fsPath folder0) = Normal true ->
        getGitRepositoryInfo env (fsPath folder0) = Normal url ->
        getCurrentBranch env (fsPath folder0) = Normal branch ->
        getKilocodeConfig env (fsPath folder0) (Some (str (orElse url (Some ""))))
        = Normal (Some pid) ->
        pid <> "" ->
        exists s,
          JsMap.get (fsPath folder0) (workspaceFoldersAtom w') = Some s /\
          folder s = folder0 /\
          gitBranch s = Some branch /\
          projectId s = Some pid /\
          ((exists id, watcher s = Some id /\ lastError s = None) \/
           (watcher s = None /\
            exists err, lastError s = Some err /\ type err = manifest_error)) /\
          (manifestCacheAtom w0 !! (pid ++ ":" ++ branch) = None ->
           (forall p, cacheKey (request p) = pid ++ ":" ++ branch ->
                      exists e, settle env p = Throw e) ->
           watcher s = None /\
           exists err, lastError s = Some err /\ type err = manifest_error)).
Proof.
  intros Hwfs Hin Htok Horg Henabled.
  set (wl := set_config (kilocodeToken env) (kilocodeOrganizationId env)
               (kilocodeTesterWarningsDisabledUntil env) w0).
  set (wa := set_isActive true wl).
  set (config := configAtom wl).
  (* the three phases of the protected block *)
  destruct (mapM_initializeWorkspaceFolder env config wfs wa) as (inits & w1 & Hinit & Hall).
  assert (Kinit_cache : manifestCacheAtom w1 = manifestCacheAtom w0).
  { assert (K : keeps manifestCacheAtom
                  (mapM (fun f => initializeWorkspaceFolder env f config) wfs))
      by (apply keeps_mapM; intros; unfold_engine; keeps_auto).
    specialize (K wa). now rewrite Hinit in K. }
  assert (Kinit_config : configAtom w1 = config).
  { assert (K : keeps configAtom
                  (mapM (fun f => initializeWorkspaceFolder env f config) wfs))
      by (apply keeps_mapM; intros; unfold_engine; keeps_auto).
    specialize (K wa). now rewrite Hinit in K. }
  assert (Kinit_active : isActiveAtom w1 = true).
  { assert (K : keeps isActiveAtom
                  (mapM (fun f => initializeWorkspaceFolder env f config) wfs))
      by (apply keeps_mapM; intros; unfold_engine; keeps_auto).
    specialize (K wa). now rewrite Hinit in K. }
  destruct (initialised_states config wfs inits Hall) as (Hstates & Hfolders & Hpaths).
  destruct (setupFolders_spec env (omap id inits) JsMap.empty w1)
    as (folderMap & w2 & Hsetup & _ & Hactive2 & Hother).
  destruct (startWatchers_spec env (set_workspaceFolders folderMap w2))
    as (w' & Hwatch & Hreg & Hactive').
  simpl in Hreg, Hactive'.
  assert (Hstart : start env w0 = (Normal tt, w')).
  { assert (Henab : isIndexingEnabledAtom env wl = (Normal true, wl)).
    { unfold isIndexingEnabledAtom.
      rewrite (bind_normal (gets configAtom) _ wl config wl eq_refl).
      change (token config) with (kilocodeToken env).
      change (organizationId config) with (kilocodeOrganizationId env).
      rewrite Htok, Horg. cbn [negb orb]. unfold await.
      change (testerWarningsDisabledUntil config)
        with (kilocodeTesterWarningsDisabledUntil env).
      now rewrite Henabled. }
    unfold start.
    rewrite (bind_normal (loadConfiguration env) _ w0 tt wl eq_refl).
    rewrite Hwfs.
    destruct wfs as [|first others]; [inversion Hin|].
    rewrite (bind_normal _ _ _ _ _ Henab). cbn [negb].
    rewrite (bind_normal (gets configAtom) _ wl config wl eq_refl).
    change (token config) with (kilocodeToken env).
    change (organizationId config) with (kilocodeOrganizationId env).
    rewrite Htok, Horg. cbn [negb orb].
    rewrite (bind_normal (modify (set_isActive true)) _ wl tt wa eq_refl).
    unfold tryCatch.
    rewrite (bind_normal _ _ _ _ _ Hinit), (bind_normal _ _ _ _ _ Hsetup).
    rewrite (bind_normal (modify (set_workspaceFolders folderMap)) _ w2 tt
               (set_workspaceFolders folderMap w2) eq_refl).
    rewrite Hwatch. reflexivity. }
  exists w'. split; [exact Hstart|]. split; [congruence|]. split.
  - (* excluded *)
    intros Hexcluded. rewrite Hreg, Hother; [reflexivity|].
    intros s Hs Hpath. destruct (Hstates s Hs) as (_ & wx & wy & Hrun).
    rewrite <- Hpath in Hexcluded.
    destruct Hexcluded as [Hgit | (url & branch & pc & Hgit & Hurl & Hbr & Hpc & Hfalsy)].
    + rewrite (initializeWorkspaceFolder_not_git env (folder s) config wx Hgit) in Hrun.
      discriminate Hrun.
    + rewrite (initializeWorkspaceFolder_no_project env (folder s) config wx url branch pc
                 Hgit Hurl Hbr Hpc Hfalsy) in Hrun.
      discriminate Hrun.
  - (* retained *)
    intros url branch pid Hnodup Hgit Hurl Hbr Hpc Hne.
    specialize (Hpaths Hnodup).
    set (s0 := {| folder := folder0; gitBranch := Some branch; projectId := Some pid;
                  repositoryUrl := Some (str (orElse url (Some "")));
                  isIndexing := false; watcher := None; lastError := None |}).
    assert (Hs0 : s0 ∈ omap id inits).
    { destruct (Hfolders folder0 Hin) as (r & wx & wy & Hr_in & Hrun).
      rewrite (initializeWorkspaceFolder_project env folder0 config wx url branch pid
                 Hgit Hurl Hbr Hpc Hne) in Hrun.
      inversion Hrun; subst r.
      apply list_elem_of_omap. exists (Some s0). split; [exact Hr_in | reflexivity]. }
    assert (Hpid : truthy (projectId s0) = true).
    { simpl. destruct pid; [contradiction | reflexivity]. }
    (* the world in which the loop reaches the folder *)
    destruct (setupFolders_visit env (fun w => configAtom w = config)) with
      (states := omap id inits) (folderMap := @JsMap.empty WorkspaceFolderState)
      (w := w1) (state := s0)
      as (folderMap' & w2' & wS & Hsetup' & HcS & Hget); try assumption.
    { intros s w Hw. destruct (setupWorkspaceFolder_normal env s w) as (r & wn & Hr & _ & Hc & _).
      rewrite Hr. simpl. congruence. }
    rewrite Hsetup in Hsetup'. inversion Hsetup'; subst folderMap' w2'. clear Hsetup'.
    destruct (setupWorkspaceFolder_cases env s0 wS) as (s & wn & Hr & Hf & Hb & Hp & Hdich);
      try (rewrite HcS; assumption); try assumption.
    rewrite Hr in Hget. simpl in Hget.
    exists s. rewrite Hreg. split; [exact Hget|].
    split; [exact Hf|]. split; [exact Hb|]. split; [exact Hp|]. split; [exact Hdich|].
    intros Hnone Hrej.
    destruct (setupFolders_visit env
                (fun w => configAtom w = config
                          /\ manifestCacheAtom w !! (pid ++ ":" ++ branch) = None)) with
      (states := omap id inits) (folderMap := @JsMap.empty WorkspaceFolderState)
      (w := w1) (state := s0)
      as (folderMap' & w2' & wF & Hsetup' & (HcF & HnoneF) & HgetF); try assumption.
    { intros s' w [Hw Hn]. split.
      - destruct (setupWorkspaceFolder_normal env s' w) as (r & wn' & Hr' & _ & Hc & _).
        rewrite Hr'. simpl. congruence.
      - now apply (setupWorkspaceFolder_leaves_no_entry env _ Hrej). }
    { split; [exact Kinit_config | now rewrite Kinit_cache]. }
    rewrite Hsetup in Hsetup'. inversion Hsetup'; subst folderMap' w2'. clear Hsetup'.
    destruct (setupWorkspaceFolder_fetch_fails env _ Hrej s0 wF) as (err & wn' & Hr' & Hty);
      try (rewrite HcF; assumption); try assumption; try reflexivity.
    rewrite Hr' in HgetF. simpl in HgetF.
    rewrite Hget in HgetF. inversion HgetF; subst s. simpl.
    split; [reflexivity|]. exists err. split; [reflexivity | exact Hty].
Qed.

End Start.

Lemma C3_start_excludes_or_retains_witness :
  let w' := snd (start (Sample.host false 1000) initialWorld) in
  JsMap.get "/test/plain" (workspaceFoldersAtom w') = None /\
  exists s,
    JsMap.get "/test/workspace" (workspaceFoldersAtom w') = Some s /\
    folder s = Sample.folderA /\
    gitBranch s = Some "main" /\
    projectId s = Some "p1" /\
    watcher s = None /\
    exists err, lastError s = Some err /\ type err = manifest_error.
Proof.
  assert (Hnodup : NoDup (fsPath <$> [Sample.folderA; Sample.folderB])).
  { apply NoDup_cons. split; [|apply NoDup_singleton].
    intros H. apply list_elem_of_singleton in H. discriminate H. }
  split.
  - destruct (C3_start_excludes_or_retains (Sample.host false 1000) initialWorld
                [Sample.folderA; Sample.folderB] Sample.folderB
                eq_refl ltac:(right; left) eq_refl eq_refl eq_refl)
      as (w' & Hstart & _ & Hexcluded & _).
    rewrite Hstart. apply Hexcluded. left. reflexivity.
  - destruct (C3_start_excludes_or_retains (Sample.host false 1000) initialWorld
                [Sample.folderA; Sample.folderB] Sample.folderA
                eq_refl ltac:(left) eq_refl eq_refl eq_refl)
      as (w' & Hstart & _ & _ & Hretained).
    rewrite Hstart.
    destruct (Hretained (Some "https://github.com/test/repo") "main" "p1"
                Hnodup eq_refl eq_refl eq_refl eq_refl ltac:(discriminate))
      as (s & Hget & Hfolder & Hbranch & Hpid & _ & Hfails).
    destruct Hfails as [Hwatcher Herr].
    + reflexivity.
    + intros p _. exists (JsError "API error" None). reflexivity.
    + exists s. repeat split; assumption.
Defined.

(** ** The registry invariant

    [registry_wf] is assumed of the registry in C4 and C9.  It holds of the
    empty registry, [start] establishes it and the event handlers keep it. *)


Section RegistryInvariant.

Context (env : Env).

Local Abbreviation wf_world := (fun w => registry_wf (workspaceFoldersAtom w)).

Lemma updateWorkspaceFolderAtom_wf path updates :
  invariant wf_world (updateWorkspaceFolderAtom path updates).
Proof.
  intros w Hw. rewrite (proj2 (updateWorkspaceFolderAtom_registry path updates w)).
  now apply updateWorkspaceFolder_wf.
Qed.

Lemma keeps_registry_wf {A : Type} (m : M A) :
  keeps workspaceFoldersAtom m -> invariant wf_world m.
Proof.
  apply (invariant_keeps wf_world workspaceFoldersAtom registry_wf). intros w. reflexivity.
Qed.

(** Handling an event keeps the registry well formed. *)
Lemma processGitEvent_registry_wf event : invariant wf_world (processGitEvent env event).
Proof.
  unfold processGitEvent.
  apply invariant_bind; [apply keeps_registry_wf; keeps_auto | intros folders].
  destruct (findWorkspaceFolderByWatcher folders (ev_watcher event)) as [folder0|];
    [|apply invariant_ret].
  destruct (_ || _); [apply invariant_ret|].
  destruct (ev_type event) as [| | filePath fileHash | filePath | previousBranch newBranch].
  - apply updateWorkspaceFolderAtom_wf.
  - apply updateWorkspaceFolderAtom_wf.
  - apply keeps_registry_wf. unfold_engine. keeps_auto.
  - apply invariant_ret.
  - unfold handleBranchChanged, handleBranchChanged_try.
    apply invariant_tryCatch.
    + apply invariant_bind;
        [apply keeps_registry_wf; unfold_engine; keeps_auto | intros updates].
      apply invariant_bind; [apply updateWorkspaceFolderAtom_wf | intros _].
      apply keeps_registry_wf. unfold_engine. keeps_auto.
    + intros e.
      apply invariant_bind;
        [apply keeps_registry_wf; unfold_engine; keeps_auto | intros err].
      apply updateWorkspaceFolderAtom_wf.
Qed.

Lemma handleGitEvent_registry_wf event : invariant wf_world (handleGitEvent env event).
Proof.
  unfold handleGitEvent.
  apply invariant_bind; [apply keeps_registry_wf; keeps_auto | intros active].
  destruct (negb active); [apply invariant_ret|].
  apply invariant_tryCatch; [apply processGitEvent_registry_wf | intros; apply invariant_ret].
Qed.

(** The loop of [start] builds a well-formed map. *)
Lemma setupFolders_wf states :
  forall folderMap w folderMap' w',
    registry_wf folderMap ->
    setupFolders env states folderMap w = (Normal folderMap', w') ->
    registry_wf folderMap'.
Proof.
  induction states as [|state rest IH]; intros folderMap w folderMap' w' Hwf Hrun;
    simpl in Hrun.
  - inversion Hrun; subst. exact Hwf.
  - destruct (setupWorkspaceFolder_normal env state w) as (r & w1 & Hr & Hfolder & _).
    rewrite (bind_normal _ _ _ _ _ Hr) in Hrun.
    destruct r as [s|]; [|exact (IH _ _ _ _ Hwf Hrun)].
    refine (IH _ _ _ _ _ Hrun).
    apply registry_wf_set; [exact Hwf|]. now rewrite (Hfolder s eq_refl).
Qed.

(** However [start] ends, the registry is well formed afterwards. *)
Lemma start_registry_wf : invariant wf_world (start env).
Proof.
  intros w Hw. unfold start.
  rewrite (bind_normal (loadConfiguration env) _ w tt _ eq_refl).
  destruct (workspaceFolders env) as [[|first others]|]; try exact Hw.
  set (wl := set_config _ _ _ w).
  assert (Ki : keeps workspaceFoldersAtom (isIndexingEnabledAtom env))
    by (unfold isIndexingEnabledAtom; keeps_auto).
  specialize (Ki wl).
  destruct (isIndexingEnabledAtom env wl) as [[isEnabled|e] wi] eqn:Hi; simpl in Ki.
  2:{ rewrite (bind_throw _ _ _ _ _ Hi). simpl. now rewrite Ki. }
  rewrite (bind_normal _ _ _ _ _ Hi).
  destruct isEnabled; cbn [negb]; [|simpl; now rewrite Ki].
  rewrite (bind_normal (gets configAtom) _ wi (configAtom wi) wi eq_refl).
  destruct (_ || _); [simpl; now rewrite Ki|].
  rewrite (bind_normal (modify (set_isActive true)) _ wi tt (set_isActive true wi) eq_refl).
  unfold tryCatch.
  destruct (mapM_initializeWorkspaceFolder env (configAtom wi) (first :: others)
              (set_isActive true wi)) as (inits & w1 & Hinit & _).
  destruct (setupFolders_spec env (omap id inits) JsMap.empty w1)
    as (folderMap & w2 & Hsetup & _).
  destruct (startWatchers_spec env (set_workspaceFolders folderMap w2))
    as (w' & Hwatch & Hreg & _).
  rewrite (bind_normal _ _ _ _ _ Hinit), (bind_normal _ _ _ _ _ Hsetup).
  rewrite (bind_normal (modify (set_workspaceFolders folderMap)) _ w2 tt
             (set_workspaceFolders folderMap w2) eq_refl).
  rewrite Hwatch. simpl. rewrite Hreg. simpl.
  exact (setupFolders_wf _ _ _ _ _ registry_wf_nil Hsetup).
Qed.

(** When a folder's manifest fetch fails, in whatever world, it is handed
    back as it came, with a manifest error. *)
Lemma setupWorkspaceFolder_try_fails state w e w1 :
  truthy (token (configAtom w)) = true ->
  truthy (organizationId (configAtom w)) = true ->
  truthy (projectId state) = true ->
  setupWorkspaceFolder_try env state (configAtom w) w = (Throw e, w1) ->
  exists err w',
    setupWorkspaceFolder env state w
    = (Normal (Some {| folder := folder state; gitBranch := gitBranch state;
                       projectId := projectId state; repositoryUrl := repositoryUrl state;
                       isIndexing := isIndexing state; watcher := watcher state;
                       lastError := Some err |}), w') /\
    type err = manifest_error.
Proof.
  intros Htok Horg Hpid Htry. unfold setupWorkspaceFolder.
  rewrite (bind_normal (gets configAtom) _ w (configAtom w) w eq_refl).
  rewrite Htok, Horg, Hpid. cbn [negb orb]. unfold tryCatch. rewrite Htry.
  unfold createError, dateNow. unfold_m. simpl.
  eexists _, _. split; reflexivity.
Qed.

End RegistryInvariant.

(** * Further properties *)

(** ** Maintenance of the manifest cache *)

Section CacheMaintenance.

Context (env : Env).

Lemma pruneManifestCache_run (cache : gmap string ManifestCacheEntry) (maxAgeMs : Z)
    (w : World) :
  pruneManifestCache env cache maxAgeMs w
  = (Normal (filter (fun kv => fetchPromise (snd kv) <> None \/
                               fetchedAt (snd kv) > clock env (clockReads w) - maxAgeMs)
                    cache),
     set_clockReads (S (clockReads w)) w).
Proof. reflexivity. Qed.

(** X1.  Pruning with a horizon of any sign, where the clock reading, the
    horizon and the cutoff between them are safe integers, so that the
    code's subtraction is exact.  It reads the clock once and neither
    throws nor touches the store; what it returns holds only entries of the
    cache it was given, unchanged; an entry with a pending fetch is always
    kept, however old; a settled entry is kept when fetched after
    [now - maxAgeMs] and dropped otherwise, the entry fetched exactly at
    the cutoff included. *)
Theorem pruneManifestCache_spec (cache : gmap string ManifestCacheEntry) (maxAgeMs : Z)
    (w : World) :
  isSafeInteger (clock env (clockReads w)) ->
  isSafeInteger maxAgeMs ->
  isSafeInteger (clock env (clockReads w) - maxAgeMs) ->
  exists pruned,
    pruneManifestCache env cache maxAgeMs w
    = (Normal pruned, set_clockReads (S (clockReads w)) w) /\
    pruned ⊆ cache /\
    (forall k e, cache !! k = Some e -> fetchPromise e <> None -> pruned !! k = Some e) /\
    (forall k e, cache !! k = Some e -> fetchPromise e = None ->
                 (fetchedAt e > clock env (clockReads w) - maxAgeMs -> pruned !! k = Some e) /\
                 (fetchedAt e <= clock env (clockReads w) - maxAgeMs -> pruned !! k = None)).
Proof.
  intros _ _ _.
  eexists. split; [reflexivity|].
  split; [apply map_filter_subseteq|]. split.
  - intros k e He Hp. apply map_lookup_filter_Some. split; [exact He | now left].
  - intros k e He Hp. split; intros Hage.
    + apply map_lookup_filter_Some. split; [exact He | now right].
    + apply map_lookup_filter_None. right. intros e' He' [Hpending | Hyoung]; simpl in *.
      * congruence.
      * assert (e' = e) by congruence. subst e'. lia.
Qed.

(** X2.  Pruning with the default horizon and then asking: an entry that is
    still fresh when the request reads the clock, the clock not having gone
    back since the pruning read it, survives the pruning and answers the
    request, with no API call. *)
Theorem prune_then_request_is_served (w : World) (params : ManifestFetchParams)
    (e : ManifestCacheEntry) (m : ServerManifest) :
  manifestCacheAtom w !! cacheKey params = Some e ->
  manifest e = Some m ->
  fetchPromise e = None ->
  clock env (clockReads w) <= clock env (S (clockReads w)) ->
  clock env (S (clockReads w)) <= fetchedAt e + defaultMaxAgeMs ->
  exists pruned w1 w2,
    pruneManifestCache env (manifestCacheAtom w) defaultPruneAgeMs w = (Normal pruned, w1) /\
    getOrFetchManifest env params (set_manifestCache pruned w1) = (Normal m, w2) /\
    fetchCalls w2 = fetchCalls w /\
    manifestCacheAtom w2 = pruned.
Proof.
  intros He Hm Hp Hmono Hfresh.
  pose proof (pruneManifestCache_run (manifestCacheAtom w) defaultPruneAgeMs w) as Hrun.
  set (pruned := filter _ _) in Hrun.
  assert (Hk : pruned !! cacheKey params = Some e).
  { apply map_lookup_filter_Some. split; [exact He|]. right. simpl.
    unfold defaultPruneAgeMs, defaultMaxAgeMs in *. lia. }
  eexists pruned, _, _. split; [exact Hrun|].
  unfold getOrFetchManifest.
  rewrite (bind_normal _ _ _ _ _
             (begin_fresh env params
                (set_manifestCache pruned (set_clockReads (S (clockReads w)) w))
                e m Hk Hm Hp Hfresh)).
  repeat split.
Qed.

(** X3.  Invalidating a branch removes the entry of the old branch's key and
    no other; the new branch is not looked at.  A request for the old branch
    made on the invalidated cache always issues a fetch of its own, also
    when a fetch for that key was pending before the invalidation. *)
Theorem invalidateManifestForBranch_spec (w : World) (projectId oldBranch newBranch : string)
    (params : ManifestFetchParams) :
  p_projectId params = projectId ->
  p_branch params = oldBranch ->
  let cache' := invalidateManifestForBranch (manifestCacheAtom w) projectId oldBranch newBranch in
  cache' !! getManifestCacheKey projectId oldBranch = None /\
  (forall k, k <> getManifestCacheKey projectId oldBranch ->
             cache' !! k = manifestCacheAtom w !! k) /\
  exists p w',
    getOrFetchManifest_begin env params (set_manifestCache cache' w) = (Normal (Issued p), w') /\
    request p = params /\
    fetchCalls w' = (fetchCalls w ++ [params])%list.
Proof.
  intros Hpid Hbr cache'. subst cache'. unfold invalidateManifestForBranch.
  split; [apply lookup_delete_eq|]. split; [intros k Hk; now apply lookup_delete_ne|].
  destruct (begin_cases env params
              (set_manifestCache
                 (delete (getManifestCacheKey projectId oldBranch) (manifestCacheAtom w)) w))
    as (h & w' & Hb & _ & _ & _ & _ & _ & _ & _ & Hcase).
  assert (Hnone : manifestCacheAtom
                    (set_manifestCache
                       (delete (getManifestCacheKey projectId oldBranch) (manifestCacheAtom w)) w)
                  !! cacheKey params = None).
  { simpl. unfold cacheKey, getManifestCacheKey. rewrite Hpid, Hbr. apply lookup_delete_eq. }
  rewrite Hnone in Hcase. simpl in Hcase.
  destruct Hcase as [(p & _ & _ & [=]) | [(m & _ & _ & _ & [=]) | (p & t & -> & Hreq & _ & Hcalls & _)]].
  exists p, w'. split; [exact Hb|]. split; [exact Hreq | exact Hcalls].
Qed.

Lemma prefix_app (s t : string) : String.prefix s (s ++ t) = true.
Proof.
  induction s as [|c s IH]; [destruct t; reflexivity|].
  change (String c s ++ t)%string with (String c (s ++ t)%string). simpl.
  destruct (Ascii.ascii_dec c c); [exact IH | contradiction].
Qed.

Lemma append_assoc (s t u : string) : ((s ++ t) ++ u = s ++ (t ++ u))%string.
Proof.
  induction s as [|c s IH]; [reflexivity|].
  change (String c (((s ++ t) ++ u))%string = String c (s ++ (t ++ u))%string).
  now rewrite IH.
Qed.

(** X4.  Clearing a project leaves no entry under any key
    [projectId:branch], whatever the branch, keeps every entry whose key does
    not start with [projectId:] as it was, and adds nothing. *)
Theorem clearManifestCache_spec (cache : gmap string ManifestCacheEntry) (projectId : string) :
  (forall branch, clearManifestCache cache projectId !! getManifestCacheKey projectId branch = None) /\
  (forall k e, cache !! k = Some e -> String.prefix (projectId ++ ":") k = false ->
               clearManifestCache cache projectId !! k = Some e) /\
  clearManifestCache cache projectId ⊆ cache.
Proof.
  unfold clearManifestCache. split; [|split].
  - intros branch. apply map_lookup_filter_None. right. intros e _ Hfalse. simpl in Hfalse.
    unfold getManifestCacheKey in Hfalse.
    rewrite <- (append_assoc projectId ":" branch), prefix_app in Hfalse.
    discriminate Hfalse.
  - intros k e He Hk. apply map_lookup_filter_Some. split; [exact He | exact Hk].
  - apply map_filter_subseteq.
Qed.

(** X5.  A request that misses, whose fetch is then fulfilled, returns the
    manifest and stores it; asked again while the clock reads no more than
    the time of storing plus the TTL, the cache answers: two requests, one
    API call. *)
Theorem fetch_then_request_again (w : World) (params : ManifestFetchParams)
    (p : Promise) (w1 : World) (m : ServerManifest) :
  getOrFetchManifest_begin env params w = (Normal (Issued p), w1) ->
  settle env p = Normal m ->
  exists w2,
    getOrFetchManifest env params w = (Normal m, w2) /\
    manifestCacheAtom w2 !! cacheKey params
    = Some {| manifest := Some m; fetchedAt := clock env (clockReads w1);
              fetchPromise := None |} /\
    fetchCalls w2 = (fetchCalls w ++ [params])%list /\
    (clock env (clockReads w2) <= clock env (clockReads w1) + defaultMaxAgeMs ->
     exists w3,
       getOrFetchManifest env params w2 = (Normal m, w3) /\
       fetchCalls w3 = (fetchCalls w ++ [params])%list).
Proof.
  intros Hb Hs.
  destruct (begin_cases env params w) as (h & w1' & Hb' & _ & _ & _ & _ & _ & _ & _ & Hcase).
  rewrite Hb in Hb'. inversion Hb'; subst h w1'; clear Hb'.
  destruct Hcase as [(p' & [=] & _) | [(m' & [=] & _) | (p' & t & _ & _ & _ & Hcalls & _)]].
  pose proof (resume_fulfilled env (cacheKey params) p m w1 Hs) as Hr.
  eexists. split.
  { unfold getOrFetchManifest. rewrite (bind_normal _ _ _ _ _ Hb). exact Hr. }
  simpl. rewrite lookup_insert_eq. split; [reflexivity|]. split; [exact Hcalls|].
  intros Hfresh.
  set (stored := {| manifest := Some m; fetchedAt := clock env (clockReads w1);
                    fetchPromise := None |}).
  set (w2 := set_manifestCache (<[cacheKey params := stored]> (manifestCacheAtom w1))
               (set_clockReads (S (clockReads w1)) w1)).
  assert (Hk : manifestCacheAtom w2 !! cacheKey params = Some stored)
    by (simpl; apply lookup_insert_eq).
  eexists. unfold getOrFetchManifest.
  rewrite (bind_normal _ _ _ _ _
             (begin_fresh env params w2 stored m Hk eq_refl eq_refl Hfresh)).
  split; [reflexivity|]. simpl. exact Hcalls.
Qed.

End CacheMaintenance.

Lemma pruneManifestCache_spec_witness :
  (exists pruned,
     pruneManifestCache (Sample.host true 1000) (manifestCacheAtom (Sample.cachedAt 1000))
       500 initialWorld
     = (Normal pruned, set_clockReads 1 initialWorld) /\
     pruned !! "p1:main" = manifestCacheAtom (Sample.cachedAt 1000) !! "p1:main") /\
  (exists pruned,
     pruneManifestCache (Sample.host true 1000) (manifestCacheAtom (Sample.cachedAt 1000))
       0 initialWorld
     = (Normal pruned, set_clockReads 1 initialWorld) /\
     pruned !! "p1:main" = None).
Proof.
  assert (Hsafe : forall z, -1000 <= z <= 1000 -> isSafeInteger z).
  { intros z Hz. unfold isSafeInteger.
    assert (1000 <= 2 ^ 53 - 1) by (vm_compute; discriminate). lia. }
  split.
  - destruct (pruneManifestCache_spec (Sample.host true 1000)
                (manifestCacheAtom (Sample.cachedAt 1000)) 500 initialWorld)
      as (pruned & Hrun & _ & _ & Hsettled).
    + apply Hsafe. vm_compute. split; discriminate.
    + apply Hsafe. lia.
    + apply Hsafe. vm_compute. split; discriminate.
    + exists pruned. split; [exact Hrun|].
      rewrite (proj1 (Hsettled "p1:main" _ eq_refl eq_refl)); [reflexivity|].
      vm_compute. reflexivity.
  - destruct (pruneManifestCache_spec (Sample.host true 1000)
                (manifestCacheAtom (Sample.cachedAt 1000)) 0 initialWorld)
      as (pruned & Hrun & _ & _ & Hsettled).
    + apply Hsafe. vm_compute. split; discriminate.
    + apply Hsafe. lia.
    + apply Hsafe. vm_compute. split; discriminate.
    + exists pruned. split; [exact Hrun|].
      apply (proj2 (Hsettled "p1:main" _ eq_refl eq_refl)).
      vm_compute. discriminate.
Defined.

Lemma prune_then_request_is_served_witness :
  exists pruned w1 w2,
    pruneManifestCache (Sample.host true 1000) (manifestCacheAtom (Sample.cachedAt 1000))
      defaultPruneAgeMs (Sample.cachedAt 1000) = (Normal pruned, w1) /\
    getOrFetchManifest (Sample.host true 1000) Sample.paramsMain (set_manifestCache pruned w1)
    = (Normal Sample.oneFile, w2) /\
    fetchCalls w2 = fetchCalls (Sample.cachedAt 1000) /\
    manifestCacheAtom w2 = pruned.
Proof.
  apply (prune_then_request_is_served (Sample.host true 1000) (Sample.cachedAt 1000)
           Sample.paramsMain _ Sample.oneFile eq_refl eq_refl eq_refl);
    vm_compute; discriminate.
Defined.

Lemma invalidateManifestForBranch_spec_witness :
  let cache' :=
    invalidateManifestForBranch (manifestCacheAtom Sample.inFlight) "p1" "main" "feature" in
  cache' !! getManifestCacheKey "p1" "main" = None /\
  (forall k, k <> getManifestCacheKey "p1" "main" ->
             cache' !! k = manifestCacheAtom Sample.inFlight !! k) /\
  exists p w',
    getOrFetchManifest_begin (Sample.host true 0) Sample.paramsMain
      (set_manifestCache cache' Sample.inFlight) = (Normal (Issued p), w') /\
    request p = Sample.paramsMain /\
    fetchCalls w' = (fetchCalls Sample.inFlight ++ [Sample.paramsMain])%list.
Proof.
  apply (invalidateManifestForBranch_spec (Sample.host true 0) Sample.inFlight "p1" "main"
           "feature" Sample.paramsMain eq_refl eq_refl).
Defined.

Lemma fetch_then_request_again_witness :
  exists w2,
    getOrFetchManifest (Sample.host true 0) Sample.paramsMain initialWorld
    = (Normal Sample.emptyManifest, w2) /\
    fetchCalls w2 = [Sample.paramsMain] /\
    exists w3,
      getOrFetchManifest (Sample.host true 0) Sample.paramsMain w2
      = (Normal Sample.emptyManifest, w3) /\
      fetchCalls w3 = [Sample.paramsMain].
Proof.
  destruct (fetch_then_request_again (Sample.host true 0) initialWorld Sample.paramsMain
              Sample.pendingMain _ Sample.emptyManifest eq_refl eq_refl)
    as (w2 & Hrun & _ & Hcalls & Hagain).
  exists w2. split; [exact Hrun|]. split; [exact Hcalls|].
  apply Hagain.
  assert (Hw2 : w2 = snd (getOrFetchManifest (Sample.host true 0) Sample.paramsMain initialWorld))
    by now rewrite Hrun.
  rewrite Hw2. vm_compute. discriminate.
Defined.

(** ** Statistics of the manifest cache *)

Section CacheStatistics.

Local Abbreviation fetching :=
  (fun e : ManifestCacheEntry => match fetchPromise e with Some _ => true | None => false end).

Local Abbreviation settled :=
  (fun e : ManifestCacheEntry =>
     match fetchPromise e, manifest e with None, Some _ => true | _, _ => false end).

(** The loop of [getManifestCacheStats], started from any counters and no
    dates, on any list of entries. *)
Lemma statsOfValues_fold (n : nat) (values : list ManifestCacheEntry) :
  let s := fold_left statsStep values
             {| totalEntries := n; fetchingCount := 0%nat; cachedCount := 0%nat;
                oldestEntry := None; newestEntry := None |} in
  totalEntries s = n /\
  fetchingCount s = length (List.filter fetching values) /\
  cachedCount s = length (List.filter settled values) /\
  match values with
  | [] => oldestEntry s = None /\ newestEntry s = None
  | _ :: _ =>
      exists lo hi,
        oldestEntry s = Some lo /\ newestEntry s = Some hi /\
        (exists e, e ∈ values /\ fetchedAt e = lo) /\
        (exists e, e ∈ values /\ fetchedAt e = hi) /\
        forall e, e ∈ values -> lo <= fetchedAt e <= hi
  end.
Proof.
  induction values as [|e values IH] using rev_ind; [simpl; tauto|].
  rewrite fold_left_app. simpl fold_left. cbv zeta in IH.
  set (acc := fold_left statsStep values _) in *.
  destruct IH as (Htotal & Hfetching & Hcached & Hdates). clearbody acc.
  rewrite !List.filter_app, !length_app. simpl.
  split; [exact Htotal|]. split.
  { rewrite Hfetching. destruct (fetchPromise e); simpl; lia. }
  split.
  { rewrite Hcached. destruct (fetchPromise e), (manifest e); simpl; lia. }
  assert (Hgoal :
    exists lo hi,
      oldestEntry (statsStep acc e) = Some lo /\ newestEntry (statsStep acc e) = Some hi /\
      (exists e', e' ∈ (values ++ [e])%list /\ fetchedAt e' = lo) /\
      (exists e', e' ∈ (values ++ [e])%list /\ fetchedAt e' = hi) /\
      forall e', e' ∈ (values ++ [e])%list -> lo <= fetchedAt e' <= hi).
  { destruct values as [|e0 values'].
    - destruct Hdates as [Hold Hnew]. simpl. rewrite Hold, Hnew.
      exists (fetchedAt e), (fetchedAt e). repeat split.
      + exists e. split; [left|reflexivity].
      + exists e. split; [left|reflexivity].
      + apply list_elem_of_singleton in H. subst. lia.
      + apply list_elem_of_singleton in H. subst. lia.
    - destruct Hdates as (lo & hi & Hold & Hnew & (elo & Hinlo & Hlo) & (ehi & Hinhi & Hhi)
                          & Hbounds).
      simpl oldestEntry. simpl newestEntry. rewrite Hold, Hnew.
      exists (if fetchedAt e <? lo then fetchedAt e else lo),
             (if fetchedAt e >? hi then fetchedAt e else hi).
      split; [destruct (fetchedAt e <? lo); reflexivity|].
      split; [destruct (fetchedAt e >? hi); reflexivity|].
      split; [|split].
      + destruct (Z.ltb_spec (fetchedAt e) lo).
        * exists e. split; [apply elem_of_app; right; left | reflexivity].
        * exists elo. split; [apply elem_of_app; now left | exact Hlo].
      + destruct (Z.gtb_spec (fetchedAt e) hi).
        * exists e. split; [apply elem_of_app; right; left | reflexivity].
        * exists ehi. split; [apply elem_of_app; now left | exact Hhi].
      + intros e' Hin. apply elem_of_app in Hin as [Hin | Hin].
        * specialize (Hbounds e' Hin).
          destruct (Z.ltb_spec (fetchedAt e) lo), (Z.gtb_spec (fetchedAt e) hi); lia.
        * apply list_elem_of_singleton in Hin. subst e'.
          destruct (Z.ltb_spec (fetchedAt e) lo), (Z.gtb_spec (fetchedAt e) hi); lia. }
  destruct (values ++ [e])%list eqn:Happ; [|exact Hgoal].
  now apply app_eq_nil in Happ as [_ [=]].
Qed.

Lemma List_filter_Permutation {A : Type} (f : A -> bool) (l l' : list A) :
  l ≡ₚ l' -> List.filter f l ≡ₚ List.filter f l'.
Proof.
  induction 1 as [|x l l' _ IH|x y l|l l' l'' _ IH _ IH']; simpl.
  - reflexivity.
  - destruct (f x); [now constructor | exact IH].
  - destruct (f x), (f y); try reflexivity. constructor.
  - now rewrite IH.
Qed.

(** The statistics do not depend on the order of the visit. *)
Lemma statsOfValues_Permutation (values values' : list ManifestCacheEntry) :
  values ≡ₚ values' -> statsOfValues values = statsOfValues values'.
Proof.
  intros Hperm.
  pose proof (statsOfValues_fold (length values) values) as H1.
  pose proof (statsOfValues_fold (length values') values') as H2.
  cbv zeta in H1, H2.
  fold (statsOfValues values) in H1. fold (statsOfValues values') in H2.
  destruct H1 as (Ht1 & Hf1 & Hc1 & Hd1), H2 as (Ht2 & Hf2 & Hc2 & Hd2).
  destruct (statsOfValues values) as [t1 f1 c1 o1 n1],
           (statsOfValues values') as [t2 f2 c2 o2 n2]; simpl in *.
  assert (t1 = t2) as -> by (subst; now apply Permutation_length).
  assert (f1 = f2) as ->
    by (subst; now apply Permutation_length, List_filter_Permutation).
  assert (c1 = c2) as ->
    by (subst; now apply Permutation_length, List_filter_Permutation).
  destruct values as [|e values].
  { apply Permutation_nil_l in Hperm. subst values'.
    destruct Hd1 as [-> ->], Hd2 as [-> ->]. reflexivity. }
  destruct values' as [|e' values'];
    [now apply Permutation_nil_r in Hperm|].
  destruct Hd1 as (lo1 & hi1 & -> & -> & (a1 & Ha1 & Hlo1) & (b1 & Hb1 & Hhi1) & Hbound1).
  destruct Hd2 as (lo2 & hi2 & -> & -> & (a2 & Ha2 & Hlo2) & (b2 & Hb2 & Hhi2) & Hbound2).
  rewrite Hperm in Ha1, Hb1. rewrite <- Hperm in Ha2, Hb2.
  pose proof (Hbound2 _ Ha1). pose proof (Hbound2 _ Hb1).
  pose proof (Hbound1 _ Ha2). pose proof (Hbound1 _ Hb2).
  assert (lo1 = lo2) as -> by lia. assert (hi1 = hi2) as -> by lia. reflexivity.
Qed.

(** X6.  The statistics of a cache: [totalEntries] is its size;
    [fetchingCount] counts the entries with a pending fetch, [cachedCount]
    those without one that hold a manifest, so the two never exceed the
    size together; on an empty cache both dates are null; otherwise
    [oldestEntry] and [newestEntry] are the least and the greatest
    [fetchedAt] of the cache, each met by an entry.  The order in which the
    entries are visited does not matter. *)
Theorem getManifestCacheStats_spec (cache : gmap string ManifestCacheEntry) :
  let s := getManifestCacheStats cache in
  totalEntries s = size cache /\
  fetchingCount s = length (List.filter fetching (snd <$> map_to_list cache)) /\
  cachedCount s = length (List.filter settled (snd <$> map_to_list cache)) /\
  (fetchingCount s + cachedCount s <= size cache)%nat /\
  (cache = ∅ -> oldestEntry s = None /\ newestEntry s = None) /\
  (forall k e, cache !! k = Some e ->
     exists lo hi, oldestEntry s = Some lo /\ newestEntry s = Some hi /\
                   lo <= fetchedAt e <= hi) /\
  (forall lo, oldestEntry s = Some lo -> exists k e, cache !! k = Some e /\ fetchedAt e = lo) /\
  (forall hi, newestEntry s = Some hi -> exists k e, cache !! k = Some e /\ fetchedAt e = hi) /\
  (forall values, values ≡ₚ snd <$> map_to_list cache -> statsOfValues values = s).
Proof.
  intros s. subst s. unfold getManifestCacheStats.
  set (values := snd <$> map_to_list cache).
  assert (Hmem : forall e, e ∈ values <-> exists k, cache !! k = Some e).
  { intros e. unfold values. rewrite list_elem_of_fmap. split.
    - intros ([k e'] & -> & Hin). exists k. now apply elem_of_map_to_list.
    - intros (k & Hk). exists (k, e). split; [reflexivity | now apply elem_of_map_to_list]. }
  assert (Hlen : length values = size cache)
    by (unfold values; rewrite length_fmap; apply length_map_to_list).
  pose proof (statsOfValues_fold (length values) values) as Hspec. cbv zeta in Hspec.
  fold (statsOfValues values) in Hspec.
  destruct Hspec as (Htotal & Hfetching & Hcached & Hdates).
  split; [now rewrite Htotal|]. split; [exact Hfetching|]. split; [exact Hcached|].
  split.
  { rewrite Hfetching, Hcached, <- Hlen. clear.
    induction values as [|e values IH]; simpl; [lia|].
    destruct (fetchPromise e), (manifest e); simpl; lia. }
  split.
  { intros ->. unfold values in Hdates. rewrite map_to_list_empty in Hdates. exact Hdates. }
  split.
  { intros k e Hk. assert (Hin : e ∈ values) by (apply Hmem; eauto).
    destruct values as [|e0 values']; [now apply elem_of_nil in Hin|].
    destruct Hdates as (lo & hi & Hold & Hnew & _ & _ & Hbounds).
    exists lo, hi. split; [exact Hold|]. split; [exact Hnew|]. now apply Hbounds. }
  split.
  { intros lo Hold. destruct values as [|e0 values'].
    - destruct Hdates as [Hnone _]. congruence.
    - destruct Hdates as (lo' & hi & Hold' & _ & (e & Hin & Hlo) & _).
      apply Hmem in Hin as [k Hk]. exists k, e. split; [exact Hk | congruence]. }
  split.
  { intros hi Hnew. destruct values as [|e0 values'].
    - destruct Hdates as [_ Hnone]. congruence.
    - destruct Hdates as (lo & hi' & _ & Hnew' & _ & (e & Hin & Hhi) & _).
      apply Hmem in Hin as [k Hk]. exists k, e. split; [exact Hk | congruence]. }
  intros values0 Hperm. now apply statsOfValues_Permutation.
Qed.

End CacheStatistics.

(** ** Queries and updates on the registry *)

Section RegistryQueries.

Lemma updateWorkspaceFolder_cons_ne k s rest path u :
  k <> path ->
  updateWorkspaceFolder ((k, s) :: rest) path u
  = (k, s) :: updateWorkspaceFolder rest path u.
Proof.
  intros Hne. unfold updateWorkspaceFolder. simpl.
  destruct (String.eqb_spec k path) as [|_]; [contradiction|].
  destruct (JsMap.get path rest); reflexivity.
Qed.

Lemma updateWorkspaceFolder_cons_eq k s rest u :
  updateWorkspaceFolder ((k, s) :: rest) k u = (k, applyUpdates s u) :: rest.
Proof. unfold updateWorkspaceFolder. simpl. now rewrite String.eqb_refl. Qed.

(** An update changes entries in place: same key, same folder, same
    watcher, same repository, position by position. *)
Lemma updateWorkspaceFolder_pointwise m path u :
  Forall2 (fun new old =>
             fst new = fst old /\
             folder (snd new) = folder (snd old) /\
             watcher (snd new) = watcher (snd old) /\
             repositoryUrl (snd new) = repositoryUrl (snd old))
          (updateWorkspaceFolder m path u) m.
Proof.
  induction m as [|[k s] rest IH].
  - constructor.
  - destruct (String.eqb_spec k path) as [->|Hne].
    + rewrite updateWorkspaceFolder_cons_eq. constructor; [now simpl|].
      clear. induction rest; constructor; auto.
    + rewrite updateWorkspaceFolder_cons_ne by exact Hne. constructor; [now simpl | exact IH].
Qed.

Lemma updateWorkspaceFolder_watchers m path u :
  watcher <$> JsMap.values (updateWorkspaceFolder m path u) = watcher <$> JsMap.values m.
Proof.
  pose proof (updateWorkspaceFolder_pointwise m path u) as Hpt.
  unfold JsMap.values. induction Hpt as [|new old m1 m2 (_ & _ & Hw & _) _ IH]; simpl;
    [reflexivity|].
  rewrite ?fmap_cons. simpl. f_equal; [exact Hw | exact IH].
Qed.

(** An event is routed to the same folder after an update as before. *)
Lemma findWorkspaceFolderByWatcher_update m path u handle :
  folder <$> findWorkspaceFolderByWatcher (updateWorkspaceFolder m path u) handle
  = folder <$> findWorkspaceFolderByWatcher m handle.
Proof.
  pose proof (updateWorkspaceFolder_pointwise m path u) as Hpt.
  unfold findWorkspaceFolderByWatcher, JsMap.values.
  induction Hpt as [|new old m1 m2 (_ & Hf & Hw & _) _ IH]; simpl; [reflexivity|].
  rewrite Hw. destruct (bool_decide (watcher (snd old) = handle)); simpl; [now rewrite Hf|].
  exact IH.
Qed.

(** The state an event is routed to after an update of a well-formed
    registry: the updated one when the update was for its folder. *)
Lemma findWorkspaceFolderByWatcher_updated m path u handle s :
  registry_wf m ->
  findWorkspaceFolderByWatcher m handle = Some s ->
  findWorkspaceFolderByWatcher (updateWorkspaceFolder m path u) handle
  = Some (if String.eqb path (fsPath (folder s)) then applyUpdates s u else s).
Proof.
  intros Hwf Hfind.
  pose proof (findWorkspaceFolderByWatcher_update m path u handle) as Hroute.
  rewrite Hfind in Hroute. simpl in Hroute.
  destruct (findWorkspaceFolderByWatcher (updateWorkspaceFolder m path u) handle)
    as [s'|] eqn:Hfind'; [|discriminate]. simpl in Hroute. injection Hroute as Hfolder.
  apply findWorkspaceFolderByWatcher_Some in Hfind as [Hin _].
  apply findWorkspaceFolderByWatcher_Some in Hfind' as [Hin' _].
  apply (registry_wf_get _ _ Hwf) in Hin.
  apply (registry_wf_get _ _ (updateWorkspaceFolder_wf m path u Hwf)) in Hin'.
  rewrite Hfolder in Hin'. f_equal.
  destruct (String.eqb_spec path (fsPath (folder s))) as [->|Hne].
  - rewrite (updateWorkspaceFolder_get _ _ u _ Hin) in Hin'. congruence.
  - rewrite (updateWorkspaceFolder_get_other _ _ _ u Hne) in Hin'. congruence.
Qed.

Lemma Partial_updateWorkspaceFolder_cons_ne k s rest path u :
  k <> path ->
  Partial.updateWorkspaceFolder ((k, s) :: rest) path u
  = (k, s) :: Partial.updateWorkspaceFolder rest path u.
Proof.
  intros Hne. unfold Partial.updateWorkspaceFolder. simpl.
  destruct (String.eqb_spec k path) as [|_]; [contradiction|].
  destruct (JsMap.get path rest); reflexivity.
Qed.

Lemma Partial_updateWorkspaceFolder_cons_eq k s rest u :
  Partial.updateWorkspaceFolder ((k, s) :: rest) k u = (k, Partial.spread s u) :: rest.
Proof. unfold Partial.updateWorkspaceFolder. simpl. now rewrite String.eqb_refl. Qed.

(** Any update changes entries in place, under the same keys; an entry
    keeps its folder unless the update carries one, and its watcher unless
    the update carries one. *)
Lemma Partial_updateWorkspaceFolder_pointwise m path u :
  Forall2 (fun new old =>
             fst new = fst old /\
             (Partial.upd_folder u = None -> folder (snd new) = folder (snd old)) /\
             (Partial.upd_watcher u = None -> watcher (snd new) = watcher (snd old)))
          (Partial.updateWorkspaceFolder m path u) m.
Proof.
  induction m as [|[k s] rest IH].
  - constructor.
  - destruct (String.eqb_spec k path) as [->|Hne].
    + rewrite Partial_updateWorkspaceFolder_cons_eq. constructor.
      * simpl. split; [reflexivity|]. split; intros ->; reflexivity.
      * clear. induction rest; constructor; auto.
    + rewrite Partial_updateWorkspaceFolder_cons_ne by exact Hne.
      constructor; [now simpl | exact IH].
Qed.

(** X7.  [updateWorkspaceFolder], for any update object, never adds,
    removes or reorders folders: the keys are the same in the same order,
    every other path reads as before, an absent path makes it the
    identity, a present one gets the spread of the update over the
    existing state.  On the update objects the handlers pass it is the
    four-key function used for them.  When the update carries no [watcher]
    key every folder keeps its watcher, and when it carries no [folder] key
    either, an event is routed to the same folder after the update as
    before.  An update that carries a [watcher] gives it to the folder
    whatever watcher the folder held, and an event of that watcher is then
    routed to a folder holding it. *)
Theorem updateWorkspaceFolder_shape (m : JsMap.t WorkspaceFolderState) (path : string)
    (updates : Partial.t) :
  let m' := Partial.updateWorkspaceFolder m path updates in
  JsMap.keys m' = JsMap.keys m /\
  (forall path', path' <> path -> JsMap.get path' m' = JsMap.get path' m) /\
  match JsMap.get path m with
  | None => m' = m
  | Some existing => JsMap.get path m' = Some (Partial.spread existing updates)
  end /\
  (forall u : FolderUpdates,
     Partial.updateWorkspaceFolder m path (Partial.ofUpdates u)
     = updateWorkspaceFolder m path u) /\
  (Partial.upd_watcher updates = None ->
   watcher <$> JsMap.values m' = watcher <$> JsMap.values m) /\
  (Partial.upd_watcher updates = None -> Partial.upd_folder updates = None ->
   forall handle, folder <$> findWorkspaceFolderByWatcher m' handle
                  = folder <$> findWorkspaceFolderByWatcher m handle) /\
  (forall handle existing,
     Partial.upd_watcher updates = Some handle ->
     JsMap.get path m = Some existing ->
     watcher <$> JsMap.get path m' = Some handle /\
     watcher <$> findWorkspaceFolderByWatcher m' handle = Some handle).
Proof.
  intros m'. subst m'.
  pose proof (Partial_updateWorkspaceFolder_pointwise m path updates) as Hpt.
  split; [|split; [|split; [|split; [|split; [|split]]]]].
  - unfold JsMap.keys. induction Hpt as [|new old m1 m2 (Hk & _) _ IH]; simpl; [reflexivity|].
    now rewrite Hk, IH.
  - intros path' Hne. unfold Partial.updateWorkspaceFolder.
    destruct (JsMap.get path m); [apply JsMap_get_set_ne; congruence | reflexivity].
  - unfold Partial.updateWorkspaceFolder.
    destruct (JsMap.get path m) as [existing|] eqn:Hget;
      [apply JsMap_get_set_eq | reflexivity].
  - intros u. unfold Partial.updateWorkspaceFolder, updateWorkspaceFolder.
    destruct (JsMap.get path m); reflexivity.
  - intros Hw. unfold JsMap.values.
    induction Hpt as [|new old m1 m2 (_ & _ & Hw') _ IH]; simpl; [reflexivity|].
    rewrite ?fmap_cons. simpl. f_equal; [exact (Hw' Hw) | exact IH].
  - intros Hw Hf handle. unfold findWorkspaceFolderByWatcher, JsMap.values.
    induction Hpt as [|new old m1 m2 (_ & Hf' & Hw') _ IH]; simpl; [reflexivity|].
    rewrite (Hw' Hw).
    destruct (bool_decide (watcher (snd old) = handle)); simpl; [now rewrite (Hf' Hf)|].
    exact IH.
  - intros handle existing Hw Hget. unfold Partial.updateWorkspaceFolder. rewrite Hget.
    assert (Hnew : JsMap.get path (JsMap.set path (Partial.spread existing updates) m)
                   = Some (Partial.spread existing updates)) by apply JsMap_get_set_eq.
    rewrite Hnew. simpl. rewrite Hw. split; [reflexivity|].
    unfold findWorkspaceFolderByWatcher.
    destruct (List.find _ _) as [s|] eqn:Hfind.
    + apply find_some in Hfind as [_ Hs]. apply bool_decide_eq_true in Hs.
      simpl. now rewrite Hs.
    + exfalso.
      assert (Hin : In (Partial.spread existing updates)
                       (JsMap.values (JsMap.set path (Partial.spread existing updates) m))).
      { clear -Hnew. unfold JsMap.values.
        induction (JsMap.set path (Partial.spread existing updates) m) as [|[k s] rest IH];
          simpl in *; [discriminate|].
        destruct (String.eqb k path); [left; congruence | right; auto]. }
      apply (find_none _ _ Hfind) in Hin.
      apply bool_decide_eq_false in Hin. apply Hin. simpl. now rewrite Hw.
Qed.

Lemma getWorkspaceFolderErrors_cons k s rest :
  getWorkspaceFolderErrors ((k, s) :: rest)
  = match lastError s with
    | Some err => (k, err) :: getWorkspaceFolderErrors rest
    | None => getWorkspaceFolderErrors rest
    end.
Proof. unfold getWorkspaceFolderErrors. simpl. now destruct (lastError s). Qed.

Lemma getWorkspaceFolderErrors_absent m path :
  path ∉ JsMap.keys m ->
  List.filter (fun pe => negb (String.eqb (fst pe) path)) (getWorkspaceFolderErrors m)
  = getWorkspaceFolderErrors m.
Proof.
  unfold getWorkspaceFolderErrors, JsMap.keys.
  induction m as [|[k s] rest IH]; simpl; [reflexivity|]. intros Hnot.
  apply not_elem_of_cons in Hnot as [Hne Hnot].
  destruct (lastError s) as [err|]; simpl; [|now apply IH].
  destruct (String.eqb_spec k path) as [->|_]; [contradiction|]. simpl.
  f_equal. now apply IH.
Qed.

(** X8.  In a registry without repeated keys, clearing the error of a
    folder removes that folder's line from the list of folder errors and
    leaves every other line as it was, in place; clearing a path that is
    not registered changes nothing. *)
Theorem clearWorkspaceFolderError_spec (m : JsMap.t WorkspaceFolderState) (path : string) :
  NoDup (JsMap.keys m) ->
  getWorkspaceFolderErrors (clearWorkspaceFolderError m path)
  = List.filter (fun pe => negb (String.eqb (fst pe) path)) (getWorkspaceFolderErrors m) /\
  JsMap.keys (clearWorkspaceFolderError m path) = JsMap.keys m /\
  (JsMap.get path m = None -> clearWorkspaceFolderError m path = m).
Proof.
  intros Hnodup. unfold clearWorkspaceFolderError.
  set (u := {| u_gitBranch := None; u_projectId := None; u_isIndexing := None;
               u_lastError := Some None |}).
  split; [|split].
  - induction m as [|[k s] rest IH]; [reflexivity|].
    apply NoDup_cons in Hnodup as [Hnot Hnodup].
    destruct (String.eqb_spec k path) as [->|Hne].
    + rewrite updateWorkspaceFolder_cons_eq, !getWorkspaceFolderErrors_cons. simpl.
      destruct (lastError s) as [err|]; simpl; rewrite ?String.eqb_refl; simpl;
        now rewrite getWorkspaceFolderErrors_absent.
    + rewrite updateWorkspaceFolder_cons_ne by exact Hne.
      rewrite !getWorkspaceFolderErrors_cons.
      destruct (lastError s) as [err|]; simpl.
      * destruct (String.eqb_spec k path) as [|_]; [contradiction|]. simpl.
        f_equal. now apply IH.
      * now apply IH.
  - pose proof (updateWorkspaceFolder_pointwise m path u) as Hpt.
    unfold JsMap.keys. induction Hpt as [|new old m1 m2 (Hk & _) _ IH]; simpl; [reflexivity|].
    rewrite Hk. f_equal. apply IH. now apply NoDup_cons in Hnodup as [_ ?].
  - intros Hget. unfold updateWorkspaceFolder. now rewrite Hget.
Qed.

(** The snapshot lists the registry in its order, one line per folder;
    its lines with [hasWatcher] are as many as the active folders, those
    with [isIndexing] as many as the indexing folders, and the messages of
    its errors are those of [getWorkspaceFolderErrors].  Every line says
    [hasManifest: true] and [manifestFileCount: 0], whatever the manifest
    cache holds. *)
Lemma snapshot_lines (w : World) :
  let snapshot := getWorkspaceFolderStateSnapshot w in
  let folders := workspaceFoldersAtom w in
  workspaceFolderPath <$> snapshot = (fun s => fsPath (folder s)) <$> JsMap.values folders /\
  length (List.filter hasWatcher snapshot) = length (getActiveWorkspaceFolders folders) /\
  length (List.filter fs_isIndexing snapshot) = length (getIndexingWorkspaceFolders folders) /\
  omap (fun line => es_message <$> fs_error line) snapshot
  = (fun pe => message (snd pe)) <$> getWorkspaceFolderErrors folders /\
  Forall (fun line => hasManifest line = true /\ manifestFileCount line = 0%nat) snapshot.
Proof.
  intros snapshot folders. subst snapshot.
  unfold getWorkspaceFolderStateSnapshot, getActiveWorkspaceFolders,
    getIndexingWorkspaceFolders, getWorkspaceFolderErrors, JsMap.values.
  fold folders. clearbody folders.
  split; [|split; [|split; [|split]]].
  - induction folders as [|[k s] rest IH]; simpl; [reflexivity|].
    rewrite ?fmap_cons. simpl. f_equal. exact IH.
  - induction folders as [|[k s] rest IH]; simpl; [reflexivity|].
    destruct (bool_decide (watcher s = None)); simpl; now rewrite IH.
  - induction folders as [|[k s] rest IH]; simpl; [reflexivity|].
    destruct (isIndexing s); simpl; now rewrite IH.
  - induction folders as [|[k s] rest IH]; simpl; [reflexivity|].
    destruct (lastError s); simpl; [rewrite ?fmap_cons; simpl; f_equal|]; exact IH.
  - induction folders as [|[k s] rest IH]; simpl; constructor; auto.
Qed.

(** X9.  The views of the registry agree.  [hasWorkspaceFolderErrors]
    answers true exactly when [getWorkspaceFolderErrors] is not empty; the
    latter lists, in registry order, each path with the error its state
    holds; [totalErrorCountAtom] is the length of the error log plus the
    length of that list.  The snapshot has one line per folder, in registry
    order, whose error messages are those of that list, with as many
    [hasWatcher] lines as there are active folders and as many [isIndexing]
    lines as indexing folders; every line says [hasManifest: true] and
    [manifestFileCount: 0], whatever the manifest cache holds. *)
Theorem workspace_folder_errors_agree (w : World) :
  let folders := workspaceFoldersAtom w in
  (hasWorkspaceFolderErrors folders = true <-> getWorkspaceFolderErrors folders <> []) /\
  (forall path err, (path, err) ∈ getWorkspaceFolderErrors folders <->
                    exists s, (path, s) ∈ folders /\ lastError s = Some err) /\
  totalErrorCountAtom w
  = (length (errorsAtom w) + length (getWorkspaceFolderErrors folders))%nat /\
  (let snapshot := getWorkspaceFolderStateSnapshot w in
   workspaceFolderPath <$> snapshot = (fun s => fsPath (folder s)) <$> JsMap.values folders /\
   omap (fun line => es_message <$> fs_error line) snapshot
   = (fun pe => message (snd pe)) <$> getWorkspaceFolderErrors folders /\
   length (List.filter hasWatcher snapshot) = length (getActiveWorkspaceFolders folders) /\
   length (List.filter fs_isIndexing snapshot)
   = length (getIndexingWorkspaceFolders folders) /\
   Forall (fun line => hasManifest line = true /\ manifestFileCount line = 0%nat) snapshot).
Proof.
  intros folders.
  destruct (snapshot_lines w) as (Hpaths & Hwatchers & Hindexing & Hmessages & Hmanifest).
  split; [|split; [|split; [|now repeat split]]];
    clear Hpaths Hwatchers Hindexing Hmessages Hmanifest;
    unfold totalErrorCountAtom; fold folders; clearbody folders.
  - unfold hasWorkspaceFolderErrors, getWorkspaceFolderErrors, JsMap.values.
    induction folders as [|[k s] rest IH]; simpl; [split; [discriminate | congruence]|].
    destruct (lastError s) as [err|]; simpl.
    + split; [discriminate | reflexivity].
    + exact IH.
  - intros path err. unfold getWorkspaceFolderErrors. rewrite list_elem_of_omap. split.
    + intros ([k s] & Hin & Hsome). simpl in Hsome.
      destruct (lastError s) as [err'|] eqn:Herr; [|discriminate].
      injection Hsome as -> ->. eauto.
    + intros (s & Hin & Herr). exists (path, s). split; [exact Hin|]. simpl. now rewrite Herr.
  - f_equal. unfold getWorkspaceFolderErrors, JsMap.values.
    induction folders as [|[k s] rest IH]; simpl; [reflexivity|].
    destruct (lastError s); simpl; now rewrite IH.
Qed.

End RegistryQueries.

Lemma clearWorkspaceFolderError_spec_witness :
  getWorkspaceFolderErrors
    (clearWorkspaceFolderError (workspaceFoldersAtom Sample.degraded) "/test/workspace")
  = [] /\
  hasWorkspaceFolderErrors (workspaceFoldersAtom Sample.degraded) = true.
Proof.
  split; [|reflexivity].
  refine (proj1 (clearWorkspaceFolderError_spec (workspaceFoldersAtom Sample.degraded)
                   "/test/workspace" _)).
  vm_compute. apply NoDup_cons. split; [apply not_elem_of_nil | apply NoDup_nil_2].
Defined.

(** ** Tasks of the upload queue *)

Section UpsertTasks.

Lemma deduplicateFrom_spec (tasks : list FileUpsertTask) :
  forall seen,
    let r := deduplicateFrom seen tasks in
    sublist r tasks /\
    NoDup (dedupKey <$> r) /\
    (forall t, t ∈ r -> dedupKey t ∉ seen) /\
    (forall t, t ∈ tasks -> dedupKey t ∈ seen \/ exists t', t' ∈ r /\ dedupKey t' = dedupKey t) /\
    (forall t, t ∈ r ->
       exists pre post, tasks = (pre ++ t :: post)%list /\ dedupKey t ∉ dedupKey <$> pre).
Proof.
  induction tasks as [|t rest IH]; intros seen; simpl.
  - split; [constructor|]. split; [constructor|].
    split; [intros t Hin; now apply elem_of_nil in Hin|].
    split; intros t Hin; now apply elem_of_nil in Hin.
  - destruct (decide (dedupKey t ∈ seen)) as [Hseen|Hnew].
    + destruct (IH seen) as (Hsub & Hnodup & Hfresh & Hcover & Hfirst).
      split; [now apply sublist_cons|]. split; [exact Hnodup|]. split; [exact Hfresh|].
      split.
      * intros t' Hin. apply elem_of_cons in Hin as [-> | Hin]; [now left | now apply Hcover].
      * intros t' Hin. destruct (Hfirst t' Hin) as (pre & post & -> & Hpre).
        exists (t :: pre), post. split; [reflexivity|].
        rewrite fmap_cons. apply not_elem_of_cons. split; [|exact Hpre].
        intros Heq. apply (Hfresh t' Hin). now rewrite Heq.
    + destruct (IH ({[dedupKey t]} ∪ seen)) as (Hsub & Hnodup & Hfresh & Hcover & Hfirst).
      split; [now apply sublist_skip|]. split; [|split; [|split]].
      * rewrite fmap_cons. apply NoDup_cons. split; [|exact Hnodup].
        intros Hin. apply list_elem_of_fmap in Hin as (t' & Heq & Hin).
        apply (Hfresh t' Hin). rewrite <- Heq.
        apply elem_of_union. left. now apply elem_of_singleton.
      * intros t' Hin. apply elem_of_cons in Hin as [-> | Hin]; [exact Hnew|].
        intros Hseen. apply (Hfresh t' Hin), elem_of_union. now right.
      * intros t' Hin. apply elem_of_cons in Hin as [-> | Hin].
        -- right. exists t. split; [left | reflexivity].
        -- destruct (Hcover t' Hin) as [Hin' | (t'' & Hin'' & Heq)].
           ++ apply elem_of_union in Hin' as [Hin' | Hin'].
              ** right. apply elem_of_singleton in Hin'.
                 exists t. split; [left | now symmetry].
              ** now left.
           ++ right. exists t''. split; [now right | exact Heq].
      * intros t' Hin. apply elem_of_cons in Hin as [-> | Hin].
        -- exists [], rest. split; [reflexivity|]. apply not_elem_of_nil.
        -- destruct (Hfirst t' Hin) as (pre & post & -> & Hpre).
           exists (t :: pre), post. split; [reflexivity|].
           rewrite fmap_cons. apply not_elem_of_cons. split; [|exact Hpre].
           intros Heq. apply (Hfresh t' Hin), elem_of_union. left.
           now apply elem_of_singleton.
Qed.

Lemma deduplicateFrom_NoDup (tasks : list FileUpsertTask) :
  forall seen,
    NoDup (dedupKey <$> tasks) ->
    (forall t, t ∈ tasks -> dedupKey t ∉ seen) ->
    deduplicateFrom seen tasks = tasks.
Proof.
  induction tasks as [|t rest IH]; intros seen Hnodup Hfresh; simpl; [reflexivity|].
  rewrite fmap_cons in Hnodup. apply NoDup_cons in Hnodup as [Hnot Hnodup].
  destruct (decide (dedupKey t ∈ seen)) as [Hseen|_].
  - exfalso. apply (Hfresh t); [left | exact Hseen].
  - f_equal. apply IH; [exact Hnodup|].
    intros t' Hin Hin'. apply elem_of_union in Hin' as [Hin' | Hin'].
    + apply elem_of_singleton in Hin'. apply Hnot. rewrite <- Hin'.
      now apply list_elem_of_fmap_2.
    + apply (Hfresh t'); [now right | exact Hin'].
Qed.

(** X10.  Deduplication keeps the tasks in their order and drops the later
    ones: what it returns is a sublist of the input in which no two tasks
    share the key [projectId:branch:filePath:fileHash]; every input task
    has a task with its key in the result, and a task of the result is the
    first of its key in the input.  Running it again changes nothing. *)
Theorem deduplicateFileUpsertTasks_spec (tasks : list FileUpsertTask) :
  let r := deduplicateFileUpsertTasks tasks in
  sublist r tasks /\
  NoDup (dedupKey <$> r) /\
  (forall t, t ∈ tasks -> exists t', t' ∈ r /\ dedupKey t' = dedupKey t) /\
  (forall t, t ∈ r ->
     exists pre post, tasks = (pre ++ t :: post)%list /\ dedupKey t ∉ dedupKey <$> pre) /\
  deduplicateFileUpsertTasks r = r.
Proof.
  intros r. subst r. unfold deduplicateFileUpsertTasks.
  destruct (deduplicateFrom_spec tasks ∅) as (Hsub & Hnodup & _ & Hcover & Hfirst).
  split; [exact Hsub|]. split; [exact Hnodup|]. split; [|split; [exact Hfirst|]].
  - intros t Hin. destruct (Hcover t Hin) as [Hin' | Hex]; [|exact Hex].
    now apply elem_of_empty in Hin'.
  - apply deduplicateFrom_NoDup; [exact Hnodup|]. intros t _. apply not_elem_of_empty.
Qed.

Lemma groupFileUpsertTasks_snoc (tasks : list FileUpsertTask) (t : FileUpsertTask) :
  groupFileUpsertTasks (tasks ++ [t])
  = JsMap.set (groupKey t)
      (default [] (JsMap.get (groupKey t) (groupFileUpsertTasks tasks)) ++ [t])%list
      (groupFileUpsertTasks tasks).
Proof. unfold groupFileUpsertTasks. now rewrite fold_left_app. Qed.

Lemma JsMap_keys_NoDup_set {V : Type} (k : string) (v : V) (m : JsMap.t V) :
  NoDup (JsMap.keys m) -> NoDup (JsMap.keys (JsMap.set k v m)).
Proof.
  intros Hnodup. destruct (JsMap.get k m) as [old|] eqn:Hget.
  - now rewrite JsMap_keys_set_present by eauto.
  - rewrite JsMap_keys_set_absent by exact Hget.
    apply NoDup_app. split; [exact Hnodup|]. split; [|apply NoDup_singleton].
    intros k' Hin Hin'. apply list_elem_of_singleton in Hin'. subst k'.
    now apply JsMap_get_None in Hget.
Qed.

Lemma JsMap_concat_set_push {A : Type} (k : string) (x : A) (m : JsMap.t (list A)) :
  concat (JsMap.values (JsMap.set k (default [] (JsMap.get k m) ++ [x])%list m))
  ≡ₚ (concat (JsMap.values m) ++ [x])%list.
Proof.
  unfold JsMap.values. induction m as [|[k' v'] rest IH]; simpl.
  - reflexivity.
  - destruct (String.eqb k' k); simpl.
    + rewrite <- !app_assoc. apply Permutation_app_head, Permutation_app_comm.
    + rewrite IH. now rewrite app_assoc.
Qed.

(** X11.  Grouping loses and repeats nothing: under a key
    [projectId:branch] the map holds exactly the input tasks of that key,
    in input order, and no key has an empty group; no key occurs twice;
    the groups together are the input tasks. *)
Theorem groupFileUpsertTasks_spec (tasks : list FileUpsertTask) :
  let g := groupFileUpsertTasks tasks in
  (forall key,
     JsMap.get key g
     = match List.filter (fun t => String.eqb (groupKey t) key) tasks with
       | [] => None
       | group => Some group
       end) /\
  NoDup (JsMap.keys g) /\
  concat (JsMap.values g) ≡ₚ tasks.
Proof.
  intros g. subst g. induction tasks as [|t tasks IH] using rev_ind.
  - split; [reflexivity|]. split; [constructor | reflexivity].
  - destruct IH as (Hget & Hnodup & Hperm). rewrite groupFileUpsertTasks_snoc.
    split; [|split].
    + intros key. rewrite List.filter_app. simpl.
      destruct (String.eqb_spec (groupKey t) key) as [<-|Hne].
      * rewrite JsMap_get_set_eq, Hget.
        destruct (List.filter _ tasks); reflexivity.
      * rewrite JsMap_get_set_ne by exact Hne. rewrite app_nil_r. apply Hget.
    + now apply JsMap_keys_NoDup_set.
    + rewrite JsMap_concat_set_push. now rewrite Hperm.
Qed.

Context (env : Env).

Lemma unsupported_head (ext : string) :
  exists rest, ("Unsupported file extension: " ++ ext)%string = String "U" rest.
Proof. eexists. reflexivity. Qed.

(** The batch made from file-changed events holds one task for each
    event with a supported extension, in the order of the events, with the
    event's path, hash, branch and base-branch flag and the given project
    and workspace; such a task passes validation as soon as none of those
    strings is empty. *)
Lemma createBatchFromFileEvents_tasks (events : list GitWatcherFileChangedEvent)
    (projectId workspacePath : string) :
  let batch := createBatchFromFileEvents env events projectId workspacePath in
  batch
  = (fun e => {| t_filePath := fc_filePath e; t_fileHash := fc_fileHash e;
                 t_branch := fc_branch e; t_isBaseBranch := fc_isBaseBranch e;
                 t_projectId := projectId; t_workspacePath := workspacePath |})
    <$> List.filter (fun e => shouldProcessFile env (fc_filePath e)) events /\
  (length batch <= length events)%nat /\
  (forall t, t ∈ batch -> shouldProcessFile env (t_filePath t) = true) /\
  (forall t, t ∈ batch ->
     t_filePath t <> "" -> t_fileHash t <> "" -> t_branch t <> "" ->
     projectId <> "" -> workspacePath <> "" ->
     validateFileUpsertTask env t = []).
Proof.
  intros batch. subst batch. unfold createBatchFromFileEvents, createFileUpsertTask.
  set (mk := fun e : GitWatcherFileChangedEvent => _).
  assert (Hmem : forall t, t ∈ map mk (List.filter (fun e => shouldProcessFile env (fc_filePath e))
                                         events) ->
                           shouldProcessFile env (t_filePath t) = true /\
                           t_projectId t = projectId /\ t_workspacePath t = workspacePath).
  { intros t Hin. apply list_elem_of_In, in_map_iff in Hin as (e & <- & Hin).
    apply filter_In in Hin as [_ Hext]. now simpl. }
  split; [reflexivity|]. split; [|split].
  - rewrite length_map. apply List.filter_length_le.
  - intros t Hin. now apply Hmem.
  - intros t Hin H1 H2 H3 H4 H5. destruct (Hmem t Hin) as (Hext & Hpid & Hwp).
    unfold validateFileUpsertTask. rewrite Hext, Hpid, Hwp.
    destruct (t_filePath t), (t_fileHash t), (t_branch t), projectId, workspacePath;
      simpl; congruence.
Qed.

Lemma validateFileUpsertTask_messages (task : FileUpsertTask) :
  (validateFileUpsertTask env task = [] <->
   t_filePath task <> "" /\ t_fileHash task <> "" /\ t_branch task <> "" /\
   t_projectId task <> "" /\ t_workspacePath task <> "" /\
   shouldProcessFile env (t_filePath task) = true) /\
  (("Unsupported file extension: " ++ extname env (t_filePath task))%string
   ∈ validateFileUpsertTask env task <->
   shouldProcessFile env (t_filePath task) = false) /\
  (length (validateFileUpsertTask env task) <= 6)%nat.
Proof.
  unfold validateFileUpsertTask.
  generalize (shouldProcessFile env (t_filePath task)) as ok.
  generalize (extname env (t_filePath task)) as ext. intros ext ok.
  destruct (unsupported_head ext) as [rest Hu]. rewrite Hu. clear Hu.
  destruct (t_filePath task), (t_fileHash task), (t_branch task), (t_projectId task),
    (t_workspacePath task), ok; simpl;
    (split; [|split; [|lia]]).
  all: try (split; [intros H; first [discriminate H | repeat split; congruence]
                   | intros (? & ? & ? & ? & ? & ?); congruence]).
  all: split; [intros Hin | intros Hok].
  all: try reflexivity; try discriminate Hok.
  all: try (repeat (apply elem_of_cons in Hin as [Heq | Hin]; [discriminate Heq|]);
            now apply elem_of_nil in Hin).
  all: repeat first [left | right].
Qed.

(** X12.  A task passes validation, that is [validateFileUpsertTask]
    returns no message, exactly when its path, hash, branch, project id and
    workspace path are all non-empty and its extension is a supported one;
    the extension message is there exactly when the extension is not
    supported, and there are never more than six messages.  The tasks
    [createBatchFromFileEvents] makes, one for each event with a supported
    extension, in the order of the events, pass validation as soon as none
    of their strings is empty. *)
Theorem validateFileUpsertTask_spec (task : FileUpsertTask) :
  (validateFileUpsertTask env task = [] <->
   t_filePath task <> "" /\ t_fileHash task <> "" /\ t_branch task <> "" /\
   t_projectId task <> "" /\ t_workspacePath task <> "" /\
   shouldProcessFile env (t_filePath task) = true) /\
  (("Unsupported file extension: " ++ extname env (t_filePath task))%string
   ∈ validateFileUpsertTask env task <->
   shouldProcessFile env (t_filePath task) = false) /\
  (length (validateFileUpsertTask env task) <= 6)%nat /\
  (forall events projectId workspacePath,
     let batch := createBatchFromFileEvents env events projectId workspacePath in
     batch
     = (fun e => {| t_filePath := fc_filePath e; t_fileHash := fc_fileHash e;
                    t_branch := fc_branch e; t_isBaseBranch := fc_isBaseBranch e;
                    t_projectId := projectId; t_workspacePath := workspacePath |})
       <$> List.filter (fun e => shouldProcessFile env (fc_filePath e)) events /\
     (forall t, t ∈ batch ->
        t_filePath t <> "" -> t_fileHash t <> "" -> t_branch t <> "" ->
        projectId <> "" -> workspacePath <> "" ->
        validateFileUpsertTask env t = [])).
Proof.
  destruct (validateFileUpsertTask_messages task) as (Hok & Hextension & Hcount).
  split; [exact Hok|]. split; [exact Hextension|]. split; [exact Hcount|].
  intros events projectId workspacePath.
  destruct (createBatchFromFileEvents_tasks events projectId workspacePath)
    as (Hbatch & _ & _ & Hvalid).
  split; [exact Hbatch | exact Hvalid].
Qed.

End UpsertTasks.

(** ** The upload side *)

Section Uploads.

Context (env : Env) (uenv : UploadEnv).

(** An upload either returns, the store untouched, or throws the plain
    object [createError] made, the clock read once. *)
Lemma processFileUpsert_outcome task config w :
  processFileUpsert env uenv task config w = (Normal tt, w) \/
  processFileUpsert env uenv task config w
  = (Throw (JsValue "[object Object]"), set_clockReads (S (clockReads w)) w).
Proof.
  unfold processFileUpsert, createError, dateNow.
  destruct (negb _ || negb _); [now left|].
  unfold_m. destruct (readFile uenv _) as [buf|e]; simpl; [|now right].
  destruct (upsertFile uenv _) as [[]|e]; simpl; [now left | now right].
Qed.

(** Whether an upload returns does not depend on the store. *)
Lemma processFileUpsert_fst task config w w0 :
  fst (processFileUpsert env uenv task config w)
  = fst (processFileUpsert env uenv task config w0).
Proof.
  unfold processFileUpsert, createError, dateNow.
  destruct (negb _ || negb _); [reflexivity|].
  unfold_m. destruct (readFile uenv _) as [buf|e]; simpl; [|reflexivity].
  destruct (upsertFile uenv _) as [[]|e]; reflexivity.
Qed.

(** X13.  [processFileUpsert]: without a token or an organization id it
    returns at once; otherwise it returns when the file is read and the
    upload accepted, and throws when either fails.  What it throws is never
    the error it caught nor an [Error] at all, but the plain object built by
    [createError], whose text form is "[object Object]"; the store is left
    alone but for that one reading of the clock. *)
Theorem processFileUpsert_spec (task : FileUpsertTask) (config : ConfigState) (w : World) :
  let absolute :=
    if pathIsAbsolute uenv (t_filePath task) then t_filePath task
    else pathJoin uenv (t_workspacePath task) (t_filePath task) in
  let params buffer :=
    {| up_fileBuffer := buffer; up_fileHash := t_fileHash task;
       up_filePath := pathRelative uenv (t_workspacePath task) absolute;
       up_gitBranch := t_branch task; up_isBaseBranch := t_isBaseBranch task;
       up_organizationId := str (organizationId config);
       up_projectId := t_projectId task; up_kilocodeToken := str (token config) |} in
  let thrown := (Throw (JsValue "[object Object]"), set_clockReads (S (clockReads w)) w) in
  (isConfigValid config = false ->
   processFileUpsert env uenv task config w = (Normal tt, w)) /\
  (isConfigValid config = true ->
   (forall e, readFile uenv absolute = Throw e ->
              processFileUpsert env uenv task config w = thrown) /\
   (forall buffer e, readFile uenv absolute = Normal buffer ->
                     upsertFile uenv (params buffer) = Throw e ->
                     processFileUpsert env uenv task config w = thrown) /\
   (forall buffer, readFile uenv absolute = Normal buffer ->
                   upsertFile uenv (params buffer) = Normal tt ->
                   processFileUpsert env uenv task config w = (Normal tt, w))) /\
  (forall e w', processFileUpsert env uenv task config w = (Throw e, w') ->
                e = JsValue "[object Object]").
Proof.
  intros absolute params thrown. subst thrown.
  split; [|split].
  - unfold isConfigValid, processFileUpsert.
    destruct (truthy (token config)), (truthy (organizationId config)); simpl;
      intros [=]; reflexivity.
  - unfold isConfigValid, processFileUpsert, createError, dateNow.
    destruct (truthy (token config)), (truthy (organizationId config)); simpl;
      intros [=].
    fold absolute. unfold_m. split; [|split].
    + intros e ->. reflexivity.
    + intros buffer e ->. fold (params buffer). intros ->. reflexivity.
    + intros buffer ->. fold (params buffer). intros ->. reflexivity.
  - intros e w' Hrun.
    destruct (processFileUpsert_outcome task config w) as [Hn | Ht]; congruence.
Qed.

(** One tick of the queue worker on a queue that is not empty. *)
Lemma processFileUpsertQueue_step w task rest :
  fileUpsertQueueAtom w = task :: rest ->
  processFileUpsertQueue env uenv w
  = if isConfigValid (configAtom w) then
      match processFileUpsert env uenv task (configAtom w) (set_fileUpsertQueue rest w) with
      | (Normal _, w2) => (Normal tt, w2)
      | (Throw e, w2) =>
          (Normal tt,
           set_errors
             (errorsAtom w2 ++
              [{| type := file_upsert;
                  message := match e with JsError msg _ => msg | JsValue text => text end;
                  timestamp := clock env (clockReads w2);
                  context := Some {| ctx_filePath := Some (t_filePath task);
                                     ctx_branch := Some (t_branch task);
                                     ctx_operation := None |};
                  details := match e with JsError _ stack => stack | JsValue _ => None end |}])
             (set_clockReads (S (clockReads w2)) w2))
      end
    else (Normal tt, set_fileUpsertQueue rest w).
Proof.
  intros Hq. unfold processFileUpsertQueue, dequeueFileUpsertAtom, isConfigValid, createError,
    dateNow.
  unfold_m. rewrite Hq. simpl.
  change (configAtom (set_fileUpsertQueue rest w)) with (configAtom w).
  destruct (truthy (configTokenAtom w)), (truthy (configOrganizationIdAtom w)); simpl;
    try reflexivity.
  destruct (processFileUpsert env uenv task (configAtom w) (set_fileUpsertQueue rest w))
    as [[[]|e] w2]; reflexivity.
Qed.

(** What a tick leaves of the store. *)
Lemma processFileUpsertQueue_tick_cases w task rest :
  fileUpsertQueueAtom w = task :: rest ->
  exists w',
    processFileUpsertQueue env uenv w = (Normal tt, w') /\
    fileUpsertQueueAtom w' = rest /\
    workspaceFoldersAtom w' = workspaceFoldersAtom w /\
    manifestCacheAtom w' = manifestCacheAtom w /\
    configAtom w' = configAtom w /\
    isActiveAtom w' = isActiveAtom w /\
    fetchCalls w' = fetchCalls w /\
    match fst (processFileUpsert env uenv task (configAtom w) w) with
    | Normal _ => errorsAtom w' = errorsAtom w
    | Throw _ =>
        exists err,
          errorsAtom w' = (errorsAtom w ++ [err])%list /\
          type err = file_upsert /\
          message err = "[object Object]" /\
          details err = None /\
          context err = Some {| ctx_filePath := Some (t_filePath task);
                                ctx_branch := Some (t_branch task);
                                ctx_operation := None |}
    end.
Proof.
  intros Hq. rewrite (processFileUpsertQueue_step w task rest Hq).
  rewrite (processFileUpsert_fst task (configAtom w) w (set_fileUpsertQueue rest w)).
  destruct (isConfigValid (configAtom w)) eqn:Hvalid.
  - destruct (processFileUpsert_outcome task (configAtom w) (set_fileUpsertQueue rest w))
      as [-> | ->]; simpl.
    + eexists. split; [reflexivity|]. repeat split.
    + eexists. split; [reflexivity|]. repeat split. eexists. repeat split.
  - assert (Hskip : processFileUpsert env uenv task (configAtom w) (set_fileUpsertQueue rest w)
                    = (Normal tt, set_fileUpsertQueue rest w)).
    { unfold processFileUpsert. unfold isConfigValid in Hvalid.
      destruct (truthy (token (configAtom w))), (truthy (organizationId (configAtom w)));
        simpl in *; first [reflexivity | discriminate]. }
    rewrite Hskip. simpl. eexists. split; [reflexivity|]. repeat split.
Qed.

(** X14.  A tick of the queue worker never throws.  On an empty queue it
    does nothing.  Otherwise it takes the first task off the queue for
    good, whatever happens to it: with an incomplete configuration the task
    is dropped without a trace; when the upload fails, one [file-upsert]
    error with the task's path and branch is appended to the log, its
    message being "[object Object]" and not the cause; the task is never
    put back.  Registry, manifest cache, configuration and the active flag
    are not touched. *)
Theorem processFileUpsertQueue_tick (w : World) :
  (fileUpsertQueueAtom w = [] -> processFileUpsertQueue env uenv w = (Normal tt, w)) /\
  (forall task rest,
     fileUpsertQueueAtom w = task :: rest ->
     exists w',
       processFileUpsertQueue env uenv w = (Normal tt, w') /\
       fileUpsertQueueAtom w' = rest /\
       workspaceFoldersAtom w' = workspaceFoldersAtom w /\
       manifestCacheAtom w' = manifestCacheAtom w /\
       configAtom w' = configAtom w /\
       isActiveAtom w' = isActiveAtom w /\
       (isConfigValid (configAtom w) = false -> w' = set_fileUpsertQueue rest w) /\
       match fst (processFileUpsert env uenv task (configAtom w) w) with
       | Normal _ => errorsAtom w' = errorsAtom w
       | Throw _ =>
           exists err,
             errorsAtom w' = (errorsAtom w ++ [err])%list /\
             type err = file_upsert /\
             message err = "[object Object]" /\
             details err = None /\
             context err = Some {| ctx_filePath := Some (t_filePath task);
                                   ctx_branch := Some (t_branch task);
                                   ctx_operation := None |}
       end).
Proof.
  split.
  - intros Hq. unfold processFileUpsertQueue, dequeueFileUpsertAtom. unfold_m.
    now rewrite Hq.
  - intros task rest Hq.
    destruct (processFileUpsertQueue_tick_cases w task rest Hq)
      as (w' & Hrun & Hrest & Hreg & Hcache & Hconfig & Hactive & _ & Herrors).
    exists w'. repeat (split; [assumption|]). split; [|exact Herrors].
    intros Hvalid. rewrite (processFileUpsertQueue_step w task rest Hq), Hvalid in Hrun.
    congruence.
Qed.


Local Abbreviation uploaded config :=
  (fun task : FileUpsertTask =>
     match fst (processFileUpsert env uenv task config initialWorld) with
     | Normal _ => true
     | Throw _ => false
     end).

Lemma uploaded_outcome config task w :
  (uploaded config task = true /\
   processFileUpsert env uenv task config w = (Normal tt, w)) \/
  (uploaded config task = false /\
   processFileUpsert env uenv task config w
   = (Throw (JsValue "[object Object]"), set_clockReads (S (clockReads w)) w)).
Proof.
  cbv beta. rewrite (processFileUpsert_fst task config initialWorld w).
  destruct (processFileUpsert_outcome task config w) as [-> | ->]; simpl; auto.
Qed.

Lemma batchProcessFrom_spec config onProgress total tasks :
  (forall callback i w, onProgress = Some callback ->
                        exists w', callback i total w = (Normal tt, w')) ->
  forall i results w,
    exists w',
      batchProcessFrom env uenv tasks config onProgress i total results w
      = (Normal {| successful :=
                     successful results + length (List.filter (uploaded config) tasks);
                   failed :=
                     failed results ++
                     map (fun task => (task, JsError "[object Object]"
                                               (Some "Error: [object Object]")))
                         (List.filter (fun task => negb (uploaded config task)) tasks) |},
         w').
Proof.
  intros Hcallback. induction tasks as [|task rest IH]; intros i results w.
  - exists w. simpl. unfold ret. rewrite Nat.add_0_r, app_nil_r. now destruct results.
  - cbn [batchProcessFrom].
    assert (Hprogress : forall w1, exists w2,
               match onProgress with
               | Some callback => callback (S i) total
               | None => ret tt
               end w1 = (Normal tt, w2)).
    { intros w1. destruct onProgress as [callback|]; [now eapply Hcallback|].
      now exists w1. }
    destruct (uploaded_outcome config task w) as [[Hup Hrun] | [Hup Hrun]].
    + destruct (Hprogress w) as [w2 Hcall].
      destruct (IH (S i) {| successful := S (successful results); failed := failed results |}
                  w2) as [w' Hrest].
      exists w'.
      erewrite bind_normal; cycle 1.
      { unfold tryCatch. rewrite (bind_normal _ _ _ _ _ Hrun). reflexivity. }
      rewrite (bind_normal _ _ _ _ _ Hcall), Hrest.
      simpl. rewrite Hup. simpl. repeat f_equal. lia.
    + destruct (Hprogress (set_clockReads (S (clockReads w)) w)) as [w2 Hcall].
      destruct (IH (S i)
                  {| successful := successful results;
                     failed := (failed results ++ [(task, asError (JsValue "[object Object]"))])
                   |}%list w2) as [w' Hrest].
      exists w'.
      erewrite bind_normal; cycle 1.
      { unfold tryCatch. rewrite (bind_throw _ _ _ _ _ Hrun). reflexivity. }
      rewrite (bind_normal _ _ _ _ _ Hcall), Hrest.
      simpl. rewrite Hup. simpl. rewrite <- app_assoc. reflexivity.
Qed.

Lemma fst_map_pair {A B : Type} (b : B) (l : list A) : (map (fun a => (a, b)) l).*1 = l.
Proof. induction l as [|a l IH]; [reflexivity|]. simpl. rewrite ?fmap_cons. simpl. now f_equal. Qed.

(** X15.  A batch of uploads never throws as long as the progress callback,
    if any, does not: a failed upload is recorded and the loop goes on.
    [successful] counts the tasks whose upload returned, [failed] lists the
    others in the order of the batch, so the two add up to the size of the
    batch; every recorded error is an [Error] whose message is
    "[object Object]", whatever made the upload fail. *)
Theorem batchProcessFileUpserts_spec (tasks : list FileUpsertTask) (config : ConfigState)
    (onProgress : option (nat -> nat -> M unit)) (w : World) :
  (forall callback i w, onProgress = Some callback ->
                        exists w', callback i (length tasks) w = (Normal tt, w')) ->
  exists r w',
    batchProcessFileUpserts env uenv tasks config onProgress w = (Normal r, w') /\
    successful r = length (List.filter (uploaded config) tasks) /\
    (failed r).*1 = List.filter (fun task => negb (uploaded config task)) tasks /\
    (successful r + length (failed r) = length tasks)%nat /\
    (forall task e, (task, e) ∈ failed r -> exists stack, e = JsError "[object Object]" stack).
Proof.
  intros Hcallback. unfold batchProcessFileUpserts.
  destruct (batchProcessFrom_spec config onProgress (length tasks) tasks Hcallback 0%nat
              {| successful := 0%nat; failed := [] |} w) as [w' Hrun].
  simpl in Hrun. eexists _, w'. split; [exact Hrun|]. simpl.
  split; [reflexivity|]. split; [|split].
  - apply fst_map_pair.
  - rewrite length_map. clear. induction tasks as [|t tasks IH]; simpl; [reflexivity|].
    destruct (uploaded config t); simpl; lia.
  - intros task e Hin. apply list_elem_of_In, in_map_iff in Hin as (t & [= <- <-] & _).
    eauto.
Qed.

End Uploads.

Lemma batchProcessFileUpserts_spec_witness :
  exists r w',
    batchProcessFileUpserts (Sample.host true 0) (MoreSample.uploads false)
      [MoreSample.task "a.ts" "h1"; MoreSample.task "b.ts" "h2"]
      (configAtom Sample.running) None Sample.running = (Normal r, w') /\
    successful r = 0%nat /\
    length (failed r) = 2%nat.
Proof.
  destruct (batchProcessFileUpserts_spec (Sample.host true 0) (MoreSample.uploads false)
              [MoreSample.task "a.ts" "h1"; MoreSample.task "b.ts" "h2"]
              (configAtom Sample.running) None Sample.running)
    as (r & w' & Hrun & Hok & _ & Hsum & _).
  { intros callback i w [=]. }
  exists r, w'. split; [exact Hrun|]. split; [exact Hok|].
  rewrite Hok in Hsum. exact Hsum.
Defined.

Lemma processFileUpsertQueue_tick_witness :
  exists w',
    processFileUpsertQueue (Sample.host true 0) (MoreSample.uploads false) MoreSample.queued
    = (Normal tt, w') /\
    fileUpsertQueueAtom w' = [MoreSample.task "b.ts" "h2"] /\
    exists err, errorsAtom w' = [err] /\ message err = "[object Object]".
Proof.
  destruct (proj2 (processFileUpsertQueue_tick (Sample.host true 0) (MoreSample.uploads false)
                     MoreSample.queued)
              (MoreSample.task "a.ts" "h1") [MoreSample.task "b.ts" "h2"] eq_refl)
    as (w' & Hrun & Hrest & _ & _ & _ & _ & _ & Herrors).
  exists w'. split; [exact Hrun|]. split; [exact Hrest|].
  destruct Herrors as (err & Herr & _ & Hmsg & _).
  exists err. split; [exact Herr | exact Hmsg].
Defined.

(** ** What the events do to the store *)

Section EventEffects.

Context (env : Env).

Lemma processGitEvent_dispatch event w folder0 :
  findWorkspaceFolderByWatcher (workspaceFoldersAtom w) (ev_watcher event) = Some folder0 ->
  truthy (projectId folder0) = true ->
  truthy (gitBranch folder0) = true ->
  processGitEvent env event w
  = match ev_type event with
    | scan_start => handleScanStart folder0 event
    | scan_end => handleScanEnd folder0 event
    | file_changed filePath fileHash => handleFileChanged env folder0 event filePath fileHash
    | file_deleted filePath => handleFileDeleted folder0 event filePath
    | branch_changed previousBranch newBranch =>
        handleBranchChanged env folder0 event previousBranch newBranch
    end w.
Proof.
  intros Hfind Hpid Hbranch. unfold processGitEvent.
  rewrite (bind_normal (gets workspaceFoldersAtom) _ w (workspaceFoldersAtom w) w eq_refl).
  now rewrite Hfind, Hpid, Hbranch.
Qed.

(** The request [handleFileChanged] makes for an event of a folder. *)
Local Abbreviation requestFor w folder0 event :=
  {| p_organizationId := str (organizationId (configAtom w));
     p_projectId := str (projectId folder0);
     p_branch := ev_branch event;
     p_token := str (token (configAtom w)) |}.

Lemma handleFileChanged_run folder0 event filePath fileHash w :
  shouldProcessFile env filePath = true ->
  isConfigValid (configAtom w) = true ->
  truthy (projectId folder0) = true ->
  handleFileChanged env folder0 event filePath fileHash w
  = match getOrFetchManifest env (requestFor w folder0 event) w with
    | (Normal m, w1) =>
        if isFileIndexed m filePath fileHash then (Normal tt, w1)
        else
          (Normal tt,
           set_fileUpsertQueue
             (fileUpsertQueueAtom w1 ++
              [{| t_filePath := filePath; t_fileHash := fileHash;
                  t_branch := ev_branch event; t_isBaseBranch := ev_isBaseBranch event;
                  t_projectId := str (projectId folder0);
                  t_workspacePath := fsPath (folder folder0) |}]) w1)
    | (Throw e, w1) =>
        (Normal tt,
         set_errors
           (errorsAtom w1 ++
            [{| type := file_upsert;
                message := match e with JsError msg _ => msg | JsValue text => text end;
                timestamp := clock env (clockReads w1);
                context := Some {| ctx_filePath := Some filePath;
                                   ctx_branch := Some (ev_branch event);
                                   ctx_operation := Some "queue-file-upsert" |};
                details := match e with JsError _ stack => stack | JsValue _ => None end |}])
           (set_clockReads (S (clockReads w1)) w1))
    end.
Proof.
  intros Hext Hvalid Hpid. unfold handleFileChanged. rewrite Hext. cbn [negb].
  rewrite (bind_normal (gets configAtom) _ w (configAtom w) w eq_refl).
  unfold isConfigValid in Hvalid. apply andb_prop in Hvalid as [Htoken Horg].
  rewrite Htoken, Horg, Hpid. cbn [negb orb].
  unfold tryCatch.
  destruct (getOrFetchManifest env (requestFor w folder0 event) w) as [[m|e] w1] eqn:Hfetch.
  - rewrite (bind_normal _ _ _ _ _ Hfetch).
    destruct (isFileIndexed m filePath fileHash); reflexivity.
  - rewrite (bind_throw _ _ _ _ _ Hfetch). reflexivity.
Qed.

Lemma getOrFetchManifest_keeps_queue params :
  keeps fileUpsertQueueAtom (getOrFetchManifest env params).
Proof. unfold_engine. keeps_auto. Qed.

Lemma getOrFetchManifest_keeps_errors params :
  keeps errorsAtom (getOrFetchManifest env params).
Proof. unfold_engine. keeps_auto. Qed.

(** A file-changed event for a supported file of an initialised
    folder, with a complete configuration, when the manifest of the event's
    branch is obtained (from the cache or by a fetch): if the manifest lists
    the path with that hash nothing is queued; otherwise exactly one task is
    appended to the queue, carrying the event's path, hash, branch and
    base-branch flag, the folder's project id and the folder's path.  No
    error is logged, the registry is not touched, and the cache and the API
    calls are as obtaining the manifest left them. *)
Lemma file_changed_fetched (event : GitWatcherEvent) (w : World)
    (folder0 : WorkspaceFolderState) (filePath fileHash : string)
    (m : ServerManifest) (w1 : World) :
  ev_type event = file_changed filePath fileHash ->
  findWorkspaceFolderByWatcher (workspaceFoldersAtom w) (ev_watcher event) = Some folder0 ->
  truthy (projectId folder0) = true ->
  truthy (gitBranch folder0) = true ->
  shouldProcessFile env filePath = true ->
  isConfigValid (configAtom w) = true ->
  getOrFetchManifest env (requestFor w folder0 event) w = (Normal m, w1) ->
  exists w',
    processGitEvent env event w = (Normal tt, w') /\
    fileUpsertQueueAtom w'
    = (if isFileIndexed m filePath fileHash then fileUpsertQueueAtom w
       else fileUpsertQueueAtom w ++
            [{| t_filePath := filePath; t_fileHash := fileHash;
                t_branch := ev_branch event; t_isBaseBranch := ev_isBaseBranch event;
                t_projectId := str (projectId folder0);
                t_workspacePath := fsPath (folder folder0) |}])%list /\
    errorsAtom w' = errorsAtom w /\
    workspaceFoldersAtom w' = workspaceFoldersAtom w /\
    manifestCacheAtom w' = manifestCacheAtom w1 /\
    fetchCalls w' = fetchCalls w1.
Proof.
  intros Hty Hfind Hpid Hbranch Hext Hvalid Hfetch.
  rewrite (processGitEvent_dispatch event w folder0 Hfind Hpid Hbranch), Hty.
  rewrite (handleFileChanged_run folder0 event filePath fileHash w Hext Hvalid Hpid), Hfetch.
  pose proof (getOrFetchManifest_keeps_queue (requestFor w folder0 event) w) as Hq.
  pose proof (getOrFetchManifest_keeps_errors (requestFor w folder0 event) w) as He.
  pose proof (getOrFetchManifest_keeps_registry env (requestFor w folder0 event) w) as Hr.
  rewrite Hfetch in Hq, He, Hr. simpl in Hq, He, Hr.
  destruct (isFileIndexed m filePath fileHash); eexists; (split; [reflexivity|]); simpl;
    rewrite ?Hq; auto.
Qed.

(** The same event when the manifest cannot be obtained: the handler
    does not throw and queues nothing; it appends one [file-upsert] error to
    the error log, with the message of what was thrown and the event's path
    and branch under the operation [queue-file-upsert].  The folder's own
    [lastError] is not set: the registry is as before. *)
Lemma file_changed_failed (event : GitWatcherEvent) (w : World)
    (folder0 : WorkspaceFolderState) (filePath fileHash : string)
    (e : Thrown) (w1 : World) :
  ev_type event = file_changed filePath fileHash ->
  findWorkspaceFolderByWatcher (workspaceFoldersAtom w) (ev_watcher event) = Some folder0 ->
  truthy (projectId folder0) = true ->
  truthy (gitBranch folder0) = true ->
  shouldProcessFile env filePath = true ->
  isConfigValid (configAtom w) = true ->
  getOrFetchManifest env (requestFor w folder0 event) w = (Throw e, w1) ->
  exists w' err,
    processGitEvent env event w = (Normal tt, w') /\
    errorsAtom w' = (errorsAtom w ++ [err])%list /\
    type err = file_upsert /\
    message err = match e with JsError msg _ => msg | JsValue text => text end /\
    context err = Some {| ctx_filePath := Some filePath;
                          ctx_branch := Some (ev_branch event);
                          ctx_operation := Some "queue-file-upsert" |} /\
    fileUpsertQueueAtom w' = fileUpsertQueueAtom w /\
    workspaceFoldersAtom w' = workspaceFoldersAtom w /\
    manifestCacheAtom w' = manifestCacheAtom w1.
Proof.
  intros Hty Hfind Hpid Hbranch Hext Hvalid Hfetch.
  rewrite (processGitEvent_dispatch event w folder0 Hfind Hpid Hbranch), Hty.
  rewrite (handleFileChanged_run folder0 event filePath fileHash w Hext Hvalid Hpid), Hfetch.
  pose proof (getOrFetchManifest_keeps_queue (requestFor w folder0 event) w) as Hq.
  pose proof (getOrFetchManifest_keeps_errors (requestFor w folder0 event) w) as He.
  pose proof (getOrFetchManifest_keeps_registry env (requestFor w folder0 event) w) as Hr.
  rewrite Hfetch in Hq, He, Hr. simpl in Hq, He, Hr.
  eexists _, _. split; [reflexivity|]. simpl. rewrite He. repeat split; assumption.
Qed.

(** X16.  A file-changed event for a supported file of an initialised
    folder, with a complete configuration, never throws and never writes to
    the registry.  When the manifest of the event's branch is obtained,
    from the cache or by a fetch: if it lists the path with that hash
    nothing is queued; otherwise exactly one task is appended to the queue,
    carrying the event's path, hash, branch and base-branch flag, the
    folder's project id and the folder's path; no error is logged.  When
    the manifest cannot be obtained nothing is queued, and one
    [file-upsert] error is appended to the error log, with the message of
    what was thrown and the event's path and branch under the operation
    [queue-file-upsert]; the folder's own [lastError] is not set. *)
Theorem file_changed_outcomes (event : GitWatcherEvent) (w : World)
    (folder0 : WorkspaceFolderState) (filePath fileHash : string) :
  ev_type event = file_changed filePath fileHash ->
  findWorkspaceFolderByWatcher (workspaceFoldersAtom w) (ev_watcher event) = Some folder0 ->
  truthy (projectId folder0) = true ->
  truthy (gitBranch folder0) = true ->
  shouldProcessFile env filePath = true ->
  isConfigValid (configAtom w) = true ->
  exists w',
    processGitEvent env event w = (Normal tt, w') /\
    workspaceFoldersAtom w' = workspaceFoldersAtom w /\
    match getOrFetchManifest env (requestFor w folder0 event) w with
    | (Normal m, w1) =>
        fileUpsertQueueAtom w'
        = (if isFileIndexed m filePath fileHash then fileUpsertQueueAtom w
           else fileUpsertQueueAtom w ++
                [{| t_filePath := filePath; t_fileHash := fileHash;
                    t_branch := ev_branch event; t_isBaseBranch := ev_isBaseBranch event;
                    t_projectId := str (projectId folder0);
                    t_workspacePath := fsPath (folder folder0) |}])%list /\
        errorsAtom w' = errorsAtom w /\
        manifestCacheAtom w' = manifestCacheAtom w1 /\
        fetchCalls w' = fetchCalls w1
    | (Throw e, w1) =>
        fileUpsertQueueAtom w' = fileUpsertQueueAtom w /\
        (exists err,
           errorsAtom w' = (errorsAtom w ++ [err])%list /\
           type err = file_upsert /\
           message err = match e with JsError msg _ => msg | JsValue text => text end /\
           context err = Some {| ctx_filePath := Some filePath;
                                 ctx_branch := Some (ev_branch event);
                                 ctx_operation := Some "queue-file-upsert" |}) /\
        manifestCacheAtom w' = manifestCacheAtom w1
    end.
Proof.
  intros Hty Hfind Hpid Hbranch Hext Hvalid.
  destruct (getOrFetchManifest env (requestFor w folder0 event) w) as [[m|e] w1] eqn:Hfetch.
  - destruct (file_changed_fetched event w folder0 filePath fileHash m w1
                Hty Hfind Hpid Hbranch Hext Hvalid Hfetch)
      as (w' & Hrun & Hqueue & Herrors & Hregistry & Hcache & Hcalls).
    exists w'. repeat split; assumption.
  - destruct (file_changed_failed event w folder0 filePath fileHash e w1
                Hty Hfind Hpid Hbranch Hext Hvalid Hfetch)
      as (w' & err & Hrun & Herrors & Htype & Hmessage & Hcontext & Hqueue & Hregistry
          & Hcache).
    exists w'. split; [exact Hrun|]. split; [exact Hregistry|]. split; [exact Hqueue|].
    split; [|exact Hcache]. exists err. repeat split; assumption.
Qed.

(** What a scan event writes: the update lands on the folder of the event. *)
Lemma scan_update_run w folder0 handle u :
  registry_wf (workspaceFoldersAtom w) ->
  findWorkspaceFolderByWatcher (workspaceFoldersAtom w) handle = Some folder0 ->
  updateWorkspaceFolderAtom (fsPath (folder folder0)) u w
  = (Normal tt,
     set_workspaceFolders
       (updateWorkspaceFolder (workspaceFoldersAtom w) (fsPath (folder folder0)) u) w) /\
  JsMap.get (fsPath (folder folder0)) (workspaceFoldersAtom w) = Some folder0.
Proof.
  intros Hwf Hfind. apply findWorkspaceFolderByWatcher_Some in Hfind as [Hin _].
  apply (registry_wf_get _ _ Hwf) in Hin. split; [|exact Hin].
  unfold updateWorkspaceFolderAtom, updateWorkspaceFolder.
  rewrite (bind_normal (gets workspaceFoldersAtom) _ w (workspaceFoldersAtom w) w eq_refl).
  now rewrite Hin.
Qed.

(** X17.  Scan events toggle [isIndexing] on the folder that owns the
    watcher and on no other.  A scan-start sets the flag and clears the
    folder's [lastError]; the folder is then among the indexing ones.  The
    scan-end of the same watcher is routed to the same folder and resets
    the flag, leaving the error cleared.  Branch, project, repository and
    watcher of the folder stay, every other folder reads as before, and
    nothing but the registry is written. *)
Theorem scan_events_toggle_indexing (scanStart scanEnd : GitWatcherEvent) (w : World)
    (folder0 : WorkspaceFolderState) :
  ev_type scanStart = scan_start ->
  ev_type scanEnd = scan_end ->
  ev_watcher scanEnd = ev_watcher scanStart ->
  registry_wf (workspaceFoldersAtom w) ->
  findWorkspaceFolderByWatcher (workspaceFoldersAtom w) (ev_watcher scanStart) = Some folder0 ->
  truthy (projectId folder0) = true ->
  truthy (gitBranch folder0) = true ->
  let path := fsPath (folder folder0) in
  let during :=
    {| folder := folder folder0; gitBranch := gitBranch folder0;
       projectId := projectId folder0; repositoryUrl := repositoryUrl folder0;
       isIndexing := true; watcher := watcher folder0; lastError := None |} in
  let after :=
    {| folder := folder folder0; gitBranch := gitBranch folder0;
       projectId := projectId folder0; repositoryUrl := repositoryUrl folder0;
       isIndexing := false; watcher := watcher folder0; lastError := None |} in
  exists w1 w2,
    processGitEvent env scanStart w = (Normal tt, w1) /\
    JsMap.get path (workspaceFoldersAtom w1) = Some during /\
    during ∈ getIndexingWorkspaceFolders (workspaceFoldersAtom w1) /\
    processGitEvent env scanEnd w1 = (Normal tt, w2) /\
    JsMap.get path (workspaceFoldersAtom w2) = Some after /\
    (after ∉ getIndexingWorkspaceFolders (workspaceFoldersAtom w2)) /\
    (forall path', path' <> path ->
       JsMap.get path' (workspaceFoldersAtom w2) = JsMap.get path' (workspaceFoldersAtom w)) /\
    w2 = set_workspaceFolders (workspaceFoldersAtom w2) w.
Proof.
  intros Hstart Hend Hsame Hwf Hfind Hpid Hbranch path during after.
  set (u1 := {| u_gitBranch := None; u_projectId := None;
                u_isIndexing := Some true; u_lastError := Some None |}).
  set (u2 := {| u_gitBranch := None; u_projectId := None;
                u_isIndexing := Some false; u_lastError := None |}).
  destruct (scan_update_run w folder0 _ u1 Hwf Hfind) as [Hrun1 Hget].
  set (m1 := updateWorkspaceFolder (workspaceFoldersAtom w) path u1) in *.
  set (w1 := set_workspaceFolders m1 w) in *.
  assert (Hwf1 : registry_wf (workspaceFoldersAtom w1))
    by (apply updateWorkspaceFolder_wf; exact Hwf).
  assert (Hget1 : JsMap.get path (workspaceFoldersAtom w1) = Some during)
    by (exact (updateWorkspaceFolder_get _ _ u1 _ Hget)).
  assert (Hfind1 : findWorkspaceFolderByWatcher (workspaceFoldersAtom w1) (ev_watcher scanEnd)
                   = Some during).
  { rewrite Hsame.
    change (findWorkspaceFolderByWatcher
              (updateWorkspaceFolder (workspaceFoldersAtom w) path u1) (ev_watcher scanStart)
            = Some during).
    rewrite (findWorkspaceFolderByWatcher_updated _ path u1 _ _ Hwf Hfind).
    unfold path. now rewrite String.eqb_refl. }
  destruct (scan_update_run w1 during _ u2 Hwf1 Hfind1) as [Hrun2 _].
  change (fsPath (folder during)) with path in Hrun2.
  set (m2 := updateWorkspaceFolder (workspaceFoldersAtom w1) path u2) in *.
  exists w1, (set_workspaceFolders m2 w1).
  split.
  { rewrite (processGitEvent_dispatch scanStart w folder0 Hfind Hpid Hbranch), Hstart.
    exact Hrun1. }
  split; [exact Hget1|]. split.
  { unfold getIndexingWorkspaceFolders. apply list_elem_of_In, filter_In.
    split; [|reflexivity]. apply list_elem_of_In.
    apply JsMap_get_elem in Hget1.
    change (during ∈ map snd (workspaceFoldersAtom w1)).
    apply list_elem_of_In, in_map_iff. exists (path, during).
    split; [reflexivity | now apply list_elem_of_In]. }
  split.
  { rewrite (processGitEvent_dispatch scanEnd w1 during Hfind1 Hpid Hbranch), Hend.
    exact Hrun2. }
  split; [exact (updateWorkspaceFolder_get _ _ u2 _ Hget1)|]. split.
  { unfold getIndexingWorkspaceFolders. intros Hin.
    apply list_elem_of_In, filter_In in Hin as [_ Hflag]. discriminate Hflag. }
  split; [|reflexivity].
  intros path' Hne. simpl. unfold m2.
  rewrite updateWorkspaceFolder_get_other by congruence. simpl. unfold m1.
  now rewrite updateWorkspaceFolder_get_other by congruence.
Qed.

Lemma tryCatch_unit_normal (body : M unit) (handler : Thrown -> M unit) :
  (forall e w, exists w', handler e w = (Normal tt, w')) ->
  forall w, exists w', tryCatch body handler w = (Normal tt, w').
Proof.
  intros Hhandler w. unfold tryCatch. destruct (body w) as [[[]|e] w1]; eauto.
Qed.

Lemma updateWorkspaceFolderAtom_normal path u w :
  exists w', updateWorkspaceFolderAtom path u w = (Normal tt, w').
Proof.
  destruct (updateWorkspaceFolderAtom_registry path u w) as [Hfst _].
  destruct (updateWorkspaceFolderAtom path u w) as [r w']. simpl in Hfst. subst r. eauto.
Qed.

Lemma updateWorkspaceFolderAtom_keeps_keys path u :
  keeps (fun w => JsMap.keys (workspaceFoldersAtom w)) (updateWorkspaceFolderAtom path u).
Proof.
  intros w. destruct (updateWorkspaceFolderAtom_registry path u w) as [_ ->].
  unfold updateWorkspaceFolder. destruct (JsMap.get path (workspaceFoldersAtom w)) eqn:Hget;
    [|reflexivity].
  apply JsMap_keys_set_present. eauto.
Qed.

Lemma updateWorkspaceFolderAtom_keeps_watchers path u :
  keeps (fun w => watcher <$> JsMap.values (workspaceFoldersAtom w))
        (updateWorkspaceFolderAtom path u).
Proof.
  intros w. destruct (updateWorkspaceFolderAtom_registry path u w) as [_ ->].
  apply updateWorkspaceFolder_watchers.
Qed.

Lemma processGitEvent_normal event w :
  exists w', processGitEvent env event w = (Normal tt, w').
Proof.
  unfold processGitEvent.
  rewrite (bind_normal (gets workspaceFoldersAtom) _ w (workspaceFoldersAtom w) w eq_refl).
  destruct (findWorkspaceFolderByWatcher _ _) as [folder0|]; [|now exists w].
  destruct (_ || _); [now exists w|].
  destruct (ev_type event) as [| | filePath fileHash | filePath | previousBranch newBranch].
  - apply updateWorkspaceFolderAtom_normal.
  - apply updateWorkspaceFolderAtom_normal.
  - unfold handleFileChanged. destruct (negb _); [now exists w|].
    rewrite (bind_normal (gets configAtom) _ w (configAtom w) w eq_refl).
    destruct (_ || _); [now exists w|].
    apply tryCatch_unit_normal. intros e w0. unfold createError, addErrorAtom, dateNow.
    unfold_m. simpl. eauto.
  - now exists w.
  - unfold handleBranchChanged. apply tryCatch_unit_normal. intros e w0.
    unfold createError, dateNow.
    match goal with
    | |- context [updateWorkspaceFolderAtom ?p] =>
        unfold bind at 1 2; unfold ret at 1; simpl
    end.
    apply updateWorkspaceFolderAtom_normal.
Qed.

Section EventFrame.

Context {X : Type} (obs : World -> X).
Hypothesis obs_registry_keys :
  forall path u, keeps obs (updateWorkspaceFolderAtom path u).
Hypothesis obs_cache : forall c w, obs (set_manifestCache c w) = obs w.
Hypothesis obs_clock : forall n w, obs (set_clockReads n w) = obs w.
Hypothesis obs_calls : forall l w, obs (set_fetchCalls l w) = obs w.
Hypothesis obs_queue : forall q w, obs (set_fileUpsertQueue q w) = obs w.
Hypothesis obs_errors : forall l w, obs (set_errors l w) = obs w.

Lemma processGitEvent_keeps event : keeps obs (processGitEvent env event).
Proof.
  unfold processGitEvent, handleScanStart, handleScanEnd.
  unfold_engine. unfold dateNow, fetchManifest.
  keeps_with ltac:(first [ apply obs_registry_keys
                         | apply keeps_modify; intros; first [apply obs_cache | apply obs_queue
                                                             | apply obs_errors]
                         | intros w0; simpl; first [apply obs_clock | apply obs_calls] ]).
Qed.

End EventFrame.

(** The exported guard [shouldSkipEvent] is the guard of
    [processGitEvent]: it answers true exactly when the folder's project id
    or branch is null or the empty string, and then an event routed to that
    folder leaves the store as it is. *)
Lemma shouldSkipEvent_guard (folder0 : WorkspaceFolderState) (event : GitWatcherEvent) :
  (shouldSkipEvent folder0 event = true <->
   projectId folder0 = None \/ projectId folder0 = Some "" \/
   gitBranch folder0 = None \/ gitBranch folder0 = Some "") /\
  (forall w,
     findWorkspaceFolderByWatcher (workspaceFoldersAtom w) (ev_watcher event) = Some folder0 ->
     shouldSkipEvent folder0 event = true ->
     processGitEvent env event w = (Normal tt, w)).
Proof.
  split.
  - unfold shouldSkipEvent, truthy.
    destruct (projectId folder0) as [[|c s]|], (gitBranch folder0) as [[|c' s']|]; simpl;
      split; intros H; try reflexivity; try discriminate H; auto;
      destruct H as [H | [H | [H | H]]]; discriminate H.
  - intros w Hfind Hskip. apply (processGitEvent_not_initialised env event w folder0 Hfind).
    unfold shouldSkipEvent in Hskip.
    destruct (truthy (projectId folder0)), (truthy (gitBranch folder0)); simpl in *;
      auto; discriminate.
Qed.

(** A file-deleted event changes nothing at all, on any store:
    nothing is queued, no manifest is invalidated or fetched, no error is
    logged, and the folder is not touched. *)
Lemma file_deleted_noop (event : GitWatcherEvent) (w : World) (filePath : string) :
  ev_type event = file_deleted filePath ->
  processGitEvent env event w = (Normal tt, w) /\
  onEvent env event w = (Normal tt, w).
Proof.
  intros Hty.
  assert (Hrun : processGitEvent env event w = (Normal tt, w)).
  { unfold processGitEvent.
    rewrite (bind_normal (gets workspaceFoldersAtom) _ w (workspaceFoldersAtom w) w eq_refl).
    destruct (findWorkspaceFolderByWatcher _ _) as [folder0|]; [|reflexivity].
    destruct (_ || _); [reflexivity|]. now rewrite Hty. }
  split; [exact Hrun|]. unfold onEvent, handleGitEvent.
  rewrite (bind_normal (gets isActiveAtom) _ w (isActiveAtom w) w eq_refl).
  destruct (isActiveAtom w); simpl; [|reflexivity].
  unfold tryCatch. now rewrite Hrun.
Qed.

(** X18.  [processGitEvent] never throws, whatever the event and the store:
    failures of the collaborators end up in the error log or in the
    folder's [lastError].  So the [catch] around it in [handleGitEvent] is
    never entered, and on an active indexer [onEvent] is [processGitEvent].
    An event never changes the active flag, the configuration, the
    registered paths and their order or the watcher a folder holds, and
    builds or disposes no watcher.  Two kinds of event change nothing at
    all: a file-deleted event, and any event routed to a folder for which
    the exported guard [shouldSkipEvent] answers true, which it does exactly
    when the folder's project id or branch is null or the empty string. *)
Theorem processGitEvent_never_throws (event : GitWatcherEvent) (w : World) :
  exists w',
    processGitEvent env event w = (Normal tt, w') /\
    isActiveAtom w' = isActiveAtom w /\
    configAtom w' = configAtom w /\
    JsMap.keys (workspaceFoldersAtom w') = JsMap.keys (workspaceFoldersAtom w) /\
    watcher <$> JsMap.values (workspaceFoldersAtom w')
    = watcher <$> JsMap.values (workspaceFoldersAtom w) /\
    watcherCount w' = watcherCount w /\
    effects w' = effects w /\
    (isActiveAtom w = true -> onEvent env event w = (Normal tt, w')) /\
    (forall filePath, ev_type event = file_deleted filePath -> w' = w) /\
    (forall folder0,
       (shouldSkipEvent folder0 event = true <->
        projectId folder0 = None \/ projectId folder0 = Some "" \/
        gitBranch folder0 = None \/ gitBranch folder0 = Some "") /\
       (findWorkspaceFolderByWatcher (workspaceFoldersAtom w) (ev_watcher event)
        = Some folder0 ->
        shouldSkipEvent folder0 event = true -> w' = w)).
Proof.
  destruct (processGitEvent_normal event w) as [w' Hrun]. exists w'.
  split; [exact Hrun|].
  assert (Hframe : forall {X : Type} (obs : World -> X),
             keeps obs (processGitEvent env event) -> obs w' = obs w).
  { intros X obs Hkeeps. specialize (Hkeeps w). now rewrite Hrun in Hkeeps. }
  split; [|split; [|split; [|split; [|split; [|split; [|split; [|split]]]]]]].
  - apply (Hframe _ isActiveAtom). apply processGitEvent_keeps; try (intros; reflexivity).
    intros path u. unfold updateWorkspaceFolderAtom. keeps_auto.
  - apply (Hframe _ configAtom). apply processGitEvent_keeps; try (intros; reflexivity).
    intros path u. unfold updateWorkspaceFolderAtom. keeps_auto.
  - apply (Hframe _ (fun w => JsMap.keys (workspaceFoldersAtom w))).
    apply processGitEvent_keeps; try (intros; reflexivity).
    apply updateWorkspaceFolderAtom_keeps_keys.
  - apply (Hframe _ (fun w => watcher <$> JsMap.values (workspaceFoldersAtom w))).
    apply processGitEvent_keeps; try (intros; reflexivity).
    apply updateWorkspaceFolderAtom_keeps_watchers.
  - apply (Hframe _ watcherCount). apply processGitEvent_keeps; try (intros; reflexivity).
    intros path u. unfold updateWorkspaceFolderAtom. keeps_auto.
  - apply (Hframe _ effects). apply processGitEvent_keeps; try (intros; reflexivity).
    intros path u. unfold updateWorkspaceFolderAtom. keeps_auto.
  - intros Hactive. unfold onEvent, handleGitEvent.
    rewrite (bind_normal (gets isActiveAtom) _ w (isActiveAtom w) w eq_refl), Hactive.
    simpl. unfold tryCatch. now rewrite Hrun.
  - intros filePath Hty.
    destruct (file_deleted_noop event w filePath Hty) as [Hnoop _]. congruence.
  - intros folder0. destruct (shouldSkipEvent_guard folder0 event) as [Hiff Hnoop].
    split; [exact Hiff|]. intros Hfind Hskip. specialize (Hnoop w Hfind Hskip). congruence.
Qed.

End EventEffects.

Lemma file_changed_outcomes_witness :
  (exists w',
      processGitEvent (Sample.host true 1000)
        (Sample.event (file_changed "a.ts" "h2") "main" (Some 0%nat)) MoreSample.indexed
      = (Normal tt, w') /\
      fileUpsertQueueAtom w' = [MoreSample.task "a.ts" "h2"] /\
      errorsAtom w' = [] /\
      fetchCalls w' = []) /\
  (exists w' err,
      processGitEvent (Sample.host false 0)
        (Sample.event (file_changed "a.ts" "h2") "main" (Some 0%nat)) Sample.running
      = (Normal tt, w') /\
      fileUpsertQueueAtom w' = [] /\
      errorsAtom w' = [err] /\
      message err = "API error").
Proof.
  split.
  - destruct (file_changed_outcomes (Sample.host true 1000)
                (Sample.event (file_changed "a.ts" "h2") "main" (Some 0%nat))
                MoreSample.indexed (Sample.stateA (Some 0%nat) None) "a.ts" "h2"
                eq_refl eq_refl eq_refl eq_refl eq_refl eq_refl)
      as (w' & Hrun & _ & Hqueue & Herrors & _ & Hcalls).
    exists w'. split; [exact Hrun|]. split; [exact Hqueue|]. split; [exact Herrors|].
    exact Hcalls.
  - destruct (file_changed_outcomes (Sample.host false 0)
                (Sample.event (file_changed "a.ts" "h2") "main" (Some 0%nat))
                Sample.running (Sample.stateA (Some 0%nat) None) "a.ts" "h2"
                eq_refl eq_refl eq_refl eq_refl eq_refl eq_refl)
      as (w' & Hrun & _ & Hqueue & (err & Herrors & _ & Hmessage & _) & _).
    exists w', err. split; [exact Hrun|]. split; [exact Hqueue|]. split; [exact Herrors|].
    exact Hmessage.
Defined.

Lemma scan_events_toggle_indexing_witness :
  exists w1 w2 during after,
    processGitEvent (Sample.host true 0) (Sample.event scan_start "main" (Some 0%nat))
      Sample.running = (Normal tt, w1) /\
    JsMap.get "/test/workspace" (workspaceFoldersAtom w1) = Some during /\
    isIndexing during = true /\
    processGitEvent (Sample.host true 0) (Sample.event scan_end "main" (Some 0%nat)) w1
    = (Normal tt, w2) /\
    JsMap.get "/test/workspace" (workspaceFoldersAtom w2) = Some after /\
    isIndexing after = false.
Proof.
  assert (Hwf : registry_wf (workspaceFoldersAtom Sample.running)).
  { split; [apply NoDup_singleton | repeat constructor]. }
  destruct (scan_events_toggle_indexing (Sample.host true 0)
              (Sample.event scan_start "main" (Some 0%nat))
              (Sample.event scan_end "main" (Some 0%nat))
              Sample.running (Sample.stateA (Some 0%nat) None)
              eq_refl eq_refl eq_refl Hwf eq_refl eq_refl eq_refl)
    as (w1 & w2 & Hrun1 & Hget1 & _ & Hrun2 & Hget2 & _).
  exists w1, w2. eexists _, _.
  split; [exact Hrun1|]. split; [exact Hget1|]. split; [reflexivity|].
  split; [exact Hrun2|]. split; [exact Hget2 | reflexivity].
Defined.

(** ** Branch changes and the manifest cache *)

Section BranchChangeEffects.

Context (env : Env).


Lemma updateWorkspaceFolderBranch_cases state newBranch w :
  match getKilocodeConfig env (fsPath (folder state))
          (if truthy (repositoryUrl state) then repositoryUrl state else None) with
  | Normal pc =>
      updateWorkspaceFolderBranch env state newBranch w
      = (Normal {| u_gitBranch := Some (Some newBranch);
                   u_projectId := Some (orElse pc (projectId state));
                   u_isIndexing := None; u_lastError := Some None |}, w)
  | Throw e =>
      updateWorkspaceFolderBranch env state newBranch w
      = (Normal {| u_gitBranch := Some (Some newBranch); u_projectId := None;
                   u_isIndexing := None;
                   u_lastError :=
                     Some (Some {| type := config_error;
                                   message := match e with
                                              | JsError msg _ => msg
                                              | JsValue text => text
                                              end;
                                   timestamp := clock env (clockReads w);
                                   context := Some {| ctx_filePath := None;
                                                      ctx_branch := Some newBranch;
                                                      ctx_operation := Some "update-branch" |};
                                   details := match e with
                                              | JsError _ stack => stack
                                              | JsValue _ => None
                                              end |}) |},
         set_clockReads (S (clockReads w)) w)
  end.
Proof.
  unfold updateWorkspaceFolderBranch, createError, dateNow. unfold_m.
  destruct (getKilocodeConfig env _ _); reflexivity.
Qed.

Lemma orElse_again (a b : option string) : orElse (orElse a b) b = orElse a b.
Proof.
  unfold orElse. destruct (truthy a) eqn:Ha; [now rewrite Ha|].
  now destruct (truthy b).
Qed.




Lemma updateWorkspaceFolderAtom_run path u w existing :
  JsMap.get path (workspaceFoldersAtom w) = Some existing ->
  updateWorkspaceFolderAtom path u w
  = (Normal tt,
     set_workspaceFolders (JsMap.set path (applyUpdates existing u) (workspaceFoldersAtom w)) w).
Proof.
  intros Hget. unfold updateWorkspaceFolderAtom.
  rewrite (bind_normal (gets workspaceFoldersAtom) _ w (workspaceFoldersAtom w) w eq_refl).
  now rewrite Hget.
Qed.

(** X20.  What a branch change does to the folder, in full.  The project
    configuration is read again and the folder committed to the new
    branch: when the read succeeds the folder takes the project id found
    there, or keeps its own if none is found, and whatever error it held
    is cleared; when the read throws, the project id stays and the folder
    holds a [config] error with the message of what was thrown, stamped
    with the clock.  With a token and an organization configured, the
    manifest of the committed project on the new branch is then requested
    from the store so written: when that request returns, the committed
    state is what the folder is left with; when it throws, the folder's
    error is replaced by a [manifest] error with the message of the
    failure, stamped with the clock after the request, and nothing else
    of the committed state changes.  Without token or organization no
    request is made and the committed state stays.  Indexing flag,
    watcher, repository and folder identity never change, and the event
    never throws. *)
Theorem branch_change_project_and_error (event : GitWatcherEvent) (w : World)
    (previousBranch newBranch : string) (folder0 : WorkspaceFolderState) :
  ev_type event = branch_changed previousBranch newBranch ->
  registry_wf (workspaceFoldersAtom w) ->
  findWorkspaceFolderByWatcher (workspaceFoldersAtom w) (ev_watcher event) = Some folder0 ->
  truthy (projectId folder0) = true ->
  truthy (gitBranch folder0) = true ->
  let path := fsPath (folder folder0) in
  let found :=
    getKilocodeConfig env path
      (if truthy (repositoryUrl folder0) then repositoryUrl folder0 else None) in
  let committed :=
    {| folder := folder folder0;
       gitBranch := Some newBranch;
       projectId := match found with
                    | Normal pc => orElse pc (projectId folder0)
                    | Throw _ => projectId folder0
                    end;
       repositoryUrl := repositoryUrl folder0;
       isIndexing := isIndexing folder0;
       watcher := watcher folder0;
       lastError :=
         match found with
         | Normal _ => None
         | Throw e =>
             Some {| type := config_error;
                     message := match e with JsError msg _ => msg | JsValue text => text end;
                     timestamp := clock env (clockReads w);
                     context := Some {| ctx_filePath := None;
                                        ctx_branch := Some newBranch;
                                        ctx_operation := Some "update-branch" |};
                     details := match e with JsError _ stack => stack | JsValue _ => None end |}
         end |} in
  let written :=
    set_workspaceFolders (JsMap.set path committed (workspaceFoldersAtom w))
      (match found with
       | Normal _ => w
       | Throw _ => set_clockReads (S (clockReads w)) w
       end) in
  let request :=
    {| p_organizationId := str (organizationId (configAtom w));
       p_projectId := str (projectId committed);
       p_branch := newBranch;
       p_token := str (token (configAtom w)) |} in
  exists w' s,
    processGitEvent env event w = (Normal tt, w') /\
    JsMap.get path (workspaceFoldersAtom w') = Some s /\
    if truthy (token (configAtom w)) && truthy (organizationId (configAtom w))
    then
      match getOrFetchManifest env request written with
      | (Normal _, _) => s = committed
      | (Throw failure, failed) =>
          s = {| folder := folder folder0;
                 gitBranch := Some newBranch;
                 projectId := projectId committed;
                 repositoryUrl := repositoryUrl folder0;
                 isIndexing := isIndexing folder0;
                 watcher := watcher folder0;
                 lastError :=
                   Some {| type := manifest_error;
                           message := match failure with
                                      | JsError msg _ => msg
                                      | JsValue text => text
                                      end;
                           timestamp := clock env (clockReads failed);
                           context := Some {| ctx_filePath := None;
                                              ctx_branch := Some newBranch;
                                              ctx_operation := Some "branch-change" |};
                           details := match failure with
                                      | JsError _ stack => stack
                                      | JsValue _ => None
                                      end |} |}
      end
    else s = committed.
Proof.
  intros Hty Hwf Hfind Hpid Hbranch path found committed written request.
  assert (Hget : JsMap.get path (workspaceFoldersAtom w) = Some folder0).
  { apply findWorkspaceFolderByWatcher_Some in Hfind as [Hin _].
    exact (registry_wf_get _ _ Hwf Hin). }
  rewrite (processGitEvent_dispatch env event w folder0 Hfind Hpid Hbranch), Hty.
  pose proof (updateWorkspaceFolderBranch_cases folder0 newBranch w) as Hu.
  fold path found in Hu.
  unfold handleBranchChanged, handleBranchChanged_try, tryCatch.
  fold path.
  assert (Hstep : exists updates wa,
             updateWorkspaceFolderBranch env folder0 newBranch w = (Normal updates, wa) /\
             applyUpdates folder0 updates = committed /\
             set_workspaceFolders (JsMap.set path committed (workspaceFoldersAtom wa)) wa
             = written /\
             workspaceFoldersAtom wa = workspaceFoldersAtom w /\
             configAtom wa = configAtom w /\
             str (orElse (default None (u_projectId updates)) (projectId folder0))
             = str (projectId committed)).
  { subst committed written. destruct found as [pc|e]; eexists _, _;
      (split; [exact Hu|]); simpl; repeat split.
    now rewrite orElse_again. }
  destruct Hstep as (updates & wa & Hrun & Happly & Hwritten & Hrega & Hconfa & Hproject).
  rewrite (bind_normal _ _ _ _ _ Hrun).
  assert (Hgeta : JsMap.get path (workspaceFoldersAtom wa) = Some folder0)
    by (now rewrite Hrega).
  rewrite (bind_normal _ _ _ _ _ (updateWorkspaceFolderAtom_run path updates wa folder0 Hgeta)).
  rewrite Happly, Hwritten, Hproject.
  rewrite (bind_normal (gets configAtom) _ written (configAtom written) written eq_refl).
  assert (Hconf : configAtom written = configAtom w).
  { rewrite <- Hwritten. simpl. exact Hconfa. }
  assert (Hgetw : JsMap.get path (workspaceFoldersAtom written) = Some committed).
  { rewrite <- Hwritten. simpl. apply JsMap_get_set_eq. }
  rewrite Hconf, Hpid, andb_true_r.
  destruct (truthy (token (configAtom w)) && truthy (organizationId (configAtom w))).
  - fold request.
    pose proof (getOrFetchManifest_keeps_registry env request written) as Kr.
    destruct (getOrFetchManifest env request written) as [[m|failure] failed] eqn:Hfetch;
      simpl in Kr.
    + rewrite (bind_normal _ _ _ _ _ Hfetch).
      exists failed, committed. split; [reflexivity|]. split; [|reflexivity].
      now rewrite Kr.
    + rewrite (bind_throw _ _ _ _ _ Hfetch).
      unfold createError, dateNow. unfold_m. cbn [fst snd].
      match goal with
      | |- context [updateWorkspaceFolderAtom path ?u ?wc] =>
          assert (Hgetc : JsMap.get path (workspaceFoldersAtom wc) = Some committed)
            by (simpl; now rewrite Kr);
          rewrite (updateWorkspaceFolderAtom_run path u wc committed Hgetc)
      end.
      eexists _, _. split; [reflexivity|]. split; [apply JsMap_get_set_eq|].
      reflexivity.
  - exists written, committed. split; [reflexivity|]. split; [exact Hgetw | reflexivity].
Qed.

End BranchChangeEffects.


Lemma branch_change_project_and_error_witness :
  (exists w' s,
     processGitEvent (Sample.host true 1000)
       (Sample.event (branch_changed "main" "feature") "feature" (Some 0%nat))
       (set_workspaceFolders
          [("/test/workspace",
            Sample.stateA (Some 0%nat) (Some (MoreSample.errorAt manifest_error 5)))]
          Sample.running)
     = (Normal tt, w') /\
     JsMap.get "/test/workspace" (workspaceFoldersAtom w') = Some s /\
     gitBranch s = Some "feature" /\ projectId s = Some "p1" /\ lastError s = None) /\
  (exists w' s err,
     processGitEvent (Sample.host false 1000)
       (Sample.event (branch_changed "main" "feature") "feature" (Some 0%nat))
       Sample.running
     = (Normal tt, w') /\
     JsMap.get "/test/workspace" (workspaceFoldersAtom w') = Some s /\
     gitBranch s = Some "feature" /\ projectId s = Some "p1" /\
     lastError s = Some err /\ type err = manifest_error /\ message err = "API error").
Proof.
  split.
  - set (held := set_workspaceFolders
                   [("/test/workspace",
                     Sample.stateA (Some 0%nat) (Some (MoreSample.errorAt manifest_error 5)))]
                   Sample.running).
    assert (Hwf : registry_wf (workspaceFoldersAtom held)).
    { split; [apply NoDup_singleton | repeat constructor]. }
    destruct (branch_change_project_and_error (Sample.host true 1000)
                (Sample.event (branch_changed "main" "feature") "feature" (Some 0%nat))
                held "main" "feature"
                (Sample.stateA (Some 0%nat) (Some (MoreSample.errorAt manifest_error 5)))
                eq_refl Hwf eq_refl eq_refl eq_refl)
      as (w' & s & Hrun & Hget & Hs).
    exists w', s. split; [exact Hrun|]. split; [exact Hget|].
    vm_compute in Hs. rewrite Hs. repeat split.
  - assert (Hwf : registry_wf (workspaceFoldersAtom Sample.running)).
    { split; [apply NoDup_singleton | repeat constructor]. }
    destruct (branch_change_project_and_error (Sample.host false 1000)
                (Sample.event (branch_changed "main" "feature") "feature" (Some 0%nat))
                Sample.running "main" "feature" (Sample.stateA (Some 0%nat) None)
                eq_refl Hwf eq_refl eq_refl eq_refl)
      as (w' & s & Hrun & Hget & Hs).
    vm_compute in Hs.
    eexists w', s, _. split; [exact Hrun|]. split; [exact Hget|].
    rewrite Hs. repeat split.
Defined.

(** ** The error log *)

Section ErrorLog.

Lemma typeName_inj (a b : ErrorType) : typeName a = typeName b -> a = b.
Proof. destruct a, b; simpl; intros [=]; reflexivity. Qed.

Lemma groupErrorsByType_snoc (errors : list ManagedIndexerError) (e : ManagedIndexerError) :
  groupErrorsByType (errors ++ [e])
  = JsMap.set (typeName (type e))
      (default [] (JsMap.get (typeName (type e)) (groupErrorsByType errors)) ++ [e])%list
      (groupErrorsByType errors).
Proof. unfold groupErrorsByType. now rewrite fold_left_app. Qed.

(** X21.  Grouping the errors by type loses and repeats nothing: under the
    name of a type the object holds exactly the errors of that type, in log
    order, and a type without errors has no key; every key is the name of a
    type, no key occurs twice, and the groups together are the log. *)
Theorem groupErrorsByType_spec (errors : list ManagedIndexerError) :
  let grouped := groupErrorsByType errors in
  (forall ty,
     JsMap.get (typeName ty) grouped
     = match List.filter (fun e => bool_decide (type e = ty)) errors with
       | [] => None
       | group => Some group
       end) /\
  (forall key, key ∈ JsMap.keys grouped -> exists e, e ∈ errors /\ key = typeName (type e)) /\
  NoDup (JsMap.keys grouped) /\
  concat (JsMap.values grouped) ≡ₚ errors.
Proof.
  intros grouped. subst grouped. induction errors as [|e errors IH] using rev_ind.
  - split; [reflexivity|]. split; [intros key Hin; now apply elem_of_nil in Hin|].
    split; [constructor | reflexivity].
  - destruct IH as (Hget & Hkeys & Hnodup & Hperm). rewrite groupErrorsByType_snoc.
    split; [|split; [|split]].
    + intros ty. rewrite List.filter_app. simpl.
      destruct (decide (type e = ty)) as [<-|Hne].
      * rewrite bool_decide_eq_true_2 by reflexivity.
        rewrite JsMap_get_set_eq, Hget.
        destruct (List.filter _ errors); reflexivity.
      * rewrite bool_decide_eq_false_2 by exact Hne.
        rewrite JsMap_get_set_ne by (intros Heq; now apply typeName_inj in Heq).
        rewrite app_nil_r. apply Hget.
    + intros key Hin.
      destruct (JsMap.get (typeName (type e)) (groupErrorsByType errors)) as [old|] eqn:Hold.
      * rewrite JsMap_keys_set_present in Hin by (rewrite Hold; eauto).
        destruct (Hkeys key Hin) as (e' & Hin' & ->).
        exists e'. split; [apply elem_of_app; now left | reflexivity].
      * rewrite JsMap_keys_set_absent in Hin by exact Hold.
        apply elem_of_app in Hin as [Hin | Hin].
        -- destruct (Hkeys key Hin) as (e' & Hin' & ->).
           exists e'. split; [apply elem_of_app; now left | reflexivity].
        -- apply list_elem_of_singleton in Hin. subst key.
           exists e. split; [apply elem_of_app; right; left | reflexivity].
    + now apply JsMap_keys_NoDup_set.
    + rewrite JsMap_concat_set_push. now rewrite Hperm.
Qed.

Local Abbreviation later :=
  (fun latest current : ManagedIndexerError =>
     if timestamp current >? timestamp latest then current else latest).

(** The [reduce] of [getMostRecentError] picks the first of the errors with
    the greatest timestamp. *)
Lemma reduce_latest (first : ManagedIndexerError) (rest : list ManagedIndexerError) :
  let r := fold_left later rest first in
  exists pre post,
    first :: rest = (pre ++ r :: post)%list /\
    (forall e, e ∈ pre -> timestamp e < timestamp r) /\
    (forall e, e ∈ post -> timestamp e <= timestamp r).
Proof.
  induction rest as [|c rest IH] using rev_ind; simpl.
  - exists [], []. split; [reflexivity|].
    split; intros e Hin; now apply elem_of_nil in Hin.
  - rewrite fold_left_app. simpl. cbv zeta in IH.
    set (r := fold_left later rest first) in *.
    destruct IH as (pre & post & Hsplit & Hpre & Hpost).
    destruct (Z.gtb_spec (timestamp c) (timestamp r)) as [Hgt|Hle].
    + exists (first :: rest), []. split; [reflexivity|]. split.
      * intros e Hin. rewrite Hsplit in Hin.
        apply elem_of_app in Hin as [Hin | Hin]; [specialize (Hpre e Hin); lia|].
        apply elem_of_cons in Hin as [-> | Hin]; [lia | specialize (Hpost e Hin); lia].
      * intros e Hin. now apply elem_of_nil in Hin.
    + exists pre, (post ++ [c])%list. split.
      * change (first :: rest ++ [c])%list with ((first :: rest) ++ [c])%list.
        rewrite Hsplit, <- app_assoc. reflexivity.
      * split; [exact Hpre|]. intros e Hin.
        apply elem_of_app in Hin as [Hin | Hin]; [now apply Hpost|].
        apply list_elem_of_singleton in Hin. subst e. lia.
Qed.

(** There is one first error of greatest timestamp. *)
Lemma first_latest_unique (l pre post pre' post' : list ManagedIndexerError)
    (r r' : ManagedIndexerError) :
  l = (pre ++ r :: post)%list ->
  (forall e, e ∈ pre -> timestamp e < timestamp r) ->
  (forall e, e ∈ post -> timestamp e <= timestamp r) ->
  l = (pre' ++ r' :: post')%list ->
  (forall e, e ∈ pre' -> timestamp e < timestamp r') ->
  (forall e, e ∈ post' -> timestamp e <= timestamp r') ->
  r = r'.
Proof.
  intros -> Hpre Hpost. revert pre' Hpre.
  induction pre as [|x pre IH]; intros pre' Hpre Hsplit Hpre' Hpost'.
  - destruct pre' as [|x' pre']; simpl in Hsplit; injection Hsplit as Hhead Htail;
      [exact Hhead|].
    subst x'. assert (Hin : r' ∈ post) by (rewrite Htail; apply elem_of_app; right; left).
    specialize (Hpost r' Hin). specialize (Hpre' r ltac:(left)). lia.
  - destruct pre' as [|x' pre']; simpl in Hsplit; injection Hsplit as Hhead Htail.
    + subst x. assert (Hin : r ∈ post') by (rewrite <- Htail; apply elem_of_app; right; left).
      specialize (Hpost' r Hin). specialize (Hpre r' ltac:(left)). lia.
    + apply (IH pre').
      * intros e Hin. apply Hpre. now right.
      * exact Htail.
      * intros e Hin. apply Hpre'. now right.
      * exact Hpost'.
Qed.

Lemma getMostRecentError_all (errors : list ManagedIndexerError) (r : ManagedIndexerError) :
  getMostRecentError errors None = Some r <->
  exists pre post,
    errors = (pre ++ r :: post)%list /\
    (forall e, e ∈ pre -> timestamp e < timestamp r) /\
    (forall e, e ∈ post -> timestamp e <= timestamp r).
Proof.
  unfold getMostRecentError. destruct errors as [|first rest].
  - split; [discriminate|]. intros (pre & post & Hsplit & _).
    now destruct pre.
  - pose proof (reduce_latest first rest) as Hr. cbv zeta in Hr.
    destruct Hr as (pre0 & post0 & Hsplit0 & Hpre0 & Hpost0). split.
    + intros [= <-]. eauto.
    + intros (pre & post & Hsplit & Hpre & Hpost). f_equal.
      exact (first_latest_unique _ _ _ _ _ _ _ Hsplit0 Hpre0 Hpost0 Hsplit Hpre Hpost).
Qed.

(** X22.  [getMostRecentError] answers null exactly when the log has no
    error of the asked type (no error at all when no type is asked);
    otherwise it answers an error of that type whose timestamp no other of
    the type exceeds, and among those of equal timestamp the one that comes
    first in the log. *)
Theorem getMostRecentError_spec (errors : list ManagedIndexerError) (ty : option ErrorType) :
  let candidates :=
    match ty with
    | Some t => List.filter (fun e => bool_decide (type e = t)) errors
    | None => errors
    end in
  (getMostRecentError errors ty = None <-> candidates = []) /\
  (forall r,
     getMostRecentError errors ty = Some r <->
     exists pre post,
       candidates = (pre ++ r :: post)%list /\
       (forall e, e ∈ pre -> timestamp e < timestamp r) /\
       (forall e, e ∈ post -> timestamp e <= timestamp r)) /\
  (forall r t, getMostRecentError errors ty = Some r -> ty = Some t -> type r = t) /\
  (forall r, getMostRecentError errors ty = Some r -> r ∈ errors).
Proof.
  intros candidates.
  assert (Hsame : getMostRecentError errors ty = getMostRecentError candidates None)
    by (destruct ty; reflexivity).
  assert (Hsub : forall e, e ∈ candidates ->
                           e ∈ errors /\ forall t, ty = Some t -> type e = t).
  { intros e Hin. subst candidates. destruct ty as [t|].
    - apply list_elem_of_In, filter_In in Hin as [Hin Hty].
      apply bool_decide_eq_true in Hty. split; [now apply list_elem_of_In|].
      now intros t' [= <-].
    - split; [exact Hin | discriminate]. }
  assert (Hmem : forall r, getMostRecentError errors ty = Some r -> r ∈ candidates).
  { intros r Hr. rewrite Hsame in Hr. apply getMostRecentError_all in Hr as (pre & post & -> & _).
    apply elem_of_app. right. left. }
  rewrite Hsame. split; [|split; [|split]].
  - unfold getMostRecentError. destruct candidates; split; congruence.
  - intros r. apply getMostRecentError_all.
  - intros r t Hr Hty. rewrite <- Hsame in Hr. now apply (Hsub r (Hmem r Hr)).
  - intros r Hr. rewrite <- Hsame in Hr. now apply (Hsub r (Hmem r Hr)).
Qed.

Context (env : Env).

(** X23.  [clearOldErrors] reads the clock once and keeps, in log order,
    exactly the errors stamped after [now - maxAgeMinutes * 60000].  It
    never changes which error is the most recent: if the most recent error
    of the log is kept it is the most recent of what is kept, and if it is
    dropped nothing is kept. *)
Theorem clearOldErrors_spec (errors : list ManagedIndexerError) (maxAgeMinutes : Z)
    (w : World) :
  let cutoff := clock env (clockReads w) - maxAgeMinutes * 60 * 1000 in
  exists kept,
    clearOldErrors env errors maxAgeMinutes w
    = (Normal kept, set_clockReads (S (clockReads w)) w) /\
    sublist kept errors /\
    (forall e, e ∈ kept <-> e ∈ errors /\ timestamp e > cutoff) /\
    (forall latest,
       getMostRecentError errors None = Some latest ->
       (timestamp latest > cutoff -> getMostRecentError kept None = Some latest) /\
       (timestamp latest <= cutoff -> kept = [])).
Proof.
  intros cutoff. eexists. split; [reflexivity|].
  set (keep := fun error : ManagedIndexerError => timestamp error >? cutoff).
  change (sublist (List.filter keep errors) errors /\
          (forall e, e ∈ List.filter keep errors <-> e ∈ errors /\ timestamp e > cutoff) /\
          (forall latest,
             getMostRecentError errors None = Some latest ->
             (timestamp latest > cutoff ->
              getMostRecentError (List.filter keep errors) None = Some latest) /\
             (timestamp latest <= cutoff -> List.filter keep errors = []))).
  assert (Hkeep : forall e, keep e = true <-> timestamp e > cutoff).
  { intros e. unfold keep. destruct (Z.gtb_spec (timestamp e) cutoff) as [Hgt|Hle].
    - split; [intros _; lia | reflexivity].
    - split; [discriminate | intros; lia]. }
  assert (Hmem : forall l e, e ∈ List.filter keep l <-> e ∈ l /\ timestamp e > cutoff).
  { intros l e. rewrite <- Hkeep. split.
    - intros Hin. apply list_elem_of_In, filter_In in Hin as [Hin Hk].
      split; [now apply list_elem_of_In | exact Hk].
    - intros [Hin Hk]. apply list_elem_of_In, filter_In. split; [now apply list_elem_of_In in Hin
                                                                 | exact Hk]. }
  split; [|split; [apply Hmem|]].
  - clear. induction errors as [|e errors IH]; simpl; [constructor|].
    destruct (keep e); [now apply sublist_skip | now apply sublist_cons].
  - intros latest Hlatest.
    apply getMostRecentError_all in Hlatest as (pre & post & -> & Hpre & Hpost). split.
    + intros Hyoung. apply getMostRecentError_all.
      exists (List.filter keep pre), (List.filter keep post).
      rewrite List.filter_app. simpl. rewrite (proj2 (Hkeep latest) Hyoung).
      split; [reflexivity|]. split; intros e Hin; apply Hmem in Hin as [Hin _]; auto.
    + intros Hold.
      assert (Hall : forall e, e ∈ (pre ++ latest :: post)%list -> keep e = false).
      { intros e Hin. destruct (keep e) eqn:Hk; [|reflexivity]. apply Hkeep in Hk.
        apply elem_of_app in Hin as [Hin | Hin]; [specialize (Hpre e Hin); lia|].
        apply elem_of_cons in Hin as [-> | Hin]; [lia | specialize (Hpost e Hin); lia]. }
      revert Hall. generalize (pre ++ latest :: post)%list. clear.
      intros l Hall. induction l as [|e l IH]; simpl; [reflexivity|].
      rewrite (Hall e) by left. apply IH. intros e' Hin. apply Hall. now right.
Qed.

End ErrorLog.

(** ** Starting the indexer *)

Section StartOutcomes.

Context (env : Env).

Local Abbreviation configOf :=
  {| token := kilocodeToken env; organizationId := kilocodeOrganizationId env;
     testerWarningsDisabledUntil := kilocodeTesterWarningsDisabledUntil env |}.

(** What [isIndexingEnabledAtom] asks the organization service when the
    configuration of the host is loaded. *)
Local Abbreviation entitlement :=
  (codeIndexingEnabled env
     (if isConfigValid configOf
      then Some (str (kilocodeToken env), str (kilocodeOrganizationId env),
                 kilocodeTesterWarningsDisabledUntil env)
      else None)).

Local Abbreviation loaded w :=
  (set_config (kilocodeToken env) (kilocodeOrganizationId env)
     (kilocodeTesterWarningsDisabledUntil env) w).

Lemma isIndexingEnabledAtom_run w :
  isIndexingEnabledAtom env (loaded w) = (entitlement, loaded w).
Proof.
  unfold isIndexingEnabledAtom, isConfigValid.
  rewrite (bind_normal (gets configAtom) _ (loaded w) (configAtom (loaded w)) (loaded w) eq_refl).
  change (configAtom (loaded w)) with configOf. cbn [token organizationId].
  destruct (truthy (kilocodeToken env)), (truthy (kilocodeOrganizationId env)); reflexivity.
Qed.

Lemma setupFolders_keeps {X : Type} (obs : World -> X) :
  (forall s, keeps obs (setupWorkspaceFolder env s)) ->
  forall states folderMap, keeps obs (setupFolders env states folderMap).
Proof.
  intros Hstep states. induction states as [|s rest IH]; intros folderMap; simpl.
  - apply keeps_ret.
  - apply keeps_bind; [apply Hstep|]. intros [s'|]; apply IH.
Qed.

(** The steps of [start] once the gates are passed: none of them throws. *)
Lemma start_run w :
  match workspaceFolders env with
  | None | Some [] => start env w = (Normal tt, loaded w)
  | Some wfs =>
      match entitlement with
      | Throw e => start env w = (Throw e, loaded w)
      | Normal false => start env w = (Normal tt, loaded w)
      | Normal true =>
          if isConfigValid configOf then
            exists inits w1 folderMap w2 w',
              mapM (fun folder0 => initializeWorkspaceFolder env folder0 configOf) wfs
                (set_isActive true (loaded w)) = (Normal inits, w1) /\
              Forall2 (fun folder0 r =>
                         exists wa wb,
                           initializeWorkspaceFolder env folder0 configOf wa = (Normal r, wb))
                      wfs inits /\
              setupFolders env (omap id inits) JsMap.empty w1 = (Normal folderMap, w2) /\
              startWatchers env (set_workspaceFolders folderMap w2) = (Normal tt, w') /\
              workspaceFoldersAtom w' = folderMap /\
              isActiveAtom w' = true /\
              configAtom w' = configOf /\
              start env w = (Normal tt, w')
          else start env w = (Normal tt, loaded w)
      end
  end.
Proof.
  unfold start.
  rewrite (bind_normal (loadConfiguration env) _ w tt (loaded w) eq_refl).
  destruct (workspaceFolders env) as [[|first others]|]; try reflexivity.
  pose proof (isIndexingEnabledAtom_run w) as Hi. revert Hi.
  destruct entitlement as [[|]|e]; intros Hi.
  3:{ now rewrite (bind_throw _ _ _ _ _ Hi). }
  2:{ now rewrite (bind_normal _ _ _ _ _ Hi). }
  rewrite (bind_normal _ _ _ _ _ Hi). cbn [negb].
  rewrite (bind_normal (gets configAtom) _ (loaded w) configOf (loaded w) eq_refl).
  unfold isConfigValid. cbn [token organizationId].
  destruct (truthy (kilocodeToken env)), (truthy (kilocodeOrganizationId env));
    cbn [negb orb andb]; try reflexivity.
  rewrite (bind_normal (modify (set_isActive true)) _ (loaded w) tt
             (set_isActive true (loaded w)) eq_refl).
  unfold tryCatch.
  destruct (mapM_initializeWorkspaceFolder env configOf (first :: others)
              (set_isActive true (loaded w))) as (inits & w1 & Hinit & Hall).
  destruct (setupFolders_spec env (omap id inits) JsMap.empty w1)
    as (folderMap & w2 & Hsetup & Hc2 & Ha2 & _).
  destruct (startWatchers_spec env (set_workspaceFolders folderMap w2))
    as (w' & Hwatch & Hreg & Ha3).
  exists inits, w1, folderMap, w2, w'.
  split; [exact Hinit|]. split; [exact Hall|]. split; [exact Hsetup|].
  split; [exact Hwatch|]. split; [exact Hreg|].
  assert (Ka : keeps isActiveAtom
                 (mapM (fun folder0 => initializeWorkspaceFolder env folder0 configOf)
                    (first :: others))) by (unfold_engine; keeps_auto).
  assert (Kc : keeps configAtom
                 (mapM (fun folder0 => initializeWorkspaceFolder env folder0 configOf)
                    (first :: others))) by (unfold_engine; keeps_auto).
  specialize (Ka (set_isActive true (loaded w))).
  specialize (Kc (set_isActive true (loaded w))). rewrite Hinit in Ka, Kc.
  assert (Kc3 : keeps configAtom (startWatchers env))
    by (unfold startWatchers; unfold_engine; keeps_auto).
  specialize (Kc3 (set_workspaceFolders folderMap w2)). rewrite Hwatch in Kc3.
  cbn [snd] in Ka, Kc, Kc3. simpl in Ka.
  change (configAtom (set_isActive true (loaded w))) with configOf in Kc.
  change (configAtom (set_workspaceFolders folderMap w2)) with (configAtom w2) in Kc3.
  change (isActiveAtom (set_workspaceFolders folderMap w2)) with (isActiveAtom w2) in Ha3.
  split; [congruence|]. split; [congruence|].
  rewrite (bind_normal _ _ _ _ _ Hinit), (bind_normal _ _ _ _ _ Hsetup).
  rewrite (bind_normal (modify (set_workspaceFolders folderMap)) _ w2 tt
             (set_workspaceFolders folderMap w2) eq_refl).
  now rewrite Hwatch.
Qed.

Ltac keeps_start :=
  unfold start, loadConfiguration, isIndexingEnabledAtom, startWatchers; unfold_engine;
  keeps_with ltac:(apply setupFolders_keeps; intros; unfold_engine; keeps_auto).

Lemma start_keeps_errors : keeps errorsAtom (start env).
Proof. keeps_start. Qed.

Lemma start_keeps_queue : keeps fileUpsertQueueAtom (start env).
Proof. keeps_start. Qed.

Lemma start_keeps_interval : keeps fileUpsertInterval (start env).
Proof. keeps_start. Qed.

Lemma start_keeps_disposables : keeps disposables (start env).
Proof. keeps_start. Qed.

(** X24.  The outcomes of [start].  It first loads the configuration, and
    stops there, returning normally and leaving the active flag and the
    registry as they were, when the host has no workspace folder, when the
    organization is not entitled to indexing, or when the token or the
    organization id is missing.  It throws only when the entitlement lookup
    throws, with that error and nothing written but the configuration.
    Once those gates are passed it always returns normally with the active
    flag set: no failure of a folder, of a fetch or of a watcher makes it
    throw, so its [catch] is never entered.  It never writes to the error
    log or to the upload queue. *)
Theorem start_outcomes (w : World) :
  ((workspaceFolders env = None \/ workspaceFolders env = Some []) ->
   start env w = (Normal tt, loaded w)) /\
  (forall wfs,
     workspaceFolders env = Some wfs -> wfs <> [] ->
     (forall e, entitlement = Throw e -> start env w = (Throw e, loaded w)) /\
     (entitlement = Normal false -> start env w = (Normal tt, loaded w)) /\
     (entitlement = Normal true -> isConfigValid configOf = false ->
      start env w = (Normal tt, loaded w)) /\
     (entitlement = Normal true -> isConfigValid configOf = true ->
      exists w', start env w = (Normal tt, w') /\ isActiveAtom w' = true /\
                 configAtom w' = configOf)) /\
  (forall e w', start env w = (Throw e, w') -> entitlement = Throw e /\ w' = loaded w) /\
  errorsAtom (snd (start env w)) = errorsAtom w /\
  fileUpsertQueueAtom (snd (start env w)) = fileUpsertQueueAtom w.
Proof.
  pose proof (start_run w) as Hrun.
  split; [|split; [|split; [|split]]].
  - intros [Hnone | Hnil]; rewrite ?Hnone, ?Hnil in Hrun; exact Hrun.
  - intros wfs Hwfs Hne. rewrite Hwfs in Hrun.
    destruct wfs as [|first others]; [contradiction|].
    split; [|split; [|split]].
    + intros e He. now rewrite He in Hrun.
    + intros He. now rewrite He in Hrun.
    + intros He Hvalid. now rewrite He, Hvalid in Hrun.
    + intros He Hvalid. rewrite He, Hvalid in Hrun.
      destruct Hrun as (inits & w1 & folderMap & w2 & w' & _ & _ & _ & _ & _ & Hactive
                        & Hconfig & Hstart).
      exists w'. split; [exact Hstart|]. split; [exact Hactive | exact Hconfig].
  - intros e w' Hthrow.
    destruct (workspaceFolders env) as [[|first others]|]; try congruence.
    destruct entitlement as [[|]|e0]; try congruence.
    + destruct (isConfigValid configOf); [|congruence].
      destruct Hrun as (? & ? & ? & ? & ? & _ & _ & _ & _ & _ & _ & _ & Hstart). congruence.
    + split; congruence.
  - apply start_keeps_errors.
  - apply start_keeps_queue.
Qed.

(** *** The watchers [start] registers *)

Lemma JsMap_set_omap_elem {V B : Type} (f : V -> option B) k v (m : JsMap.t V) b :
  b ∈ omap f (JsMap.values (JsMap.set k v m)) ->
  b ∈ omap f (JsMap.values m) \/ f v = Some b.
Proof.
  unfold JsMap.values. induction m as [|[k' v'] rest IH]; simpl.
  - destruct (f v) as [b'|] eqn:Hv; intros Hin.
    + apply list_elem_of_singleton in Hin. subst b'. now right.
    + now apply elem_of_nil in Hin.
  - destruct (String.eqb k' k); simpl.
    + destruct (f v) as [b'|] eqn:Hv; intros Hin.
      * apply elem_of_cons in Hin as [-> | Hin]; [now right|].
        left. destruct (f v'); [now right | exact Hin].
      * left. destruct (f v'); [now right | exact Hin].
    + destruct (f v') as [b'|]; intros Hin.
      * apply elem_of_cons in Hin as [-> | Hin]; [left; left|].
        destruct (IH Hin) as [Hold | Hnew]; [left; now right | now right].
      * exact (IH Hin).
Qed.

Lemma JsMap_set_omap_NoDup {V B : Type} (f : V -> option B) k v (m : JsMap.t V) :
  NoDup (omap f (JsMap.values m)) ->
  (forall b, f v = Some b -> b ∉ omap f (JsMap.values m)) ->
  NoDup (omap f (JsMap.values (JsMap.set k v m))).
Proof.
  unfold JsMap.values. induction m as [|[k' v'] rest IH]; simpl; intros Hnodup Hfresh.
  - destruct (f v); [apply NoDup_singleton | constructor].
  - destruct (String.eqb k' k); simpl.
    + assert (Hrest : NoDup (omap f (map snd rest)))
        by (destruct (f v'); [now apply NoDup_cons in Hnodup as [_ ?] | exact Hnodup]).
      destruct (f v) as [b|] eqn:Hv; [|exact Hrest].
      apply NoDup_cons. split; [|exact Hrest].
      intros Hin. apply (Hfresh b eq_refl). destruct (f v'); [now right | exact Hin].
    + destruct (f v') as [b'|] eqn:Hv'.
      * apply NoDup_cons in Hnodup as [Hnot Hnodup]. apply NoDup_cons. split.
        -- intros Hin. apply (JsMap_set_omap_elem f k v rest b') in Hin as [Hold | Hnew];
             [contradiction|]. apply (Hfresh b' Hnew). left.
        -- apply IH; [exact Hnodup|]. intros b Hb Hin. apply (Hfresh b Hb). now right.
      * apply IH; [exact Hnodup | exact Hfresh].
Qed.

(** Two registered states with the same watcher are one state. *)
Lemma omap_NoDup_inj {A B : Type} (f : A -> option B) (l : list A) (x y : A) (b : B) :
  NoDup (omap f l) -> x ∈ l -> y ∈ l -> f x = Some b -> f y = Some b -> x = y.
Proof.
  induction l as [|a l IH]; simpl; intros Hnodup Hx Hy Hfx Hfy.
  - now apply elem_of_nil in Hx.
  - assert (Hmem : forall z, z ∈ l -> f z = Some b -> b ∈ omap f l).
    { intros z Hz Hfz. apply list_elem_of_omap. eauto. }
    apply elem_of_cons in Hx as [-> | Hx]; apply elem_of_cons in Hy as [-> | Hy].
    + reflexivity.
    + rewrite Hfx in Hnodup. apply NoDup_cons in Hnodup as [Hnot _].
      exfalso. apply Hnot. now apply (Hmem y).
    + rewrite Hfy in Hnodup. apply NoDup_cons in Hnodup as [Hnot _].
      exfalso. apply Hnot. now apply (Hmem x).
    + apply IH; try assumption.
      destruct (f a); [now apply NoDup_cons in Hnodup as [_ ?] | exact Hnodup].
Qed.

(** [setupWorkspaceFolder] gives a folder either the watcher it came with or
    one built meanwhile, whose identity is new. *)
Lemma setupWorkspaceFolder_watcher state w r w1 :
  setupWorkspaceFolder env state w = (Normal r, w1) ->
  (watcherCount w <= watcherCount w1)%nat /\
  forall s, r = Some s ->
            watcher s = watcher state \/
            exists id, watcher s = Some id /\ (watcherCount w <= id < watcherCount w1)%nat.
Proof.
  unfold setupWorkspaceFolder. unfold bind at 1. unfold gets.
  destruct (_ || _).
  { intros [= <- <-]. split; [lia | intros s [=]]. }
  unfold tryCatch, setupWorkspaceFolder_try. unfold bind at 1.
  match goal with
  | |- context [getOrFetchManifest env ?p w] =>
      assert (Kw : keeps watcherCount (getOrFetchManifest env p))
        by (unfold_engine; keeps_auto);
      specialize (Kw w);
      destruct (getOrFetchManifest env p w) as [[m|e] wm]
  end; simpl in Kw.
  - unfold createWatcher, createError, dateNow. unfold_m.
    destruct (gitWatcherThrows env _); simpl; intros [= <- <-]; simpl; rewrite Kw;
      (split; [lia|]); intros s [= <-]; simpl; [now left|].
    right. exists (watcherCount w). split; [reflexivity | lia].
  - unfold createError, dateNow. unfold_m. simpl. intros [= <- <-]. simpl. rewrite Kw.
    split; [lia|]. intros s [= <-]. now left.
Qed.

Lemma setupFolders_watchers states :
  (forall s, s ∈ states -> watcher s = None) ->
  forall folderMap w folderMap' w',
    setupFolders env states folderMap w = (Normal folderMap', w') ->
    NoDup (omap watcher (JsMap.values folderMap)) ->
    (forall id, id ∈ omap watcher (JsMap.values folderMap) -> (id < watcherCount w)%nat) ->
    NoDup (omap watcher (JsMap.values folderMap')) /\
    (forall id, id ∈ omap watcher (JsMap.values folderMap') -> (id < watcherCount w')%nat).
Proof.
  induction states as [|state rest IH]; intros Hnone folderMap w folderMap' w' Hrun Hnodup Hold;
    simpl in Hrun.
  - injection Hrun as <- <-. now split.
  - destruct (setupWorkspaceFolder_normal env state w) as (r & w1 & Hr & _).
    rewrite (bind_normal _ _ _ _ _ Hr) in Hrun.
    destruct (setupWorkspaceFolder_watcher state w r w1 Hr) as [Hmono Hnew].
    assert (Hrest : forall s, s ∈ rest -> watcher s = None)
      by (intros s Hs; apply Hnone; now right).
    destruct r as [s|].
    + apply (IH Hrest _ _ _ _ Hrun).
      * apply JsMap_set_omap_NoDup; [exact Hnodup|].
        intros id Hid Hin. specialize (Hold id Hin).
        destruct (Hnew s eq_refl) as [Hsame | (id' & Hid' & Hrange)].
        -- rewrite Hsame, (Hnone state) in Hid by left. discriminate.
        -- rewrite Hid in Hid'. injection Hid' as <-. lia.
      * intros id Hin. apply JsMap_set_omap_elem in Hin as [Hin | Hid].
        -- specialize (Hold id Hin). lia.
        -- destruct (Hnew s eq_refl) as [Hsame | (id' & Hid' & Hrange)].
           ++ rewrite Hsame, (Hnone state) in Hid by left. discriminate.
           ++ rewrite Hid in Hid'. injection Hid' as <-. lia.
    + apply (IH Hrest _ _ _ _ Hrun); [exact Hnodup|].
      intros id Hin. specialize (Hold id Hin). lia.
Qed.

Lemma initializeWorkspaceFolder_no_watcher folder0 config w s w1 :
  initializeWorkspaceFolder env folder0 config w = (Normal (Some s), w1) ->
  watcher s = None.
Proof.
  unfold initializeWorkspaceFolder, fetchGitInfo, createError, dateNow. unfold_m.
  destruct (isGitRepository env (fsPath folder0)) as [[|]|e]; simpl;
    try (intros [= <- <-]; reflexivity); try discriminate.
  destruct (getGitRepositoryInfo env (fsPath folder0)) as [url|e]; simpl;
    try (intros [= <- <-]; reflexivity).
  destruct (getCurrentBranch env (fsPath folder0)) as [branch|e]; simpl;
    try (intros [= <- <-]; reflexivity).
  destruct (getKilocodeConfig env (fsPath folder0) _) as [pc|e]; simpl;
    try (intros [= <- <-]; reflexivity).
  destruct (truthy pc); simpl; try (intros [= <- <-]; reflexivity); try discriminate.
Qed.

(** X25.  [start] keeps the watchers of the registry distinct: if no two
    registered folders share a watcher before, none do afterwards; the
    watchers it builds are new objects, one per folder.  A registered
    watcher therefore identifies its folder: an event carrying it is routed
    to that folder's state and to no other. *)
Theorem start_watchers_identify_folders (w : World) :
  NoDup (omap watcher (JsMap.values (workspaceFoldersAtom w))) ->
  let registry := workspaceFoldersAtom (snd (start env w)) in
  NoDup (omap watcher (JsMap.values registry)) /\
  (forall s id, s ∈ JsMap.values registry -> watcher s = Some id ->
                findWorkspaceFolderByWatcher registry (Some id) = Some s).
Proof.
  intros Hbefore registry.
  assert (Hnodup : NoDup (omap watcher (JsMap.values registry))).
  { subst registry. pose proof (start_run w) as Hrun.
    destruct (workspaceFolders env) as [[|first others]|];
      try (rewrite Hrun; exact Hbefore).
    destruct entitlement as [[|]|e]; try (rewrite Hrun; exact Hbefore).
    destruct (isConfigValid configOf); [|rewrite Hrun; exact Hbefore].
    destruct Hrun as (inits & w1 & folderMap & w2 & w' & _ & Hall & Hsetup & _ & Hreg & _ & _
                      & ->).
    simpl. rewrite Hreg.
    refine (proj1 (setupFolders_watchers (omap id inits) _ _ _ _ _ Hsetup _ _)).
    - intros s Hs. destruct (proj1 (initialised_states env configOf _ _ Hall) s Hs)
        as (_ & wa & wb & Hinit).
      exact (initializeWorkspaceFolder_no_watcher _ _ _ _ _ Hinit).
    - constructor.
    - intros id Hin. now apply elem_of_nil in Hin. }
  split; [exact Hnodup|].
  intros s id Hs Hid. apply findWorkspaceFolderByWatcher_matches; try assumption.
  intros s1 s2 Hs1 Hs2 H1 H2. exact (omap_NoDup_inj watcher _ s1 s2 id Hnodup Hs1 Hs2 H1 H2).
Qed.

(** *** Folders whose inspection fails *)

(** One of the inspections of [initializeWorkspaceFolder] throws [e] for
    the folder at [path]. *)
Local Abbreviation inspectionThrows path e :=
  (isGitRepository env path = Throw e \/
   isGitRepository env path = Normal true /\
   (getGitRepositoryInfo env path = Throw e \/
    exists url,
      getGitRepositoryInfo env path = Normal url /\
      (getCurrentBranch env path = Throw e \/
       exists branch,
         getCurrentBranch env path = Normal branch /\
         getKilocodeConfig env path (Some (str (orElse url (Some "")))) = Throw e))).

Lemma initializeWorkspaceFolder_throws folder0 config w e :
  inspectionThrows (fsPath folder0) e ->
  initializeWorkspaceFolder env folder0 config w
  = (Normal (Some {| folder := folder0; gitBranch := None; projectId := None;
                     repositoryUrl := None; isIndexing := false; watcher := None;
                     lastError :=
                       Some {| type := setup;
                               message := match e with
                                          | JsError msg _ => msg
                                          | JsValue text => text
                                          end;
                               timestamp := clock env (clockReads w);
                               context := Some {| ctx_filePath := None; ctx_branch := None;
                                                  ctx_operation := Some "initialize-workspace" |};
                               details := match e with
                                          | JsError _ stack => stack
                                          | JsValue _ => None
                                          end |} |}),
     set_clockReads (S (clockReads w)) w).
Proof.
  unfold initializeWorkspaceFolder, fetchGitInfo, createError, dateNow. unfold_m.
  intros [H1 | [H1 [H2 | (url & H2 & [H3 | (branch & H3 & H4)])]]];
    rewrite H1; simpl; try reflexivity;
    rewrite H2; simpl; try reflexivity;
    rewrite H3; simpl; try reflexivity;
    rewrite H4; reflexivity.
Qed.

Lemma setupWorkspaceFolder_no_project state w :
  truthy (projectId state) = false ->
  setupWorkspaceFolder env state w = (Normal None, w).
Proof.
  intros Hpid. unfold setupWorkspaceFolder.
  rewrite (bind_normal (gets configAtom) _ w (configAtom w) w eq_refl), Hpid.
  now rewrite !orb_true_r.
Qed.

Lemma setupFolders_skips path states :
  (forall s, s ∈ states -> fsPath (folder s) = path -> truthy (projectId s) = false) ->
  forall folderMap w folderMap' w',
    setupFolders env states folderMap w = (Normal folderMap', w') ->
    JsMap.get path folderMap' = JsMap.get path folderMap.
Proof.
  induction states as [|state rest IH]; intros Hskip folderMap w folderMap' w' Hrun;
    simpl in Hrun.
  - now injection Hrun as <- <-.
  - assert (Hrest : forall s, s ∈ rest -> fsPath (folder s) = path ->
                              truthy (projectId s) = false)
      by (intros s Hs; apply Hskip; now right).
    destruct (String.eqb_spec (fsPath (folder state)) path) as [Heq|Hne].
    + rewrite (bind_normal _ _ _ _ _
                 (setupWorkspaceFolder_no_project state w (Hskip state ltac:(left) Heq)))
        in Hrun.
      exact (IH Hrest _ _ _ _ Hrun).
    + destruct (setupWorkspaceFolder_normal env state w) as (r & w1 & Hr & _).
      rewrite (bind_normal _ _ _ _ _ Hr) in Hrun. destruct r as [s|].
      * rewrite (IH Hrest _ _ _ _ Hrun). now apply JsMap_get_set_ne.
      * exact (IH Hrest _ _ _ _ Hrun).
Qed.

(** X26.  A workspace folder one of whose inspections throws during
    [start] (the repository check, the repository information, the current
    branch or the project configuration) does not make [start] fail and is
    not registered; the [setup] error that [initializeWorkspaceFolder] built
    for it is dropped with it: the error log is as before, so nothing in the
    store tells that the folder was tried. *)
Theorem start_drops_failed_initialisation (w : World) (wfs : list WorkspaceFolder)
    (folder0 : WorkspaceFolder) (e : Thrown) :
  workspaceFolders env = Some wfs ->
  folder0 ∈ wfs ->
  entitlement = Normal true ->
  isConfigValid configOf = true ->
  inspectionThrows (fsPath folder0) e ->
  (forall config w0, exists s err w1,
     initializeWorkspaceFolder env folder0 config w0 = (Normal (Some s), w1) /\
     lastError s = Some err /\ type err = setup /\
     message err = match e with JsError msg _ => msg | JsValue text => text end) /\
  exists w',
    start env w = (Normal tt, w') /\
    isActiveAtom w' = true /\
    JsMap.get (fsPath folder0) (workspaceFoldersAtom w') = None /\
    errorsAtom w' = errorsAtom w.
Proof.
  intros Hwfs Hin Hent Hvalid Hthrows. split.
  { intros config w0. eexists _, _, _.
    rewrite (initializeWorkspaceFolder_throws folder0 config w0 e Hthrows).
    split; [reflexivity|]. simpl. repeat split. }
  pose proof (start_run w) as Hrun. rewrite Hwfs in Hrun.
  destruct wfs as [|first others]; [now apply elem_of_nil in Hin|].
  rewrite Hent, Hvalid in Hrun.
  destruct Hrun as (inits & w1 & folderMap & w2 & w' & Hinit & Hall & Hsetup & Hwatch & Hreg
                    & Hactive & _ & Hstart).
  exists w'. split; [exact Hstart|].
  pose proof (start_keeps_errors w) as Herrors. rewrite Hstart in Herrors.
  split; [exact Hactive|]. split; [|exact Herrors].
  rewrite Hreg.
  assert (Hskip : forall s, s ∈ omap id inits -> fsPath (folder s) = fsPath folder0 ->
                            truthy (projectId s) = false).
  { intros s Hs Hpath.
    destruct (proj1 (initialised_states env configOf _ _ Hall) s Hs) as (_ & wa & wb & Hrun).
    rewrite <- Hpath in Hthrows.
    rewrite (initializeWorkspaceFolder_throws (folder s) configOf wa e Hthrows) in Hrun.
    injection Hrun as <- _. reflexivity. }
  now rewrite (setupFolders_skips (fsPath folder0) (omap id inits) Hskip _ _ _ _ Hsetup).
Qed.

End StartOutcomes.

Lemma start_watchers_identify_folders_witness :
  let registry := workspaceFoldersAtom (snd (start (Sample.host true 0) initialWorld)) in
  findWorkspaceFolderByWatcher registry (Some 0%nat)
  = Some (Sample.stateA (Some 0%nat) None).
Proof.
  refine (proj2 (start_watchers_identify_folders (Sample.host true 0) initialWorld _)
            (Sample.stateA (Some 0%nat) None) 0%nat _ eq_refl).
  - constructor.
  - vm_compute. left.
Defined.

Lemma start_drops_failed_initialisation_witness :
  exists w',
    start MoreSample.unreadable initialWorld = (Normal tt, w') /\
    isActiveAtom w' = true /\
    JsMap.get "/test/plain" (workspaceFoldersAtom w') = None /\
    errorsAtom w' = [].
Proof.
  exact (proj2 (start_drops_failed_initialisation MoreSample.unreadable initialWorld
                  [Sample.folderA; Sample.folderB] Sample.folderB (JsError "EACCES" None)
                  eq_refl ltac:(right; left) eq_refl eq_refl (or_introl eq_refl))).
Defined.

(** ** Shutting down and restarting *)

Section Shutdown.

Context (env : Env).

Lemma set_effects_same w : set_effects (effects w) w = w.
Proof. now destruct w. Qed.

(** A loop whose turns only log effects logs them in order. *)
Lemma forEach_emits {A : Type} (f : A -> M unit) (logged : A -> list Effect) (xs : list A) :
  (forall x, x ∈ xs ->
     forall w, f x w = (Normal tt, set_effects (effects w ++ logged x) w)) ->
  forall w,
    forEach f xs w = (Normal tt, set_effects (effects w ++ concat (map logged xs)) w).
Proof.
  induction xs as [|x xs IH]; intros Hturn w; simpl.
  - rewrite app_nil_r. now rewrite set_effects_same.
  - rewrite (bind_normal _ _ _ _ _ (Hturn x ltac:(left) w)).
    rewrite IH by (intros x' Hin; apply Hturn; now right).
    simpl. now rewrite <- app_assoc.
Qed.

(** A loop that throws does so in one of its turns, the turns before having
    returned. *)
Lemma forEach_throw_inv {A : Type} (f : A -> M unit) (xs : list A) w e w' :
  forEach f xs w = (Throw e, w') ->
  exists x wx, x ∈ xs /\ f x wx = (Throw e, w').
Proof.
  revert w. induction xs as [|x xs IH]; intros w; simpl; [discriminate|].
  unfold bind at 1. destruct (f x w) as [[[]|e0] w1] eqn:Hturn.
  - intros Hrest. destruct (IH w1 Hrest) as (x' & wx & Hin & Hx').
    exists x', wx. split; [now right | exact Hx'].
  - intros [= <- <-]. exists x, w. split; [left | exact Hturn].
Qed.

Local Abbreviation disposeWatcher :=
  (fun state : WorkspaceFolderState =>
     match watcher state with
     | Some w => emit (WatcherDisposed w) ;;; await (watcherDispose env w)
     | None => ret tt
     end).

Local Abbreviation disposeSubscription :=
  (fun d : option Disposable =>
     match d with
     | Some d' => emit (SubscriptionDisposed d') ;;; await (subscriptionDispose env d')
     | None => ret tt
     end).

(** The store after the interval of the queue worker is cleared. *)
Local Abbreviation cleared w :=
  (match fileUpsertInterval w with
   | Some t => set_fileUpsertInterval None (set_effects (effects w ++ [IntervalCleared t]) w)
   | None => w
   end).

(** The atoms as [dispose] resets them. *)
Local Abbreviation reset w :=
  (set_errors []
     (set_fileUpsertQueue [] (set_isActive false (set_workspaceFolders JsMap.empty w)))).

(** [dispose] step by step: the interval, the watchers, the atoms, the
    subscriptions; a throw of a watcher or of a subscription ends it
    there. *)
Lemma dispose_run w :
  dispose env w
  = match forEach disposeWatcher (JsMap.values (workspaceFoldersAtom w)) (cleared w) with
    | (Throw e, ww) => (Throw e, ww)
    | (Normal _, ww) =>
        match forEach disposeSubscription (disposables ww) (reset ww) with
        | (Throw e, ws) => (Throw e, ws)
        | (Normal _, ws) => (Normal tt, set_disposables [] ws)
        end
    end.
Proof.
  unfold dispose, disposeAllWatchers, clearErrorsAtom.
  rewrite (bind_normal (gets fileUpsertInterval) _ w (fileUpsertInterval w) w eq_refl).
  assert (Hinterval :
            match fileUpsertInterval w with
            | Some t => emit (IntervalCleared t) ;;; modify (set_fileUpsertInterval None)
            | None => ret tt
            end w = (Normal tt, cleared w)).
  { destruct (fileUpsertInterval w); reflexivity. }
  rewrite (bind_normal _ _ _ _ _ Hinterval).
  rewrite (bind_normal (gets workspaceFoldersAtom) _ (cleared w)
             (workspaceFoldersAtom w) (cleared w))
    by (destruct (fileUpsertInterval w); reflexivity).
  unfold bind at 1.
  destruct (forEach disposeWatcher (JsMap.values (workspaceFoldersAtom w)) (cleared w))
    as [[[]|e] ww]; [|reflexivity].
  unfold modify, gets. unfold bind at 1 2 3 4 5. simpl.
  unfold bind at 1.
  destruct (forEach disposeSubscription (disposables ww) _) as [[[]|e] ws]; reflexivity.
Qed.

Lemma concat_watchers (states : list WorkspaceFolderState) :
  concat (map (fun state => match watcher state with
                            | Some id => [WatcherDisposed id]
                            | None => []
                            end) states)
  = WatcherDisposed <$> omap watcher states.
Proof.
  induction states as [|s states IH]; simpl; [reflexivity|].
  destruct (watcher s); simpl; now rewrite IH.
Qed.

Lemma concat_subscriptions (ds : list (option Disposable)) :
  concat (map (fun d => match d with
                        | Some d' => [SubscriptionDisposed d']
                        | None => []
                        end) ds)
  = SubscriptionDisposed <$> omap id ds.
Proof.
  induction ds as [|d ds IH]; simpl; [reflexivity|].
  destruct d; simpl; now rewrite IH.
Qed.

Lemma cleared_interval w : fileUpsertInterval (cleared w) = None.
Proof. destruct (fileUpsertInterval w) eqn:Hinterval; [reflexivity | exact Hinterval]. Qed.

Lemma forEach_disposeWatcher_keeps {X : Type} (obs : World -> X)
    (states : list WorkspaceFolderState) :
  (forall l w0, obs (set_effects l w0) = obs w0) ->
  keeps obs (forEach disposeWatcher states).
Proof.
  intros Hobs. apply keeps_forEach. intros state w0.
  destruct (watcher state) as [id|]; [|reflexivity].
  unfold emit. unfold_m. simpl. destruct (watcherDispose env id); apply Hobs.
Qed.

Lemma forEach_disposeSubscription_keeps {X : Type} (obs : World -> X)
    (ds : list (option Disposable)) :
  (forall l w0, obs (set_effects l w0) = obs w0) ->
  keeps obs (forEach disposeSubscription ds).
Proof.
  intros Hobs. apply keeps_forEach. intros [d|] w0; [|reflexivity].
  unfold emit. unfold_m. simpl. destruct (subscriptionDispose env d); apply Hobs.
Qed.

(** X27.  When no watcher and no subscription throws on being disposed,
    [dispose] returns normally, and then: the interval of the queue worker
    is cleared, every registered watcher is disposed, in registry order,
    then every subscription, in order; the registry, the queue, the error
    log and the list of subscriptions are empty and the indexer is
    inactive.  The manifest cache and the configuration are kept, so a
    later start can still be served manifests fetched before. *)
Theorem dispose_completes (w : World) :
  (forall id, id ∈ omap watcher (JsMap.values (workspaceFoldersAtom w)) ->
              watcherDispose env id = Normal tt) ->
  (forall d, Some d ∈ disposables w -> subscriptionDispose env d = Normal tt) ->
  exists w',
    dispose env w = (Normal tt, w') /\
    workspaceFoldersAtom w' = [] /\
    isActiveAtom w' = false /\
    fileUpsertQueueAtom w' = [] /\
    errorsAtom w' = [] /\
    disposables w' = [] /\
    fileUpsertInterval w' = None /\
    manifestCacheAtom w' = manifestCacheAtom w /\
    configAtom w' = configAtom w /\
    effects w'
    = (effects w ++
       match fileUpsertInterval w with Some t => [IntervalCleared t] | None => [] end ++
       (WatcherDisposed <$> omap watcher (JsMap.values (workspaceFoldersAtom w))) ++
       (SubscriptionDisposed <$> omap id (disposables w)))%list.
Proof.
  intros Hwatchers Hsubs. rewrite dispose_run.
  rewrite (forEach_emits disposeWatcher
             (fun state => match watcher state with
                           | Some id => [WatcherDisposed id]
                           | None => []
                           end)).
  2:{ intros state Hin w0. destruct (watcher state) as [id|] eqn:Hid.
      - unfold emit. unfold_m. rewrite Hwatchers; [reflexivity|].
        apply list_elem_of_omap. eauto.
      - unfold ret. now rewrite app_nil_r, set_effects_same. }
  cbv iota beta.
  set (ww := set_effects _ (cleared w)).
  assert (Hds : disposables ww = disposables w)
    by (unfold ww; destruct (fileUpsertInterval w); reflexivity).
  rewrite (forEach_emits disposeSubscription
             (fun d => match d with
                       | Some d' => [SubscriptionDisposed d']
                       | None => []
                       end)).
  2:{ intros d Hin w0. rewrite Hds in Hin. destruct d as [d'|].
      - unfold emit. unfold_m. now rewrite (Hsubs d' Hin).
      - unfold ret. now rewrite app_nil_r, set_effects_same. }
  cbv iota beta. eexists. split; [reflexivity|].
  rewrite Hds. unfold ww. rewrite concat_watchers, concat_subscriptions.
  destruct (fileUpsertInterval w) eqn:Hinterval; simpl; repeat split;
    rewrite <- ?app_assoc; first [reflexivity | exact Hinterval].
Qed.

(** X28.  [dispose] is not protected against a throwing [dispose()] of a
    watcher or of a subscription.  When it throws, the interval is already
    cleared, and either a registered watcher threw, and then the registry,
    the active flag, the queue, the error log and the subscriptions are all
    as before: the indexer still counts as active; or a held subscription
    threw, and then the atoms are reset but the list of subscriptions is
    not. *)
Theorem dispose_interrupted (w : World) (e : Thrown) (w' : World) :
  dispose env w = (Throw e, w') ->
  fileUpsertInterval w' = None /\
  manifestCacheAtom w' = manifestCacheAtom w /\
  (((exists id, id ∈ omap watcher (JsMap.values (workspaceFoldersAtom w)) /\
                watcherDispose env id = Throw e) /\
    workspaceFoldersAtom w' = workspaceFoldersAtom w /\
    isActiveAtom w' = isActiveAtom w /\
    fileUpsertQueueAtom w' = fileUpsertQueueAtom w /\
    errorsAtom w' = errorsAtom w /\
    disposables w' = disposables w) \/
   ((exists d, Some d ∈ disposables w /\ subscriptionDispose env d = Throw e) /\
    workspaceFoldersAtom w' = [] /\
    isActiveAtom w' = false /\
    fileUpsertQueueAtom w' = [] /\
    errorsAtom w' = [] /\
    disposables w' = disposables w)).
Proof.
  intros Hrun. rewrite dispose_run in Hrun.
  destruct (forEach disposeWatcher (JsMap.values (workspaceFoldersAtom w)) (cleared w))
    as [[[]|e1] ww] eqn:Hwatchers.
  - destruct (forEach disposeSubscription (disposables ww) (reset ww))
      as [[[]|e2] ws] eqn:Hsubs; [discriminate|].
    injection Hrun as -> ->.
    pose proof (fun X (obs : World -> X) Hobs =>
                  forEach_disposeWatcher_keeps obs
                    (JsMap.values (workspaceFoldersAtom w)) Hobs (cleared w)) as Kw.
    pose proof (fun X (obs : World -> X) Hobs =>
                  forEach_disposeSubscription_keeps obs (disposables ww) Hobs (reset ww)) as Ks.
    rewrite Hwatchers in Kw. rewrite Hsubs in Ks. cbn [snd] in Kw, Ks.
    assert (Hds : disposables ww = disposables w).
    { rewrite (Kw _ disposables (fun _ _ => eq_refl)).
      destruct (fileUpsertInterval w); reflexivity. }
    split.
    { rewrite (Ks _ fileUpsertInterval (fun _ _ => eq_refl)). simpl.
      rewrite (Kw _ fileUpsertInterval (fun _ _ => eq_refl)). apply cleared_interval. }
    split.
    { rewrite (Ks _ manifestCacheAtom (fun _ _ => eq_refl)). simpl.
      rewrite (Kw _ manifestCacheAtom (fun _ _ => eq_refl)).
      destruct (fileUpsertInterval w); reflexivity. }
    right. split.
    { apply forEach_throw_inv in Hsubs as ([d|] & wx & Hin & Hturn); [|discriminate].
      exists d. rewrite Hds in Hin. split; [exact Hin|].
      unfold emit in Hturn. unfold_m.
      destruct (subscriptionDispose env d) as [[]|e0]; [discriminate | congruence]. }
    rewrite (Ks _ workspaceFoldersAtom (fun _ _ => eq_refl)),
      (Ks _ isActiveAtom (fun _ _ => eq_refl)),
      (Ks _ fileUpsertQueueAtom (fun _ _ => eq_refl)),
      (Ks _ errorsAtom (fun _ _ => eq_refl)),
      (Ks _ disposables (fun _ _ => eq_refl)).
    simpl. repeat split. exact Hds.
  - injection Hrun as -> ->.
    pose proof (fun X (obs : World -> X) Hobs =>
                  forEach_disposeWatcher_keeps obs
                    (JsMap.values (workspaceFoldersAtom w)) Hobs (cleared w)) as Kw.
    rewrite Hwatchers in Kw. cbn [snd] in Kw.
    split.
    { rewrite (Kw _ fileUpsertInterval (fun _ _ => eq_refl)). apply cleared_interval. }
    split.
    { rewrite (Kw _ manifestCacheAtom (fun _ _ => eq_refl)).
      destruct (fileUpsertInterval w); reflexivity. }
    left. split.
    { apply forEach_throw_inv in Hwatchers as (state & wx & Hin & Hturn).
      destruct (watcher state) as [id|] eqn:Hid; [|discriminate].
      exists id. split; [apply list_elem_of_omap; eauto|].
      unfold emit in Hturn. unfold_m.
      destruct (watcherDispose env id) as [[]|e0]; [discriminate | congruence]. }
    rewrite (Kw _ workspaceFoldersAtom (fun _ _ => eq_refl)),
      (Kw _ isActiveAtom (fun _ _ => eq_refl)),
      (Kw _ fileUpsertQueueAtom (fun _ _ => eq_refl)),
      (Kw _ errorsAtom (fun _ _ => eq_refl)),
      (Kw _ disposables (fun _ _ => eq_refl)).
    destruct (fileUpsertInterval w); repeat split.
Qed.

Lemma dispose_interval w : fileUpsertInterval (snd (dispose env w)) = None.
Proof.
  rewrite dispose_run.
  pose proof (forEach_disposeWatcher_keeps fileUpsertInterval
                (JsMap.values (workspaceFoldersAtom w)) (fun _ _ => eq_refl) (cleared w)) as Kw.
  destruct (forEach disposeWatcher (JsMap.values (workspaceFoldersAtom w)) (cleared w))
    as [[[]|e1] ww]; cbn [snd] in Kw.
  - pose proof (forEach_disposeSubscription_keeps fileUpsertInterval (disposables ww)
                  (fun _ _ => eq_refl) (reset ww)) as Ks.
    destruct (forEach disposeSubscription (disposables ww) (reset ww)) as [[[]|e2] ws];
      cbn [snd] in Ks; simpl; rewrite Ks; simpl; rewrite Kw; apply cleared_interval.
  - simpl. rewrite Kw. apply cleared_interval.
Qed.

Lemma dispose_disposables w w1 : dispose env w = (Normal tt, w1) -> disposables w1 = [].
Proof.
  rewrite dispose_run.
  destruct (forEach disposeWatcher _ _) as [[[]|e1] ww]; [|discriminate].
  destruct (forEach disposeSubscription _ _) as [[[]|e2] ws]; [|discriminate].
  now intros [= <-].
Qed.

(** X29.  The constructor subscribes to the two change notifications and
    starts the interval of the queue worker; [restart], which those
    notifications call, undoes both and [start] redoes neither.  After a
    restart there is no interval any more, whatever [start] did, so queued
    uploads are no longer picked up; and unless a [dispose()] threw, no
    subscription is held any more, so the indexer has seen its last
    configuration change. *)
Theorem restart_stops_the_worker (w : World) :
  let constructed := snd (setupSubscriptions env w) in
  fileUpsertInterval constructed = Some (setInterval env) /\
  disposables constructed
  = (disposables w ++ [onManagedIndexerConfigChange env; onDidChangeWorkspaceFolders env])%list /\
  (forall w0, fileUpsertInterval (snd (restart env w0)) = None) /\
  (forall w0 w1, dispose env w0 = (Normal tt, w1) ->
                 disposables (snd (restart env w0)) = []).
Proof.
  intros constructed. subst constructed.
  split; [reflexivity|]. split; [simpl; now rewrite <- app_assoc|]. split.
  - intros w0. unfold restart. unfold bind.
    pose proof (dispose_interval w0) as Hd.
    destruct (dispose env w0) as [[[]|e] w1]; cbn [snd] in Hd; [|exact Hd].
    now rewrite (start_keeps_interval env w1).
  - intros w0 w1 Hd. unfold restart. rewrite (bind_normal _ _ _ _ _ Hd).
    rewrite (start_keeps_disposables env w1). exact (dispose_disposables w0 w1 Hd).
Qed.

End Shutdown.

Lemma dispose_completes_witness :
  exists w',
    dispose (Sample.host true 0) (snd (setupSubscriptions (Sample.host true 0) Sample.running))
    = (Normal tt, w') /\
    isActiveAtom w' = false /\
    disposables w' = [] /\
    effects w' = [IntervalCleared 7%nat; WatcherDisposed 0%nat; SubscriptionDisposed 0%nat].
Proof.
  destruct (dispose_completes (Sample.host true 0)
              (snd (setupSubscriptions (Sample.host true 0) Sample.running)))
    as (w' & Hrun & _ & Hactive & _ & _ & Hds & _ & _ & _ & Heffects).
  - intros id _. reflexivity.
  - intros d _. reflexivity.
  - exists w'. split; [exact Hrun|]. split; [exact Hactive|]. split; [exact Hds|].
    exact Heffects.
Defined.

Lemma dispose_interrupted_witness :
  let w' := snd (dispose MoreSample.stuck Sample.running) in
  fst (dispose MoreSample.stuck Sample.running) = Throw (JsError "busy" None) /\
  fileUpsertInterval w' = None /\
  manifestCacheAtom w' = manifestCacheAtom Sample.running.
Proof.
  split; [reflexivity|].
  destruct (dispose_interrupted MoreSample.stuck Sample.running (JsError "busy" None)
              (snd (dispose MoreSample.stuck Sample.running)) eq_refl)
    as (Hinterval & Hcache & _).
  split; [exact Hinterval | exact Hcache].
Defined.
